(** * CosmosData (sm_utils.py): a shallow embedding and its properties

    The development follows [src/sm_utils/sm_utils.py] method by method.
    pandas columns are lists, a missing cell (NaN, NaT) is [None], a raised
    Python exception is [Raise].  Floating-point numbers are modelled by exact
    arithmetic: rationals ([Qc]) for everything the readers, the LAI
    reconstruction and the precipitation aggregation compute, reals ([R]) from
    the point where [np.exp] enters (the atmosphere table).  Rounding,
    overflow and signed infinities are outside the model: a division by zero
    yields [None].  What the methods print is not modelled. *)

From Stdlib Require Import ZArith QArith Qcanon Reals Lra Lia.
From stdpp Require Import base option list sorting gmap strings.

Local Open Scope Z_scope.

(** ** Exceptions and results *)

Inductive exn : Type :=
| KeyError            (* a label or column that is not there *)
| ValueError          (* min() of an empty list, reindex on duplicate labels *)
| IntCastingNaNError  (* astype(int) on a column holding NaN *)
| FileNotFoundError   (* read_csv on a missing path *)
| ParserError         (* read_csv on a file of another layout *)
| IndexError          (* position 0 of an empty column *)
| NotImplementedError (* pandas goes on where the model stops: a float column as index *)
| PermissionError     (* to_csv on a path that cannot be opened for writing *)
| OSError.            (* to_csv when a write breaks off: no space left, I/O error *)

Inductive result (A : Type) : Type :=
| Ok (a : A)
| Raise (e : exn).
Arguments Ok {A} a.
Arguments Raise {A} e.

Definition bind {A B} (r : result A) (k : A -> result B) : result B :=
  match r with
  | Ok a => k a
  | Raise e => Raise e
  end.

(** The result of a function applied to what was returned. *)
#[global] Instance result_fmap : FMap result :=
  λ A B f r, match r with Ok a => Ok (f a) | Raise e => Raise e end.

Notation "x <- r ;;; k" := (bind r (fun x => k))
  (at level 100, r at next level, right associativity).

(** ** Numbers *)

Module Num.

(** A float cell: [None] is NaN. *)
Abbreviation float := (option Qc) (only parsing).

Definition lift2 (op : Qc -> Qc -> Qc) (x y : float) : float :=
  match x, y with
  | Some a, Some b => Some (op a b)
  | _, _ => None
  end.

Definition fadd : float -> float -> float := lift2 Qcplus.
Definition fsub : float -> float -> float := lift2 Qcminus.
Definition fmul : float -> float -> float := lift2 Qcmult.

(** Division: a zero divisor gives no finite value. *)
Definition fdiv (x y : float) : float :=
  match x, y with
  | Some a, Some b => if decide (b = 0%Qc) then None else Some (a / b)%Qc
  | _, _ => None
  end.

(** An integer cell used in float arithmetic. *)
Definition of_int (n : Z) : float := Some (Q2Qc (inject_Z n)).

(** The fraction in lowest terms that a cell holds. *)
Definition value (x : float) : option Q := option_map this x.

End Num.
Import Num.

(** ** Dates

    A date is its proleptic Gregorian ordinal (day 1 is 0001-01-01), the
    number [datetime.date.toordinal] returns; a difference of two dates is a
    number of days. *)

Module Dates.

Definition is_leap (y : Z) : bool :=
  (y mod 4 =? 0) && (negb (y mod 100 =? 0) || (y mod 400 =? 0)).

Definition days_before_year (y : Z) : Z :=
  let p := y - 1 in p * 365 + p / 4 - p / 100 + p / 400.

Definition days_in_month (y m : Z) : Z :=
  if m =? 2 then (if is_leap y then 29 else 28)
  else if (m =? 4) || (m =? 6) || (m =? 9) || (m =? 11) then 30
  else 31.

Definition days_before_month (y m : Z) : Z :=
  foldr Z.add 0 (days_in_month y <$> seqZ 1 (m - 1)).

(** The date [y]-[m]-[d]. *)
Definition Timestamp (y m d : Z) : Z :=
  days_before_year y + days_before_month y m + d.

(** [.dt.year]: the calendar year a date falls in. *)
Definition year (n : Z) : Z :=
  let n0 := n - 1 in
  let n400 := n0 / 146097 in
  let r400 := n0 mod 146097 in
  let n100 := r400 / 36524 in
  let r100 := r400 mod 36524 in
  let n4 := r100 / 1461 in
  let r4 := r100 mod 1461 in
  let n1 := r4 / 365 in
  let y := n400 * 400 + 1 + n100 * 100 + n4 * 4 + n1 in
  if (n1 =? 4) || (n100 =? 4) then y - 1 else y.

(** [pd.date_range(start, end)] at the default daily frequency. *)
Definition date_range (start stop : Z) : list Z :=
  seqZ start (stop - start + 1).

(** Python's [min] and [max] of a list of integers. *)
Definition py_min (l : list Z) : result Z :=
  match l with
  | [] => Raise ValueError
  | y :: ys => Ok (foldr Z.min y ys)
  end.

Definition py_max (l : list Z) : result Z :=
  match l with
  | [] => Raise ValueError
  | y :: ys => Ok (foldr Z.max y ys)
  end.

(** Line 168:
    [pd.date_range(start='1/1/'+str(min(self.years)), end='31/12/'+str(max(self.years)))].
    The two strings are read as 1 January and 31 December of the year
    written, which is how pandas parses them for the years its timestamps
    hold (1678 to 2261). *)
Definition calendar (years : list Z) : result (list Z) :=
  lo <- py_min years ;;;
  hi <- py_max years ;;;
  Ok (date_range (Timestamp lo 1 1) (Timestamp hi 12 31)).

End Dates.
Import Dates.

(** ** Column operations of pandas *)

Module Column.

(** [Series.shift(1)]: every cell moves one row down, the first is empty. *)
Definition shift {A} (col : list (option A)) : list (option A) :=
  take (length col) (None :: col).

(** [col[0] = v] when [v] was read at position (or label) 0 of a column of
    the same frame: [v] is [None] when that frame has no row. *)
Definition set_first {A} (col : list A) (v : option A) (e : exn) : result (list A) :=
  match v with
  | Some x => Ok (<[0%nat := x]> col)
  | None => Raise e
  end.

(** Position of the label [d] in an index. *)
Definition get_loc (index : list Z) (d : Z) : option nat :=
  fst <$> list_find (λ x, x = d) index.

(** [DataFrame.reindex(idx)], one column at a time: the cell of the row
    labelled [d], empty where the old index has no such label. *)
Definition reindex {A} (index : list Z) (col : list (option A)) (idx : list Z)
  : list (option A) :=
  (λ d, i ← get_loc index d; mjoin (col !! i)) <$> idx.

(** [Series.ffill()]: an empty cell takes the last value above it. *)
Fixpoint ffill_from {A} (last : option A) (col : list (option A)) : list (option A) :=
  match col with
  | [] => []
  | Some x :: col' => Some x :: ffill_from (Some x) col'
  | None :: col' => last :: ffill_from last col'
  end.

Definition ffill {A} (col : list (option A)) : list (option A) :=
  ffill_from None col.

(** [Series.bfill()]: an empty cell takes the next value below it. *)
Fixpoint bfill {A} (col : list (option A)) : list (option A) :=
  match col with
  | [] => []
  | c :: col' =>
      let rest := bfill col' in
      match c with
      | Some x => Some x :: rest
      | None => default None (head rest) :: rest
      end
  end.

(** [(a - b) / np.timedelta64(1, 'D')]: a day count, NaN where a date is NaT. *)
Definition days_between (a b : list (option Z)) : list (option Z) :=
  zip_with (λ x y, x ← x; y ← y; Some (x - y)) a b.

(** [Series.astype(int)] on a float column: refuses NaN. *)
Definition astype_int (col : list (option Z)) : result (list Z) :=
  match mapM (λ c, c) col with
  | Some l => Ok l
  | None => Raise IntCastingNaNError
  end.

End Column.
Import Column.

(** ** get_MODIS_data *)

(** A row of [data/MODIS_LAI_2015-12-15_to_2023-03-03.csv]. *)
Record ModisRow : Type := {
  Date : Z;
  SITE_ID : string;
  LAI : float;
  Confidence : Z
}.

Module Modis.

(** The order of [sort_values('Date')]. *)
Definition by_Date (r1 r2 : ModisRow) : Prop := Date r1 ≤ Date r2.

#[global] Instance by_Date_dec : RelDecision by_Date.
Proof. intros r1 r2. unfold by_Date. apply _. Defined.

(** Lines 156-158: the rows of the site and of the requested years, by date.
    The order in which [sort_values] leaves rows of one date does not reach
    the result: [reindex] refuses an index with a repeated date. *)
Definition select (csv : list ModisRow) (site : string) (years : list Z) : list ModisRow :=
  merge_sort by_Date
    (filter (λ r, year (Date r) ∈ years) (filter (λ r, SITE_ID r = site) csv)).

(** Line 160:
    [MODIS['LAI'].shift(1) + (MODIS['LAI']-MODIS['LAI'].shift(1))/(MODIS['Confidence']+1)]. *)
Definition CALC_shifted (MODIS : list ModisRow) : list float :=
  let lai : list float := LAI <$> MODIS in
  let prev : list float := shift lai in
  zip_with fadd prev
    (zip_with fdiv (zip_with fsub lai prev) ((λ r, of_int (Confidence r + 1)) <$> MODIS)).

(** Lines 160-161: the column [CALC]. *)
Definition CALC (MODIS : list ModisRow) : result (list float) :=
  set_first (CALC_shifted MODIS) ((LAI <$> MODIS) !! 0%nat) KeyError.

(** As the specification words the step (section 4.3, step 1): each value
    is damped against the smoothed value before it,
    [smoothed[i] = smoothed[i-1] + (LAI[i] - smoothed[i-1]) / (confidence[i] + 1)],
    [smoothed[0] = LAI[0]].  Not the code: for comparison with [CALC]. *)
Fixpoint smoothed_from (prev : float) (rest : list ModisRow) : list float :=
  match rest with
  | [] => []
  | r :: rest' =>
      let s := fadd prev (fdiv (fsub (LAI r) prev) (of_int (Confidence r + 1))) in
      s :: smoothed_from s rest'
  end.

Definition smoothed_spec (MODIS : list ModisRow) : list float :=
  match MODIS with
  | [] => []
  | r0 :: rest => LAI r0 :: smoothed_from (LAI r0) rest
  end.

(** Lines 163-165: the column [Date0]. *)
Definition Date0 (MODIS : list ModisRow) : result (list (option Z)) :=
  let date2 : list (option Z) := Some <$> (Date <$> MODIS) in
  set_first (shift date2) (date2 !! 0%nat) KeyError.

(** Lines 169-183: padding to the calendar [idx] and the triangle rule.
    [reindex] raises on an index with a repeated date (line 170); the fills
    are those of lines 173-176 ([SITE_ID] does not reach the result); the
    two casts are those of lines 180 and 181; line 182 reads [MODIS['LAI'][0]]
    by position on the date-indexed frame, the [LAI] cell of the first
    calendar row. *)
Definition pad (MODIS : list ModisRow) (calc : list float) (date0 : list (option Z))
    (idx : list Z) : result (list (Z * float)) :=
  let index : list Z := Date <$> MODIS in
  if decide (NoDup index) then
    let lai := reindex index (LAI <$> MODIS) idx in
    let CALC := ffill (reindex index calc idx) in
    let Date2 := bfill (reindex index (Some <$> index) idx) in
    let CALC2 := bfill (reindex index calc idx) in
    let Date0 := ffill (reindex index date0 idx) in
    ahead <- astype_int (days_between Date2 (Some <$> idx)) ;;;
    width <- astype_int (days_between Date2 Date0) ;;;
    let LAI_pred :=
      zip_with fadd CALC2
        (zip_with fdiv
           (zip_with fmul (zip_with fsub CALC CALC2) (of_int <$> ahead))
           (of_int <$> width)) in
    LAI_pred <- set_first LAI_pred (lai !! 0%nat) IndexError ;;;
    Ok (zip idx LAI_pred)
  else Raise ValueError.

(** The reconstruction proper, for a sample table and a calendar. *)
Definition reconstruct (MODIS : list ModisRow) (idx : list Z) : result (list (Z * float)) :=
  calc <- CALC MODIS ;;;
  date0 <- Date0 MODIS ;;;
  pad MODIS calc date0 idx.

(** The method itself, from the rows of the CSV file. *)
Definition get_MODIS_data (csv : list ModisRow) (site : string) (years : list Z)
  : result (list (Z * float)) :=
  let MODIS := select csv site years in
  calc <- CALC MODIS ;;;
  date0 <- Date0 MODIS ;;;
  idx <- calendar years ;;;
  pad MODIS calc date0 idx.

End Modis.

(** ** The archival readers: get_cosmos_data, get_PE_data, get_PREC_data *)

(** A row of [COSMOS-UK_<site>_HydroSoil_Daily_2013-2019.csv]; [DATE_TIME] is a date. *)
Module Daily.
Record Row : Type := {
  DATE_TIME : Z;
  COSMOS_VWC : float;
  PE : float
}.
End Daily.

(** A row of [COSMOS-UK_<site>_HydroSoil_SH_2013-2019.csv]; [DATE_TIME] is an
    instant, in seconds since the midnight that starts day 0. *)
Module SH.
Record Row : Type := {
  DATE_TIME : Z;
  PRECIP : float
}.
End SH.

Module Archive.

(** [na_values=-9999]: the sentinel reads as an empty cell. *)
Definition na_values (x : float) : float :=
  match x with
  | Some q => if decide (q = Q2Qc (inject_Z (-9999))) then None else Some q
  | None => None
  end.

Definition read_daily (r : Daily.Row) : Daily.Row :=
  {| Daily.DATE_TIME := Daily.DATE_TIME r;
     Daily.COSMOS_VWC := na_values (Daily.COSMOS_VWC r);
     Daily.PE := na_values (Daily.PE r) |}.

Definition read_sh (r : SH.Row) : SH.Row :=
  {| SH.DATE_TIME := SH.DATE_TIME r; SH.PRECIP := na_values (SH.PRECIP r) |}.

(** [.loc[(df['Date'].dt.year.isin(self.years))]] on a frame indexed by date. *)
Definition isin_years {A} (years : list Z) (df : list (Z * A)) : list (Z * A) :=
  filter (λ p, year p.1 ∈ years) df.

(** Lines 131-135, after [read_csv]. *)
Definition get_cosmos_data (daily : list Daily.Row) (years : list Z) : list (Z * float) :=
  isin_years years ((λ r, (Daily.DATE_TIME r, Daily.COSMOS_VWC r)) <$> daily).

(** Lines 137-141, after [read_csv]. *)
Definition get_PE_data (daily : list Daily.Row) (years : list Z) : list (Z * float) :=
  isin_years years ((λ r, (Daily.DATE_TIME r, Daily.PE r)) <$> daily).

(** [pd.to_datetime(...).dt.date]: the day an instant falls in. *)
Definition dt_date (t : Z) : Z := t / 86400.

(** The rows of one group, in file order. *)
Definition group (sh : list SH.Row) (d : Z) : list SH.Row :=
  filter (λ r, dt_date (SH.DATE_TIME r) = d) sh.

(** [agg('sum')]: NaN cells are skipped; an empty sum is 0. *)
Definition agg_sum (g : list SH.Row) : float :=
  Some (foldl Qcplus 0%Qc (omap SH.PRECIP g)).

(** [agg('count')]: the number of cells that are not NaN. *)
Definition agg_count (g : list SH.Row) : Z :=
  Z.of_nat (length (omap SH.PRECIP g)).

(** Lines 145-146: [groupby(date).PRECIP.agg(['sum','count'])], one row
    per group key, keys in increasing order; each row is
    (Date, (PRECIP, prec_count)). *)
Definition groupby_date (sh : list SH.Row) : list (Z * (float * Z)) :=
  (λ d, (d, (agg_sum (group sh d), agg_count (group sh d))))
    <$> merge_sort Z.le (remove_dups ((λ r, dt_date (SH.DATE_TIME r)) <$> sh)).

(** Lines 143-148, after [read_csv]. *)
Definition get_PREC_data (sh : list SH.Row) (years : list Z) : list (Z * (float * Z)) :=
  isin_years years (groupby_date sh).

End Archive.

(** ** Data frames of the atmosphere table

    From the first [np.exp] on the cells are real numbers.  A column has one
    dtype, float64 or int64, as in pandas; the index holds integer labels
    (dates, or row numbers). *)

Module Frame.

Inductive column : Type :=
| FloatCol (l : list (option R))
| IntCol (l : list Z).

Record DataFrame : Type := {
  index_name : option string;
  index : list Z;
  columns : list (string * column)
}.

Definition names (df : DataFrame) : list string := fst <$> columns df.

Definition len (df : DataFrame) : Z := Z.of_nat (length (index df)).

(** The cells of a column read as floats. *)
Definition as_float (c : column) : list (option R) :=
  match c with
  | FloatCol l => l
  | IntCol l => (λ n, Some (IZR n)) <$> l
  end.

Definition rlift2 (op : R -> R -> R) (x y : option R) : option R :=
  match x, y with
  | Some a, Some b => Some (op a b)
  | _, _ => None
  end.

(** [a * b], [a - b], [np.exp(a)], [k * a], [a * k] and [a + n] on columns. *)
Definition col_mul (a b : column) : column :=
  FloatCol (zip_with (rlift2 Rmult) (as_float a) (as_float b)).

Definition col_sub (a b : column) : column :=
  FloatCol (zip_with (rlift2 Rminus) (as_float a) (as_float b)).

Definition col_exp (a : column) : column :=
  FloatCol (option_map exp <$> as_float a).

Definition scalar_mul (k : R) (a : column) : column :=
  FloatCol (option_map (Rmult k) <$> as_float a).

Definition mul_scalar (a : column) (k : R) : column :=
  FloatCol (option_map (λ x, x * k)%R <$> as_float a).

Definition col_add_int (a : column) (n : Z) : column :=
  match a with
  | IntCol l => IntCol ((λ m, m + n) <$> l)
  | FloatCol l => FloatCol (option_map (λ x, x + IZR n)%R <$> l)
  end.

(** [df[c]]. *)
Definition getitem (df : DataFrame) (c : string) : result column :=
  match list_find (λ p, p.1 = c) (columns df) with
  | Some (_, (_, col)) => Ok col
  | None => Raise KeyError
  end.

(** [df.assign(c=col)]: an existing column is overwritten in place, a new
    one goes last. *)
Definition assign (c : string) (col : column) (df : DataFrame) : DataFrame :=
  {| index_name := index_name df;
     index := index df;
     columns :=
       if decide (c ∈ names df)
       then (λ p, if decide (p.1 = c) then (c, col) else p) <$> columns df
       else columns df ++ [(c, col)] |}.

(** [df.drop(columns=cs)]. *)
Definition drop (cs : list string) (df : DataFrame) : result DataFrame :=
  if decide (cs ⊆ names df) then
    Ok {| index_name := index_name df;
          index := index df;
          columns := filter (λ p, p.1 ∉ cs) (columns df) |}
  else Raise KeyError.

(** [df.transform(f)], column by column. *)
Definition transform (f : column -> column) (df : DataFrame) : DataFrame :=
  {| index_name := index_name df;
     index := index df;
     columns := prod_map (λ c, c) f <$> columns df |}.

(** [df.rename(columns={old: new})]. *)
Definition rename (old new : string) (df : DataFrame) : DataFrame :=
  {| index_name := index_name df;
     index := index df;
     columns := prod_map (λ c, if decide (c = old) then new else c) (λ c, c) <$> columns df |}.

(** [df.set_index(c)]: the column leaves the table and labels the rows. *)
Definition set_index (c : string) (df : DataFrame) : result DataFrame :=
  col <- getitem df c ;;;
  match col with
  | IntCol l =>
      Ok {| index_name := Some c;
            index := l;
            columns := filter (λ p, p.1 ≠ c) (columns df) |}
  | FloatCol _ => Raise NotImplementedError
  end.

(** [df.reset_index()]: the index comes back as the first column, the rows
    are numbered from 0. *)
Definition reset_index (df : DataFrame) : result DataFrame :=
  let c := default "index" (index_name df) in
  if decide (c ∈ names df) then Raise ValueError
  else
    Ok {| index_name := None;
          index := seqZ 0 (len df);
          columns := (c, IntCol (index df)) :: columns df |}.

(** The rows of [labels] that carry the label [k]. *)
Definition positions (k : Z) (labels : list Z) : list nat :=
  fst <$> filter (λ p, p.2 = k) (imap pair labels).

(** The row pairs of a left join: every left row, in order, with each
    right row of the same label, or with none. *)
Definition indexer (left right : list Z) : list (Z * (nat * option nat)) :=
  flat_map
    (λ p : nat * Z,
       match positions p.2 right with
       | [] => [(p.2, (p.1, None))]
       | js => (λ j, (p.2, (p.1, Some j))) <$> js
       end)
    (imap pair left).

(** The cells of a column at the given rows; a missing row is NaN, which
    turns an int64 column into float64. *)
Definition take_rows (js : list (option nat)) (c : column) : column :=
  match c with
  | FloatCol l => FloatCol ((λ j, i ← j; mjoin (l !! i)) <$> js)
  | IntCol l =>
      match mapM (λ j, i ← j; l !! i) js with
      | Some zs => IntCol zs
      | None => FloatCol ((λ j, i ← j; option_map IZR (l !! i)) <$> js)
      end
  end.

(** [left.join(right)]: a left join on the index. *)
Definition join (left right : DataFrame) : result DataFrame :=
  if decide (Forall (λ c, c ∉ names right) (names left)) then
    let ix := indexer (index left) (index right) in
    Ok {| index_name := index_name left;
          index := fst <$> ix;
          columns :=
            (prod_map (λ c, c) (take_rows ((λ p, Some p.2.1) <$> ix)) <$> columns left)
            ++ (prod_map (λ c, c) (take_rows ((λ p, p.2.2) <$> ix)) <$> columns right) |}
  else Raise ValueError.

(** A cell of either dtype, and the cell of column [c] in row number [k]. *)
Inductive cell : Type :=
| Float (x : option R)
| Int (n : Z).

Definition cell_at (df : DataFrame) (k : nat) (c : string) : option cell :=
  match getitem df c with
  | Ok (FloatCol l) => Float <$> l !! k
  | Ok (IntCol l) => Int <$> l !! k
  | Raise _ => None
  end.

(** A float cell of the readers as a real cell. *)
Definition to_R (x : float) : option R := option_map (λ q : Qc, Q2R q) x.

(** A one-column float frame from a series. *)
Definition of_series (ix c : string) (s : list (Z * float)) : DataFrame :=
  {| index_name := Some ix;
     index := fst <$> s;
     columns := [(c, FloatCol ((λ p, to_R p.2) <$> s))] |}.

End Frame.
Import Frame.

(** ** write_atmo_data: the table *)

Module Atmo.

(** Lines 203-210 and 217-224: the chain after the joins; [PE] and
    [PRECIP] are the column names of the pathway. *)
Definition derive (PE PRECIP : string) (x : DataFrame) : result DataFrame :=
  pe <- getitem x PE ;;;
  lai <- getitem x "LAI_pred" ;;;
  let x := assign "rSoil" (col_mul pe (col_exp (scalar_mul (-0.463) lai))) x in
  pe <- getitem x PE ;;;
  rsoil <- getitem x "rSoil" ;;;
  let x := assign "rRoot" (col_sub pe rsoil) x in
  x <- drop ["LAI_pred"; PE] x ;;;
  let x := transform (λ c, mul_scalar c 0.1) x in
  let x := assign "hCritA" (IntCol (replicate (length (index x)) 100000)) x in
  let x := assign "tAtm" (IntCol (seqZ 0 (len x))) x in
  x <- set_index "tAtm" x ;;;
  let x := rename PRECIP "Prec" x in
  x <- reset_index x ;;;
  tAtm <- getitem x "tAtm" ;;;
  Ok (assign "tAtm" (col_add_int tAtm 1) x).

(** The atmosphere record of a row with potential evapotranspiration [p],
    precipitation [r] and reconstructed LAI [l], read in row number [k] of
    a written table. *)
Definition record_at (out : DataFrame) (k : nat) (p r l : R) : Prop :=
  cell_at out k "tAtm" = Some (Int (Z.of_nat k + 1))
  ∧ cell_at out k "rSoil" = Some (Float (Some (p * exp (-0.463 * l) * 0.1)%R))
  ∧ cell_at out k "rRoot" = Some (Float (Some ((p - p * exp (-0.463 * l)) * 0.1)%R))
  ∧ cell_at out k "Prec" = Some (Float (Some (r * 0.1)%R))
  ∧ cell_at out k "hCritA" = Some (Int 100000).

(** A driving table of the API pathway, by its columns. *)
Definition table_API (ix : list Z) (pe precip lai : list (option R)) : DataFrame :=
  {| index_name := Some "date";
     index := ix;
     columns := [("pe", FloatCol pe); ("precip", FloatCol precip);
                 ("LAI_pred", FloatCol lai)] |}.

(** A driving table of the archival pathway, by its columns. *)
Definition table_files (ix : list Z) (pe precip : list (option R)) (count : column)
    (lai : list (option R)) : DataFrame :=
  {| index_name := Some "Date";
     index := ix;
     columns := [("PE", FloatCol pe); ("PRECIP", FloatCol precip);
                 ("prec_count", count); ("LAI_pred", FloatCol lai)] |}.

(** [self.MODIS_data] as a frame. *)
Definition MODIS_frame (MODIS_data : list (Z * float)) : DataFrame :=
  of_series "" "LAI_pred" MODIS_data.

(** [self.PREC_data] as a frame. *)
Definition PREC_frame (PREC_data : list (Z * (float * Z))) : DataFrame :=
  {| index_name := Some "Date";
     index := fst <$> PREC_data;
     columns := [("PRECIP", FloatCol ((λ p, to_R p.2.1) <$> PREC_data));
                 ("prec_count", IntCol ((λ p, p.2.2) <$> PREC_data))] |}.

(** Line 202: the three API-side tables joined on the date. *)
Definition driving_API (pe precip MODIS_data : list (Z * float)) : result DataFrame :=
  x <- join (of_series "date" "pe" pe) (of_series "date" "precip" precip) ;;;
  join x (MODIS_frame MODIS_data).

(** Lines 202-210: the table written to [data/atmosphere_API.csv]. *)
Definition atmo_API (pe precip MODIS_data : list (Z * float)) : result DataFrame :=
  x <- driving_API pe precip MODIS_data ;;;
  derive "pe" "precip" x.

(** Line 216: the three archival tables joined on the date. *)
Definition driving_files (PE_data : list (Z * float)) (PREC_data : list (Z * (float * Z)))
    (MODIS_data : list (Z * float)) : result DataFrame :=
  x <- join (of_series "Date" "PE" PE_data) (PREC_frame PREC_data) ;;;
  join x (MODIS_frame MODIS_data).

(** Lines 216-224: the table written to [data/atmosphere.csv]. *)
Definition atmo_files (PE_data : list (Z * float)) (PREC_data : list (Z * (float * Z)))
    (MODIS_data : list (Z * float)) : result DataFrame :=
  x <- driving_files PE_data PREC_data MODIS_data ;;;
  derive "PE" "PRECIP" x.

End Atmo.

(** ** The API frame: get_cosmos_api_data, get_cosmos_api_single

    Transport and JSON decoding (lines 47-99) are not modelled: the frame
    that [read_json_collection_data] returns for a query is an input. *)

Module Api.

(** [self.api_data]: rows labelled (datetime, site_id), one float cell per
    column; [datetime] is an instant in seconds. *)
Record frame : Type := {
  api_columns : list string;
  api_rows : list (Z * string * list float)
}.

(** The answer to the query for a site between two dates. *)
Definition service : Type := string -> Z -> Z -> result frame.

(** Lines 103-122. *)
Definition get_cosmos_api_data (requests_get : service) (site : string) (years : list Z)
  : result frame :=
  lo <- py_min years ;;;
  hi <- py_max years ;;;
  requests_get site (Timestamp lo 1 1) (Timestamp hi 12 31).

(** Lines 124-129: one column, labelled by date. *)
Definition get_cosmos_api_single (api_data : frame) (column : string)
  : result (list (Z * float)) :=
  match list_find (λ c, c = column) (api_columns api_data) with
  | Some (i, _) =>
      Ok ((λ r : Z * string * list float,
             (Archive.dt_date r.1.1, mjoin (r.2 !! i))) <$> api_rows api_data)
  | None => Raise KeyError
  end.

End Api.

(** ** The run: files, __init__ and write_atmo_data *)

Module Run.

(** What a path holds: one of the three input tables, a written
    atmosphere table, or the beginning of one: the first [lines] lines of the
    text of [df], left by a write that broke off.  The text of a CSV file is
    a function of its table. *)
Inductive File : Type :=
| DailyCsv (rows : list Daily.Row)
| SHCsv (rows : list SH.Row)
| ModisCsv (rows : list ModisRow)
| AtmoCsv (df : DataFrame)
| Truncated (df : DataFrame) (lines : nat).

(** The file system: the files, and the paths that cannot be opened for
    writing. *)
Record world : Type := {
  files : gmap string File;
  readonly : gset string
}.

(** A step of the run: it returns or raises, and leaves a file system. *)
Definition M (A : Type) : Type := world -> result A * world.

Definition ret {A} (a : A) : M A := λ w, (Ok a, w).

Definition lift {A} (r : result A) : M A := λ w, (r, w).

Definition mbind {A B} (m : M A) (k : A -> M B) : M B :=
  λ w, match m w with
       | (Ok a, w') => k a w'
       | (Raise e, w') => (Raise e, w')
       end.

Notation "x <~ m ;;; k" := (mbind m (fun x => k))
  (at level 100, m at next level, right associativity).

(** [pd.read_csv(path)]. *)
Definition read_csv (path : string) : M File :=
  λ w, match files w !! path with
       | Some f => (Ok f, w)
       | None => (Raise FileNotFoundError, w)
       end.

(** The file system after [path] received the table [df]. *)
Definition put (path : string) (df : DataFrame) (w : world) : world :=
  {| files := <[path := AtmoCsv df]> (files w); readonly := readonly w |}.

(** The device under the writes: [D path = Some k] when a write to [path]
    breaks off after [k] lines, [None] when it goes through. *)
Definition disk : Type := string -> option nat.

(** The text of a table: the header line and one line for each row. *)
Definition lines (df : DataFrame) : nat := S (length (index df)).

(** A device on which every write that was opened goes through. *)
Definition reliable : disk := λ _, None.

(** The file system after a write of [df] to [path] broke off after [k]
    lines: the path was opened for writing, which emptied it, and holds what
    was written since. *)
Definition cut (path : string) (df : DataFrame) (k : nat) (w : world) : world :=
  {| files := <[path := Truncated df k]> (files w); readonly := readonly w |}.

(** [df.to_csv(path)] (lines 213 and 227): the path itself is opened for
    writing, which raises when it cannot be and empties it otherwise, and
    the text is written in place; a write that breaks off before the last
    line raises and leaves the lines written so far. *)
Definition to_csv (D : disk) (path : string) (df : DataFrame) : M unit :=
  λ w, if decide (path ∈ readonly w) then (Raise PermissionError, w)
       else match D path with
            | Some k =>
                if decide (k < lines df)%nat
                then (Raise OSError, cut path df k w)
                else (Ok (), put path df w)
            | None => (Ok (), put path df w)
            end.

Definition daily_path (site : string) : string :=
  "/data/moisturedata/COSMOS-UK_HydroSoil_Daily/COSMOS-UK_" +:+ site
    +:+ "_HydroSoil_Daily_2013-2019.csv".

Definition sh_path (site : string) : string :=
  "/data/moisturedata/COSMOS-UK_HydroSoil_SH_2013-2019/COSMOS-UK_" +:+ site
    +:+ "_HydroSoil_SH_2013-2019.csv".

Definition modis_path : string := "data/MODIS_LAI_2015-12-15_to_2023-03-03.csv".

Definition read_daily (site : string) : M (list Daily.Row) :=
  f <~ read_csv (daily_path site) ;;;
  match f with
  | DailyCsv rows => ret (Archive.read_daily <$> rows)
  | _ => lift (Raise ParserError)
  end.

Definition get_cosmos_data (site : string) (years : list Z) : M (list (Z * float)) :=
  daily <~ read_daily site ;;;
  ret (Archive.get_cosmos_data daily years).

Definition get_PE_data (site : string) (years : list Z) : M (list (Z * float)) :=
  daily <~ read_daily site ;;;
  ret (Archive.get_PE_data daily years).

Definition get_PREC_data (site : string) (years : list Z) : M (list (Z * (float * Z))) :=
  f <~ read_csv (sh_path site) ;;;
  match f with
  | SHCsv rows => ret (Archive.get_PREC_data (Archive.read_sh <$> rows) years)
  | _ => lift (Raise ParserError)
  end.

Definition get_MODIS_data (site : string) (years : list Z) : M (list (Z * float)) :=
  f <~ read_csv modis_path ;;;
  match f with
  | ModisCsv rows => lift (Modis.get_MODIS_data rows site years)
  | _ => lift (Raise ParserError)
  end.

(** Lines 150-152. *)
Definition get_LAI_data (site : string) (years : list Z) : M (list (Z * float)) :=
  get_MODIS_data site years.

(** What a run meets outside the file system: the API, and
    [pd.concat(frames, axis=1)] of lines 35 and 38.  The concatenated table
    [self.driving_data] is never read again, so all that a run depends on is
    whether pandas raises on the three indexes; that is left to the
    environment. *)
Record env : Type := {
  requests_get : Api.service;
  pd_concat : list (list Z) -> result unit
}.

(** The attributes of a [CosmosData] object that [write_atmo_data] reads. *)
Record CosmosData : Type := {
  PE_data : list (Z * float);
  PREC_data : list (Z * (float * Z));
  MODIS_data : list (Z * float);
  api_data : Api.frame
}.

(** Lines 189-229. *)
Definition write_atmo_data (D : disk) (self : CosmosData) : M DataFrame :=
  pe <~ lift (Api.get_cosmos_api_single (api_data self) "pe") ;;;
  precip <~ lift (Api.get_cosmos_api_single (api_data self) "precip") ;;;
  atmo <~ lift (Atmo.atmo_API pe precip (MODIS_data self)) ;;;
  _ <~ to_csv D "data/atmosphere_API.csv" atmo ;;;
  atmo <~ lift (Atmo.atmo_files (PE_data self) (PREC_data self) (MODIS_data self)) ;;;
  _ <~ to_csv D "data/atmosphere.csv" atmo ;;;
  ret atmo.

(** The two tables of [write_atmo_data], as functions of the attributes. *)
Definition API_table (self : CosmosData) : result DataFrame :=
  pe <- Api.get_cosmos_api_single (api_data self) "pe" ;;;
  precip <- Api.get_cosmos_api_single (api_data self) "precip" ;;;
  Atmo.atmo_API pe precip (MODIS_data self).

Definition files_table (self : CosmosData) : result DataFrame :=
  Atmo.atmo_files (PE_data self) (PREC_data self) (MODIS_data self).

(** Lines 30-38: the attributes, in the order of the source. *)
Definition attributes (E : env) (years : list Z) (site : string) : M CosmosData :=
  cosmos_data <~ get_cosmos_data site years ;;;
  PE_data <~ get_PE_data site years ;;;
  PREC_data <~ get_PREC_data site years ;;;
  MODIS_data <~ get_MODIS_data site years ;;;
  LAI_data <~ get_LAI_data site years ;;;
  _ <~ lift (pd_concat E [PE_data.*1; PREC_data.*1; LAI_data.*1]) ;;;
  api_data <~ lift (Api.get_cosmos_api_data (requests_get E) site years) ;;;
  pe <~ lift (Api.get_cosmos_api_single api_data "pe") ;;;
  precip <~ lift (Api.get_cosmos_api_single api_data "precip") ;;;
  _ <~ lift (pd_concat E [pe.*1; precip.*1; LAI_data.*1]) ;;;
  ret {| PE_data := PE_data; PREC_data := PREC_data;
         MODIS_data := MODIS_data; api_data := api_data |}.

(** Lines 24-39: [CosmosData(years, site)] on the device [D]; the result is
    [self.atmo_data]. *)
Definition run (D : disk) (E : env) (years : list Z) (site : string) : M DataFrame :=
  self <~ attributes E years site ;;;
  write_atmo_data D self.

(** The run on a device that completes every write it opens. *)
Definition init (E : env) (years : list Z) (site : string) : M DataFrame :=
  run reliable E years site.

(** A step that writes nothing and whose outcome is decided by the files
    at [paths]. *)
Definition reads_only {A} (paths : list string) (m : M A) : Prop :=
  (∀ w, (m w).2 = w)
  ∧ ∀ w1 w2, (∀ p, p ∈ paths → files w1 !! p = files w2 !! p) → (m w1).1 = (m w2).1.

(** The files a run reads and the files it writes. *)
Definition inputs (site : string) : list string :=
  [daily_path site; sh_path site; modis_path].

Definition outputs : list string :=
  ["data/atmosphere_API.csv"; "data/atmosphere.csv"].

End Run.

(** ** Example data *)

(** A sample of the site CHIMN: date, LAI, confidence. *)
Definition sample (d l c : Z) : ModisRow :=
  {| Date := d; SITE_ID := "CHIMN"; LAI := of_int l; Confidence := c |}.

(** Three samples, LAI 1, 2, 3 with confidence 0, 1, 1. *)
Definition three_samples : list ModisRow :=
  [ sample (Timestamp 2018 1 1) 1 0;
    sample (Timestamp 2018 1 5) 2 1;
    sample (Timestamp 2018 1 9) 3 1 ].

(** Samples of 2018 that start on 5 January. *)
Definition late_start : list ModisRow :=
  [sample (Timestamp 2018 1 5) 1 0; sample (Timestamp 2018 12 31) 2 1].

(** Samples of 2018 that end on 30 December. *)
Definition early_end : list ModisRow :=
  [sample (Timestamp 2018 1 1) 1 0; sample (Timestamp 2018 12 30) 2 1].

(** Samples on the first and on the last day of 2018. *)
Definition year_2018 : list ModisRow :=
  [sample (Timestamp 2018 1 1) 1 0; sample (Timestamp 2018 12 31) 2 1].

(** Three readings of one day: 2.0 at 00:00, none at 12:00, 1.0 at 18:00. *)
Definition one_day : list SH.Row :=
  [ {| SH.DATE_TIME := Timestamp 2018 1 1 * 86400; SH.PRECIP := of_int 2 |};
    {| SH.DATE_TIME := Timestamp 2018 1 1 * 86400 + 43200; SH.PRECIP := None |};
    {| SH.DATE_TIME := Timestamp 2018 1 1 * 86400 + 64800; SH.PRECIP := of_int 1 |} ].

(** Readings of 3 January at 06:00 and 00:00 and of 1 January at 23:59:59
    and 00:00, in that order; none of 2 January. *)
Definition two_days : list SH.Row :=
  [ {| SH.DATE_TIME := Timestamp 2018 1 3 * 86400 + 21600; SH.PRECIP := of_int 4 |};
    {| SH.DATE_TIME := Timestamp 2018 1 1 * 86400 + 86399; SH.PRECIP := of_int 2 |};
    {| SH.DATE_TIME := Timestamp 2018 1 3 * 86400; SH.PRECIP := None |};
    {| SH.DATE_TIME := Timestamp 2018 1 1 * 86400; SH.PRECIP := of_int 1 |} ].

(** An API that answers every query with one row, PE 5 and precipitation
    10, and a [pd.concat] that never raises. *)
Definition env_2018 : Run.env :=
  {| Run.requests_get :=
       λ _ _ _, Ok {| Api.api_columns := ["pe"; "precip"];
                      Api.api_rows := [(Timestamp 2018 1 1 * 86400, "CHIMN",
                                        [of_int 5; of_int 10])] |};
     Run.pd_concat := λ _, Ok () |}.

(** The three input files of a run for CHIMN and 2018. *)
Definition files_2018 : gmap string Run.File :=
  list_to_map
    [ (Run.daily_path "CHIMN",
       Run.DailyCsv [ {| Daily.DATE_TIME := Timestamp 2018 1 1;
                         Daily.COSMOS_VWC := of_int 30;
                         Daily.PE := of_int 5 |} ]);
      (Run.sh_path "CHIMN",
       Run.SHCsv [ {| SH.DATE_TIME := Timestamp 2018 1 1 * 86400;
                      SH.PRECIP := of_int 10 |} ]);
      (Run.modis_path, Run.ModisCsv year_2018) ].

(** Those files, everything writable. *)
Definition world_2018 : Run.world :=
  {| Run.files := files_2018; Run.readonly := ∅ |}.

(** The same files, where [data/atmosphere.csv] cannot be written. *)
Definition blocked_2018 : Run.world :=
  {| Run.files := files_2018; Run.readonly := {[ "data/atmosphere.csv" ]} |}.

(** The same inputs beside an older output and a file of no concern. *)
Definition used_2018 : Run.world :=
  {| Run.files :=
       <["data/atmosphere.csv" := Run.AtmoCsv (Atmo.table_API [] [] [] [])]>
         (<["notes.csv" := Run.ModisCsv []]> files_2018);
     Run.readonly := ∅ |}.

(** An empty file system. *)
Definition no_files : Run.world := {| Run.files := ∅; Run.readonly := ∅ |}.

(** The reconstructed LAI of [year_2018]: 365 rows. *)
Definition series_2018 : list (Z * float) :=
  match Modis.get_MODIS_data year_2018 "CHIMN" [2018] with
  | Ok out => out
  | Raise _ => []
  end.

(** The attributes of a run for CHIMN and 2018 on [world_2018]. *)
Definition self_2018 : Run.CosmosData :=
  match (Run.attributes env_2018 [2018] "CHIMN" world_2018).1 with
  | Ok self => self
  | Raise _ =>
      {| Run.PE_data := []; Run.PREC_data := []; Run.MODIS_data := [];
         Run.api_data := {| Api.api_columns := []; Api.api_rows := [] |} |}
  end.

(** That run: the table it returns and the file system it leaves. *)
Definition table_2018 : DataFrame :=
  match (Run.init env_2018 [2018] "CHIMN" world_2018).1 with
  | Ok atmo => atmo
  | Raise _ => Atmo.table_API [] [] [] []
  end.

Definition after_2018 : Run.world :=
  (Run.init env_2018 [2018] "CHIMN" world_2018).2.

(** The table that run puts at [data/atmosphere_API.csv]. *)
Definition api_table_2018 : DataFrame :=
  match Run.API_table self_2018 with
  | Ok atmo => atmo
  | Raise _ => Atmo.table_API [] [] [] []
  end.

(** A device on which the write to [data/atmosphere.csv] breaks off after
    the header line, and one on which the write to
    [data/atmosphere_API.csv] breaks off at once. *)
Definition breaks_2018 : Run.disk :=
  λ path, if decide (path = "data/atmosphere.csv") then Some 1%nat else None.

Definition breaks_first_2018 : Run.disk :=
  λ path, if decide (path = "data/atmosphere_API.csv") then Some 0%nat else None.

(** * Properties *)

(** ** The calendar *)

Section calendar_facts.

Lemma foldr_min_spec (y : Z) (ys : list Z) :
  foldr Z.min y ys ∈ y :: ys ∧ ∀ y', y' ∈ y :: ys → foldr Z.min y ys ≤ y'.
Proof.
  induction ys as [|z zs [IHin IHle]]; simpl.
  - split; [left|]. intros y' Hy'. apply list_elem_of_singleton in Hy'. lia.
  - split.
    + destruct (Z.min_spec z (foldr Z.min y zs)) as [[_ E]|[_ E]]; rewrite E.
      * right; left.
      * apply elem_of_cons in IHin as [E'|IHin]; [rewrite E'; left|by do 2 right].
    + intros y' Hy'. rewrite !elem_of_cons in Hy'.
      destruct Hy' as [E|[E|Hy']].
      * specialize (IHle y'). rewrite E in *. etrans; [apply Z.le_min_r|].
        apply IHle. left.
      * rewrite E. apply Z.le_min_l.
      * etrans; [apply Z.le_min_r|]. apply IHle. by right.
Qed.

Lemma foldr_max_spec (y : Z) (ys : list Z) :
  foldr Z.max y ys ∈ y :: ys ∧ ∀ y', y' ∈ y :: ys → y' ≤ foldr Z.max y ys.
Proof.
  induction ys as [|z zs [IHin IHle]]; simpl.
  - split; [left|]. intros y' Hy'. apply list_elem_of_singleton in Hy'. lia.
  - split.
    + destruct (Z.max_spec z (foldr Z.max y zs)) as [[_ E]|[_ E]]; rewrite E.
      * apply elem_of_cons in IHin as [E'|IHin]; [rewrite E'; left|by do 2 right].
      * right; left.
    + intros y' Hy'. rewrite !elem_of_cons in Hy'.
      destruct Hy' as [E|[E|Hy']].
      * rewrite E in *. etrans; [|apply Z.le_max_r]. apply IHle. left.
      * rewrite E. apply Z.le_max_l.
      * etrans; [|apply Z.le_max_r]. apply IHle. by right.
Qed.

Lemma py_min_spec (l : list Z) :
  l ≠ [] → ∃ lo, py_min l = Ok lo ∧ lo ∈ l ∧ ∀ y, y ∈ l → lo ≤ y.
Proof.
  destruct l as [|y ys]; [done|]. intros _. exists (foldr Z.min y ys).
  split; [done|]. apply foldr_min_spec.
Qed.

Lemma py_max_spec (l : list Z) :
  l ≠ [] → ∃ hi, py_max l = Ok hi ∧ hi ∈ l ∧ ∀ y, y ∈ l → y ≤ hi.
Proof.
  destruct l as [|y ys]; [done|]. intros _. exists (foldr Z.max y ys).
  split; [done|]. apply foldr_max_spec.
Qed.

Lemma div_step (y k : Z) :
  0 < k → y / k = (y - 1) / k + (if y mod k =? 0 then 1 else 0).
Proof.
  intros Hk. destruct (Z.eqb_spec (y mod k) 0) as [E|E].
  - pose proof (Z.div_mod y k ltac:(lia)) as Hy. rewrite E in Hy.
    symmetry. apply (Z.div_unique_pos y k (y / k) 0) in Hy as Hq; [|lia].
    assert (y - 1 = k * (y / k - 1) + (k - 1)) as Hpred by lia.
    apply (Z.div_unique_pos (y - 1) k (y / k - 1) (k - 1)) in Hpred; [|lia]. lia.
  - pose proof (Z.div_mod y k ltac:(lia)) as Hy.
    pose proof (Z.mod_pos_bound y k Hk) as Hb.
    assert (y - 1 = k * (y / k) + (y mod k - 1)) as Hpred by lia.
    apply (Z.div_unique_pos (y - 1) k (y / k) (y mod k - 1)) in Hpred; [|lia]. lia.
Qed.

Lemma mod_4_of_100 (y : Z) : y mod 100 = 0 → y mod 4 = 0.
Proof. intros H. Z.div_mod_to_equations. lia. Qed.

Lemma mod_100_of_400 (y : Z) : y mod 400 = 0 → y mod 100 = 0.
Proof. intros H. Z.div_mod_to_equations. lia. Qed.

(** A year has 365 or 366 days. *)
Lemma days_before_year_succ (y : Z) :
  days_before_year (y + 1) = days_before_year y + (if is_leap y then 366 else 365).
Proof.
  unfold days_before_year, is_leap.
  replace (y + 1 - 1) with y by lia. cbv zeta.
  rewrite (div_step y 4), (div_step y 100), (div_step y 400) by lia.
  pose proof (mod_4_of_100 y). pose proof (mod_100_of_400 y).
  destruct (Z.eqb_spec (y mod 4) 0), (Z.eqb_spec (y mod 100) 0),
    (Z.eqb_spec (y mod 400) 0); simpl; lia.
Qed.

Lemma days_before_year_add (a : Z) (n : nat) :
  days_before_year a + 365 * Z.of_nat n ≤ days_before_year (a + Z.of_nat n).
Proof.
  induction n as [|n IH].
  - replace (a + Z.of_nat 0) with a by lia. lia.
  - replace (a + Z.of_nat (S n)) with (a + Z.of_nat n + 1) by lia.
    rewrite days_before_year_succ. destruct (is_leap _); lia.
Qed.

Lemma days_before_year_mono (a b : Z) :
  a ≤ b → days_before_year a ≤ days_before_year b.
Proof.
  intros Hab. pose proof (days_before_year_add a (Z.to_nat (b - a))) as H.
  rewrite Z2Nat.id in H by lia. replace (a + (b - a)) with b in H by lia. lia.
Qed.

Lemma Timestamp_jan1 (y : Z) : Timestamp y 1 1 = days_before_year y + 1.
Proof. unfold Timestamp. by rewrite Z.add_0_r. Qed.

(** 31 December is the last day before the next year. *)
Lemma Timestamp_dec31 (y : Z) : Timestamp y 12 31 = days_before_year (y + 1).
Proof.
  rewrite days_before_year_succ. unfold Timestamp.
  unfold days_before_month. change (seqZ 1 (12 - 1)) with [1;2;3;4;5;6;7;8;9;10;11].
  unfold days_in_month. simpl. destruct (is_leap y); lia.
Qed.

(** The calendar runs from 1 January to 31 December. *)
Lemma Timestamp_span (lo hi : Z) :
  lo ≤ hi → Timestamp lo 1 1 + 364 ≤ Timestamp hi 12 31.
Proof.
  intros Hle. rewrite Timestamp_jan1, Timestamp_dec31.
  pose proof (days_before_year_mono lo hi Hle).
  rewrite (days_before_year_succ hi). destruct (is_leap hi); lia.
Qed.

End calendar_facts.

(** ** The year of a date *)

Section year_facts.

Lemma days_before_year_closed (a b c d : Z) :
  0 ≤ b ≤ 3 → 0 ≤ c ≤ 24 → 0 ≤ d ≤ 3 →
  days_before_year (400 * a + 100 * b + 4 * c + d + 1)
  = 146097 * a + 36524 * b + 1461 * c + 365 * d.
Proof.
  intros. unfold days_before_year.
  replace (400 * a + 100 * b + 4 * c + d + 1 - 1) with (400 * a + 100 * b + 4 * c + d) by lia.
  cbv zeta.
  assert ((400 * a + 100 * b + 4 * c + d) / 4 = 100 * a + 25 * b + c) as ->.
  { symmetry. apply (Z.div_unique_pos _ 4 _ d); lia. }
  assert ((400 * a + 100 * b + 4 * c + d) / 100 = 4 * a + b) as ->.
  { symmetry. apply (Z.div_unique_pos _ 100 _ (4 * c + d)); lia. }
  assert ((400 * a + 100 * b + 4 * c + d) / 400 = a) as ->.
  { symmetry. apply (Z.div_unique_pos _ 400 _ (100 * b + 4 * c + d)); lia. }
  lia.
Qed.

(** [year] names the year a day lies in: the day comes after the last day
    of the year before and not after the last day of the year itself. *)
Lemma year_spec (n : Z) :
  days_before_year (year n) < n ≤ days_before_year (year n + 1).
Proof.
  unfold year.
  set (n0 := n - 1).
  pose proof (Z.div_mod n0 146097 ltac:(lia)) as E400.
  pose proof (Z.mod_pos_bound n0 146097 ltac:(lia)) as B400.
  set (n400 := n0 / 146097) in *. set (r400 := n0 mod 146097) in *.
  pose proof (Z.div_mod r400 36524 ltac:(lia)) as E100.
  pose proof (Z.mod_pos_bound r400 36524 ltac:(lia)) as B100.
  set (n100 := r400 / 36524) in *. set (r100 := r400 mod 36524) in *.
  pose proof (Z.div_mod r100 1461 ltac:(lia)) as E4.
  pose proof (Z.mod_pos_bound r100 1461 ltac:(lia)) as B4.
  set (n4 := r100 / 1461) in *. set (r4 := r100 mod 1461) in *.
  pose proof (Z.div_mod r4 365 ltac:(lia)) as E1.
  pose proof (Z.mod_pos_bound r4 365 ltac:(lia)) as B1.
  set (n1 := r4 / 365) in *. set (r1 := r4 mod 365) in *.
  cbv zeta.
  assert (0 ≤ n100 ≤ 4) as R100 by lia.
  assert (0 ≤ n4 ≤ 24) as R4 by lia.
  assert (0 ≤ n1 ≤ 4) as R1 by lia.
  destruct (Z.eqb_spec n1 4) as [K1|K1];
    [|destruct (Z.eqb_spec n100 4) as [K100|K100]]; cbn [orb].
  - (* 31 December of a leap year, the last day of a four-year cycle *)
    assert (n100 ≤ 3 ∧ n4 ≤ 23) as [? ?] by lia.
    replace (n400 * 400 + 1 + n100 * 100 + n4 * 4 + n1 - 1 + 1)
      with (400 * n400 + 100 * n100 + 4 * (n4 + 1) + 0 + 1) by lia.
    replace (n400 * 400 + 1 + n100 * 100 + n4 * 4 + n1 - 1)
      with (400 * n400 + 100 * n100 + 4 * n4 + 3 + 1) by lia.
    rewrite (days_before_year_closed n400 n100 n4 3) by lia.
    rewrite (days_before_year_closed n400 n100 (n4 + 1) 0) by lia. lia.
  - (* 31 December of the year that ends a 400-year cycle *)
    replace (n400 * 400 + 1 + n100 * 100 + n4 * 4 + n1 - 1 + 1)
      with (400 * (n400 + 1) + 100 * 0 + 4 * 0 + 0 + 1) by lia.
    replace (n400 * 400 + 1 + n100 * 100 + n4 * 4 + n1 - 1)
      with (400 * n400 + 100 * 3 + 4 * 24 + 3 + 1) by lia.
    rewrite (days_before_year_closed n400 3 24 3) by lia.
    rewrite (days_before_year_closed (n400 + 1) 0 0 0) by lia. lia.
  - assert (n100 ≤ 3 ∧ n1 ≤ 3) as [? ?] by lia.
    replace (n400 * 400 + 1 + n100 * 100 + n4 * 4 + n1)
      with (400 * n400 + 100 * n100 + 4 * n4 + n1 + 1) by lia.
    rewrite (days_before_year_succ (400 * n400 + 100 * n100 + 4 * n4 + n1 + 1)).
    rewrite days_before_year_closed by lia.
    destruct (is_leap _); lia.
Qed.

(** The days of the years [lo] to [hi] lie between 1 January of [lo] and
    31 December of [hi]. *)
Lemma year_between (lo hi n : Z) :
  lo ≤ year n ≤ hi → Timestamp lo 1 1 ≤ n ≤ Timestamp hi 12 31.
Proof.
  intros [Hlo Hhi]. rewrite Timestamp_jan1, Timestamp_dec31.
  pose proof (year_spec n).
  pose proof (days_before_year_mono lo (year n) Hlo).
  pose proof (days_before_year_mono (year n + 1) (hi + 1) ltac:(lia)). lia.
Qed.

Lemma year_Timestamp_jan1 (y : Z) : year (Timestamp y 1 1) = y.
Proof.
  pose proof (year_spec (Timestamp y 1 1)) as H. rewrite Timestamp_jan1 in *.
  destruct (Z.lt_total (year (days_before_year y + 1)) y) as [Hlt|[->|Hgt]]; [|done|].
  - pose proof (days_before_year_mono (year (days_before_year y + 1) + 1) y ltac:(lia)). lia.
  - pose proof (days_before_year_mono (y + 1) (year (days_before_year y + 1)) ltac:(lia)).
    pose proof (days_before_year_succ y). destruct (is_leap y); lia.
Qed.

End year_facts.

(** C7 - Calendar Builder.  For a non-empty list of requested years (years
    that pandas can hold as timestamps, 1678 to 2261), line 168 yields the
    days from 1 January of the smallest year through 31 December of the
    largest, both included, each day one more than the day before; when the
    years are 2018 and 2019 there are 730 of them. *)
Theorem calendar_contiguous (years : list Z) :
  years ≠ [] →
  Forall (λ y, 1678 ≤ y ≤ 2261) years →
  ∃ lo hi cal,
    calendar years = Ok cal
    ∧ lo ∈ years ∧ (∀ y, y ∈ years → lo ≤ y)
    ∧ hi ∈ years ∧ (∀ y, y ∈ years → y ≤ hi)
    ∧ head cal = Some (Timestamp lo 1 1)
    ∧ last cal = Some (Timestamp hi 12 31)
    ∧ (∀ d, d ∈ cal ↔ Timestamp lo 1 1 ≤ d ≤ Timestamp hi 12 31)
    ∧ (∀ i d d', cal !! i = Some d → cal !! S i = Some d' → d' = d + 1)
    ∧ (lo = 2018 → hi = 2019 → length cal = 730%nat).
Proof.
  intros Hne _.
  destruct (py_min_spec years Hne) as (lo & Hlo & Hlo_in & Hlo_le).
  destruct (py_max_spec years Hne) as (hi & Hhi & Hhi_in & Hhi_le).
  pose proof (Timestamp_span lo hi (Hlo_le hi Hhi_in)) as Hspan.
  exists lo, hi, (date_range (Timestamp lo 1 1) (Timestamp hi 12 31)).
  unfold calendar. rewrite Hlo, Hhi. simpl. unfold date_range.
  split_and!; try done.
  - rewrite head_lookup, lookup_seqZ_lt by lia. f_equal. lia.
  - rewrite last_lookup, length_seqZ, lookup_seqZ_lt by lia. f_equal. lia.
  - intros d. rewrite elem_of_seqZ. lia.
  - intros i d d' [-> ?]%lookup_seqZ [-> ?]%lookup_seqZ. lia.
  - intros -> ->. by rewrite length_seqZ.
Qed.

(** The years 2018 and 2019. *)
Lemma calendar_contiguous_witness :
  ∃ lo hi cal,
    calendar [2018; 2019] = Ok cal
    ∧ lo ∈ [2018; 2019] ∧ (∀ y, y ∈ [2018; 2019] → lo ≤ y)
    ∧ hi ∈ [2018; 2019] ∧ (∀ y, y ∈ [2018; 2019] → y ≤ hi)
    ∧ head cal = Some (Timestamp lo 1 1)
    ∧ last cal = Some (Timestamp hi 12 31)
    ∧ (∀ d, d ∈ cal ↔ Timestamp lo 1 1 ≤ d ≤ Timestamp hi 12 31)
    ∧ (∀ i d d', cal !! i = Some d → cal !! S i = Some d' → d' = d + 1)
    ∧ (lo = 2018 → hi = 2019 → length cal = 730%nat).
Proof.
  apply (calendar_contiguous [2018; 2019]); [done|].
  repeat constructor; lia.
Defined.

(** ** The damped step of get_MODIS_data *)

Section smoothing_facts.
Import Modis.

Lemma length_shift {A} (col : list (option A)) : length (shift col) = length col.
Proof. unfold shift. rewrite length_take. simpl. lia. Qed.

Lemma lookup_shift_0 {A} (col : list (option A)) :
  col ≠ [] → shift col !! 0%nat = Some None.
Proof. destruct col; [done|]. done. Qed.

Lemma lookup_shift_S {A} (col : list (option A)) (i : nat) :
  (S i < length col)%nat → shift col !! S i = col !! i.
Proof. intros Hi. unfold shift. by rewrite lookup_take_lt. Qed.

Lemma length_CALC_shifted (MODIS : list ModisRow) :
  length (CALC_shifted MODIS) = length MODIS.
Proof.
  unfold CALC_shifted.
  rewrite !length_zip_with, length_shift, !length_fmap. lia.
Qed.

(** Row [i+1] of line 160 reads the raw LAI of row [i]. *)
Lemma lookup_CALC_shifted (MODIS : list ModisRow) (i : nat) (prev cur : ModisRow) :
  MODIS !! i = Some prev → MODIS !! S i = Some cur →
  CALC_shifted MODIS !! S i
  = Some (fadd (LAI prev)
            (fdiv (fsub (LAI cur) (LAI prev)) (of_int (Confidence cur + 1)))).
Proof.
  intros Hprev Hcur. unfold CALC_shifted.
  assert (S i < length (LAI <$> MODIS))%nat as Hlt.
  { rewrite length_fmap. by eapply lookup_lt_Some. }
  rewrite !lookup_zip_with, lookup_shift_S, !list_lookup_fmap, Hprev, Hcur by done.
  done.
Qed.

End smoothing_facts.

(** C1 (as the code has it) - the damped step.  On a non-empty sample table
    the column CALC of lines 160-161 is defined, has one cell per sample,
    starts with the first raw LAI, and every later cell is computed from the
    raw LAI of the sample before it:
    CALC[i+1] = LAI[i] + (LAI[i+1] - LAI[i]) / (Confidence[i+1] + 1).
    No earlier value of CALC enters. *)
Theorem CALC_from_raw_previous (MODIS : list ModisRow) :
  MODIS ≠ [] →
  ∃ calc,
    Modis.CALC MODIS = Ok calc
    ∧ length calc = length MODIS
    ∧ calc !! 0%nat = LAI <$> MODIS !! 0%nat
    ∧ ∀ i prev cur,
        MODIS !! i = Some prev → MODIS !! S i = Some cur →
        calc !! S i
        = Some (fadd (LAI prev)
                  (fdiv (fsub (LAI cur) (LAI prev)) (of_int (Confidence cur + 1)))).
Proof.
  intros Hne. destruct MODIS as [|r0 rest] eqn:E; [done|]. rewrite <- E.
  exists (<[0%nat := LAI r0]> (Modis.CALC_shifted MODIS)).
  split_and!.
  - unfold Modis.CALC. by rewrite E.
  - by rewrite length_insert, length_CALC_shifted.
  - rewrite list_lookup_insert_eq; [by rewrite E|].
    rewrite length_CALC_shifted, E. simpl. lia.
  - intros i prev cur Hprev Hcur.
    rewrite list_lookup_insert_ne by done. by apply lookup_CALC_shifted.
Qed.

Lemma CALC_from_raw_previous_witness :
  ∃ calc,
    Modis.CALC three_samples = Ok calc
    ∧ length calc = length three_samples
    ∧ calc !! 0%nat = LAI <$> three_samples !! 0%nat
    ∧ ∀ i prev cur,
        three_samples !! i = Some prev → three_samples !! S i = Some cur →
        calc !! S i
        = Some (fadd (LAI prev)
                  (fdiv (fsub (LAI cur) (LAI prev)) (of_int (Confidence cur + 1)))).
Proof. apply (CALC_from_raw_previous three_samples). discriminate. Defined.

(** C1 (as the spec has it) fails: with samples 1, 2, 3 and confidence 0, 1, 1
    the third cell of CALC is 5/2, while the recursion on the smoothed value,
    smoothed[1] + (LAI[2] - smoothed[1]) / (Confidence[2] + 1), gives 9/4. *)
Lemma CALC_not_recursive :
  ∃ calc,
    Modis.CALC three_samples = Ok calc
    ∧ value <$> calc = [Some 1%Q; Some (3 # 2)%Q; Some (5 # 2)%Q]
    ∧ value <$> Modis.smoothed_spec three_samples
      = [Some 1%Q; Some (3 # 2)%Q; Some (9 # 4)%Q]
    ∧ calc !! 2%nat ≠ Modis.smoothed_spec three_samples !! 2%nat.
Proof.
  eexists. split; [reflexivity|]. split; [reflexivity|]. split; [reflexivity|].
  intros H. apply (f_equal (option_map value)) in H. vm_compute in H. discriminate.
Qed.

(** ** The padding of get_MODIS_data *)

Section padding_facts.
Import Modis.

Lemma astype_int_Ok (col : list (option Z)) (l : list Z) :
  astype_int col = Ok l → col = Some <$> l.
Proof.
  unfold astype_int. destruct (mapM _ col) as [l'|] eqn:E; [|done].
  intros [= ->]. apply mapM_Some_1 in E.
  induction E as [|x y col l E _ IH]; [done|]. csimpl. by rewrite E, IH.
Qed.

Lemma length_reindex {A} index (col : list (option A)) idx :
  length (reindex index col idx) = length idx.
Proof. unfold reindex. by rewrite length_fmap. Qed.

Lemma length_ffill_from {A} (last : option A) col :
  length (ffill_from last col) = length col.
Proof.
  revert last. induction col as [|[x|] col IH]; intros last; simpl; by rewrite ?IH.
Qed.

Lemma length_bfill {A} (col : list (option A)) : length (bfill col) = length col.
Proof. induction col as [|[x|] col IH]; simpl; by rewrite ?IH. Qed.

(** Nothing stands above the first row: [ffill] leaves it as it is. *)
Lemma head_ffill {A} (col : list (option A)) : head (ffill col) = head col.
Proof. by destruct col as [|[x|] col]. Qed.

(** Nothing stands below the last row: [bfill] leaves it as it is. *)
Lemma last_bfill {A} (col : list (option A)) : last (bfill col) = last col.
Proof.
  induction col as [|c col IH]; [done|].
  destruct col as [|c' col].
  - by destruct c.
  - change (bfill (c :: c' :: col))
      with (match c with
            | Some x => Some x :: bfill (c' :: col)
            | None => default None (head (bfill (c' :: col))) :: bfill (c' :: col)
            end).
    assert (∃ b bs, bfill (c' :: col) = b :: bs) as (b & bs & E).
    { pose proof (length_bfill (c' :: col)) as Hl.
      destruct (bfill (c' :: col)); [done|eauto]. }
    rewrite E in IH |- *. by destruct c.
Qed.

(** A label found in the index is the date of a sample. *)
Lemma get_loc_Some (MODIS : list ModisRow) (d : Z) (i : nat) :
  get_loc (Date <$> MODIS) d = Some i →
  ∃ r, MODIS !! i = Some r ∧ Date r = d.
Proof.
  unfold get_loc. destruct (list_find _ _) as [[j x]|] eqn:E; [|done].
  intros [= ->]. apply list_find_Some in E as (Hi & -> & _).
  apply list_lookup_fmap_Some in Hi as (r & Hr & ->). eauto.
Qed.

(** What a returning [pad] has gone through. *)
Lemma pad_Ok (MODIS : list ModisRow) calc date0 (idx : list Z) out :
  pad MODIS calc date0 idx = Ok out →
  let index := Date <$> MODIS in
  let Date2 := bfill (reindex index (Some <$> index) idx) in
  ∃ ahead width v LAI_pred,
    NoDup index
    ∧ days_between Date2 (Some <$> idx) = Some <$> ahead
    ∧ days_between Date2 (ffill (reindex index date0 idx)) = Some <$> width
    ∧ reindex index (LAI <$> MODIS) idx !! 0%nat = Some v
    ∧ length LAI_pred = length idx
    ∧ out = zip idx (<[0%nat := v]> LAI_pred).
Proof.
  unfold pad. destruct (decide (NoDup (Date <$> MODIS))) as [Hnd|]; [|done].
  destruct (astype_int (days_between _ (Some <$> idx))) as [ahead|] eqn:Ha; [|done].
  cbn [bind].
  destruct (astype_int (days_between _ (ffill _))) as [width|] eqn:Hw; [|done].
  cbn [bind].
  destruct (reindex _ (LAI <$> MODIS) idx !! 0%nat) as [v|] eqn:Hv; [|done].
  cbn [bind set_first]. intros [= <-].
  apply astype_int_Ok in Ha as Ha'. apply astype_int_Ok in Hw as Hw'.
  eexists ahead, width, v, _. split_and!; [done..| |done].
  apply (f_equal length) in Ha', Hw'. unfold days_between in Ha', Hw'.
  rewrite !length_zip_with, !length_fmap, ?length_bfill, ?length_ffill_from,
    ?length_reindex in *.
  unfold ffill in *. rewrite ?length_ffill_from, ?length_reindex in *. lia.
Qed.

Lemma head_days_between (a b : list (option Z)) :
  head (days_between a b)
  = x ← head a; y ← head b; Some (x' ← x; y' ← y; Some (x' - y')).
Proof. by destruct a, b. Qed.

(** A returning reconstruction found a sample on the first day of the
    calendar, and put the raw LAI of that sample into the first row. *)
Lemma reconstruct_Ok_first (MODIS : list ModisRow) (idx : list Z) out (d0 : Z) :
  reconstruct MODIS idx = Ok out → head idx = Some d0 →
  ∃ r, r ∈ MODIS ∧ Date r = d0 ∧ head out = Some (d0, LAI r).
Proof.
  unfold reconstruct. destruct (CALC MODIS) as [calc|]; [|done].
  destruct (Date0 MODIS) as [date0|]; [|done]. cbn [bind].
  intros (ahead & width & v & LAI_pred & _ & _ & Hw & Hv & Hlen & ->)%pad_Ok Hd0.
  destruct idx as [|d idx']; [done|]. injection Hd0 as ->.
  apply (f_equal head) in Hw. rewrite head_days_between, head_ffill in Hw.
  destruct (bfill _) as [|b bs] eqn:Eb.
  { apply (f_equal length) in Eb. by rewrite length_bfill, length_reindex in Eb. }
  unfold reindex in Hw, Hv. csimpl in Hw. csimpl in Hv.
  destruct (get_loc (Date <$> MODIS) d0) as [i|] eqn:Hi.
  - apply get_loc_Some in Hi as (r & Hr & Hdate).
    exists r. split; [by eapply list_elem_of_lookup_2|]. split; [done|].
    simpl in Hv. rewrite list_lookup_fmap, Hr in Hv. simpl in Hv.
    injection Hv as <-.
    destruct LAI_pred; [done|]. done.
  - exfalso. simpl in Hw. destruct width; [done|]. by destruct b.
Qed.

(** A returning reconstruction found a sample on the last day of the
    calendar. *)
Lemma reconstruct_Ok_last (MODIS : list ModisRow) (idx : list Z) out (dn : Z) :
  reconstruct MODIS idx = Ok out → last idx = Some dn →
  dn ∈ Date <$> MODIS.
Proof.
  unfold reconstruct. destruct (CALC MODIS) as [calc|]; [|done].
  destruct (Date0 MODIS) as [date0|]; [|done]. cbn [bind].
  intros (ahead & width & v & LAI_pred & _ & Ha & _ & _ & _ & _)%pad_Ok Hdn.
  set (Date2 := bfill _) in Ha.
  assert (length Date2 = length idx) as HlenD.
  { unfold Date2. by rewrite length_bfill, length_reindex. }
  assert (length ahead = length idx) as HlenA.
  { apply (f_equal length) in Ha. unfold days_between in Ha.
    rewrite length_zip_with, !length_fmap, HlenD in Ha. lia. }
  assert (pred (length idx) < length idx)%nat as Hlt.
  { destruct idx; [done|]. simpl. lia. }
  assert (is_Some (last Date2 ≫= λ c, c)) as [x Hx].
  { rewrite last_lookup, HlenD.
    rewrite last_lookup in Hdn.
    apply (f_equal (λ l, l !! pred (length idx))) in Ha.
    unfold days_between in Ha.
    rewrite lookup_zip_with, !list_lookup_fmap, Hdn in Ha.
    destruct (lookup_lt_is_Some_2 ahead (pred (length idx))) as [a Ea]; [lia|].
    rewrite Ea in Ha.
    destruct (Date2 !! pred (length idx)) as [[x|]|]; simpl in *; [eauto|done..]. }
  unfold Date2 in Hx. rewrite last_bfill in Hx. unfold reindex in Hx.
  rewrite fmap_last, Hdn in Hx. simpl in Hx.
  destruct (get_loc (Date <$> MODIS) dn) as [i|] eqn:Hi; [|done].
  apply get_loc_Some in Hi as (r & Hr & <-).
  apply list_elem_of_fmap_2. by eapply list_elem_of_lookup_2.
Qed.

End padding_facts.

(** ** get_MODIS_data as a whole *)

Section method_facts.
Import Modis.

Lemma by_Date_total : Total by_Date.
Proof. intros r1 r2. unfold by_Date. lia. Qed.

Lemma by_Date_trans : Transitive by_Date.
Proof. intros r1 r2 r3. unfold by_Date. lia. Qed.

(** [select] keeps the rows of the site and of the requested years. *)
Lemma elem_of_select (csv : list ModisRow) (site : string) (years : list Z) (r : ModisRow) :
  r ∈ select csv site years ↔ r ∈ csv ∧ SITE_ID r = site ∧ year (Date r) ∈ years.
Proof.
  unfold select. rewrite merge_sort_Permutation, !list_elem_of_filter. tauto.
Qed.

(** [select] leaves the rows in date order. *)
Lemma select_sorted (csv : list ModisRow) (site : string) (years : list Z) :
  StronglySorted by_Date (select csv site years).
Proof.
  apply (@StronglySorted_merge_sort _ by_Date _ by_Date_trans by_Date_total).
Qed.

Lemma StronglySorted_last {A} (R : relation A) (l : list A) (x : A) :
  StronglySorted R l → last l = Some x → ∀ y, y ∈ l → y = x ∨ R y x.
Proof.
  induction 1 as [|z l Hl IH Hz]; [done|]. intros Hlast y Hy.
  destruct l as [|z' l'].
  - injection Hlast as <-. apply list_elem_of_singleton in Hy. by left.
  - change (last (z :: z' :: l')) with (last (z' :: l')) in Hlast.
    apply elem_of_cons in Hy as [->|Hy]; [|by apply IH].
    right. rewrite Forall_forall in Hz. apply Hz. by apply last_Some_elem_of.
Qed.

Lemma NoDup_fmap_eq {A B} (f : A → B) (l : list A) (x y : A) :
  NoDup (f <$> l) → x ∈ l → y ∈ l → f x = f y → x = y.
Proof.
  intros Hnd [i Hi]%list_elem_of_lookup [j Hj]%list_elem_of_lookup Hf.
  assert (i = j) as ->; [|congruence].
  apply (NoDup_lookup _ i j (f x) Hnd); rewrite list_lookup_fmap.
  - by rewrite Hi.
  - by rewrite Hj, Hf.
Qed.

(** Line 168, when it returns. *)
Lemma calendar_Ok (years : list Z) (idx : list Z) :
  calendar years = Ok idx →
  ∃ lo hi,
    py_min years = Ok lo ∧ py_max years = Ok hi
    ∧ (∀ y, y ∈ years → lo ≤ y ≤ hi)
    ∧ idx = date_range (Timestamp lo 1 1) (Timestamp hi 12 31)
    ∧ head idx = Some (Timestamp lo 1 1)
    ∧ last idx = Some (Timestamp hi 12 31).
Proof.
  intros Hcal. destruct years as [|y ys] eqn:Ey; [done|]. rewrite <- Ey in *.
  assert (years ≠ []) as Hne by (by rewrite Ey).
  destruct (py_min_spec years Hne) as (lo & Hlo & Hlo_in & Hlo_le).
  destruct (py_max_spec years Hne) as (hi & Hhi & Hhi_in & Hhi_le).
  pose proof (Timestamp_span lo hi (Hlo_le hi Hhi_in)) as Hspan.
  unfold calendar in Hcal. rewrite Hlo, Hhi in Hcal. injection Hcal as <-.
  exists lo, hi. unfold date_range. split_and!; [done|done| |done| |].
  - intros y' Hy'. split; auto.
  - rewrite head_lookup, lookup_seqZ_lt by lia. f_equal. lia.
  - rewrite last_lookup, length_seqZ, lookup_seqZ_lt by lia. f_equal. lia.
Qed.

(** The method is the reconstruction of the selected samples on the
    calendar of the requested years. *)
Lemma get_MODIS_data_reconstruct (csv : list ModisRow) (site : string) (years idx : list Z) :
  calendar years = Ok idx →
  get_MODIS_data csv site years = reconstruct (select csv site years) idx.
Proof.
  intros Hcal. unfold get_MODIS_data, reconstruct.
  destruct (CALC _) as [calc|]; [|done]. destruct (Date0 _) as [date0|]; [|done].
  cbn [bind]. by rewrite Hcal.
Qed.

Lemma reconstruct_Ok_index (MODIS : list ModisRow) (idx : list Z) out :
  reconstruct MODIS idx = Ok out → out.*1 = idx ∧ NoDup (Date <$> MODIS).
Proof.
  unfold reconstruct. destruct (CALC MODIS) as [calc|]; [|done].
  destruct (Date0 MODIS) as [date0|]; [|done]. cbn [bind].
  intros (ahead & width & v & LAI_pred & Hnd & _ & _ & _ & Hlen & ->)%pad_Ok.
  split; [|done]. apply fst_zip. rewrite length_insert. lia.
Qed.

(** When [get_MODIS_data] returns: the first selected sample is dated
    1 January of the first year, the last one 31 December of the last year,
    the series has one row per day of the calendar, and its first row holds
    the raw LAI of the first sample. *)
Theorem get_MODIS_data_Ok (csv : list ModisRow) (site : string) (years : list Z) out :
  get_MODIS_data csv site years = Ok out →
  ∃ lo hi first final,
    py_min years = Ok lo ∧ py_max years = Ok hi
    ∧ head (select csv site years) = Some first
    ∧ Date first = Timestamp lo 1 1
    ∧ last (select csv site years) = Some final
    ∧ Date final = Timestamp hi 12 31
    ∧ out.*1 = date_range (Timestamp lo 1 1) (Timestamp hi 12 31)
    ∧ head out = Some (Timestamp lo 1 1, LAI first).
Proof.
  intros Hget.
  destruct (calendar years) as [idx|e] eqn:Hcal.
  2: { unfold get_MODIS_data in Hget. rewrite Hcal in Hget.
       destruct (CALC _); [|done]. by destruct (Date0 _). }
  rewrite (get_MODIS_data_reconstruct _ _ _ idx Hcal) in Hget.
  destruct (calendar_Ok years idx Hcal) as (lo & hi & Hlo & Hhi & Hyears & Hidx & Hhead & Hlast).
  set (MODIS := select csv site years) in *.
  destruct (reconstruct_Ok_first MODIS idx out _ Hget Hhead) as (r & Hr & Hdate & Hout).
  pose proof (reconstruct_Ok_last MODIS idx out _ Hget Hlast) as Hend.
  apply list_elem_of_fmap in Hend as (r' & Hdate' & Hr').
  destruct (reconstruct_Ok_index MODIS idx out Hget) as [Hix Hnd].
  assert (∀ x, x ∈ MODIS → Timestamp lo 1 1 ≤ Date x ≤ Timestamp hi 12 31) as Hin.
  { intros x (_ & _ & Hy)%elem_of_select. apply year_between. by apply Hyears. }
  pose proof (select_sorted csv site years) as Hsorted. fold MODIS in Hsorted.
  destruct MODIS as [|first rest] eqn:EM; [by apply elem_of_nil in Hr|].
  rewrite <- EM in *.
  assert (is_Some (last MODIS)) as [final Hfinal].
  { rewrite last_lookup, EM. simpl. apply lookup_lt_is_Some. simpl. lia. }
  assert (first ∈ MODIS) as Hfirst by (rewrite EM; left).
  assert (final ∈ MODIS) as Hfinal_in by (by apply last_Some_elem_of).
  assert (first = r) as ->.
  { apply (NoDup_fmap_eq Date MODIS); [done..|].
    rewrite EM in Hsorted, Hr. apply StronglySorted_cons in Hsorted as [Hle _].
    apply elem_of_cons in Hr as [->|Hr]; [done|].
    rewrite Forall_forall in Hle. specialize (Hle r Hr). unfold by_Date in Hle.
    specialize (Hin first Hfirst). lia. }
  assert (Date final = Timestamp hi 12 31) as Hfinal_date.
  { destruct (StronglySorted_last by_Date MODIS final Hsorted Hfinal r' Hr') as [->|Hle];
      [done|]. unfold by_Date in Hle. specialize (Hin final Hfinal_in). lia. }
  exists lo, hi, r, final. rewrite EM at 1.
  split_and!; try done. by rewrite Hix.
Qed.

End method_facts.

(** A calendar whose first or last day carries no sample makes the
    reconstruction raise. *)
Lemma reconstruct_raises_outside (MODIS : list ModisRow) (idx : list Z) (d : Z) :
  head idx = Some d ∨ last idx = Some d →
  d ∉ Date <$> MODIS →
  ∃ e, Modis.reconstruct MODIS idx = Raise e.
Proof.
  intros Hd Hnot. destruct (Modis.reconstruct MODIS idx) as [out|e] eqn:E; [|eauto].
  exfalso. apply Hnot. destruct Hd as [Hd|Hd].
  - destruct (reconstruct_Ok_first MODIS idx out d E Hd) as (r & Hr & <- & _).
    by apply list_elem_of_fmap_2.
  - by eapply reconstruct_Ok_last.
Qed.

(** C2 (what the code does) - a calendar that starts before the first
    sample.  The samples of 2018 start on 5 January, the calendar of 2018 on
    1 January: [get_MODIS_data] raises at the integer cast of line 181,
    because [Date0] is NaT on the first four days, and returns no series.
    The value that line 182 would have written into the first row, the LAI
    column of the padded table at 1 January, is NaN. *)
Theorem first_sample_after_calendar_start :
  Modis.select late_start "CHIMN" [2018] = late_start
  ∧ (head <$> calendar [2018]) = Ok (Some (Timestamp 2018 1 1))
  ∧ Timestamp 2018 1 1 < Timestamp 2018 1 5
  ∧ Modis.get_MODIS_data late_start "CHIMN" [2018] = Raise IntCastingNaNError
  ∧ reindex (Date <$> late_start) (LAI <$> late_start) [Timestamp 2018 1 1]
    = [None].
Proof. by vm_compute. Qed.

(** C3 (what the code does) - a calendar that runs past the last sample.
    The samples of 2018 end on 30 December, the calendar on 31 December:
    [get_MODIS_data] raises at the integer cast of line 180, because [Date2]
    is NaT on the last day, and returns no series. *)
Theorem last_sample_before_calendar_end :
  Modis.select early_end "CHIMN" [2018] = early_end
  ∧ (last <$> calendar [2018]) = Ok (Some (Timestamp 2018 12 31))
  ∧ Timestamp 2018 12 30 < Timestamp 2018 12 31
  ∧ Modis.get_MODIS_data early_end "CHIMN" [2018] = Raise IntCastingNaNError.
Proof. by vm_compute. Qed.

(** ** The atmosphere table *)

Section frame_facts.

Lemma snd_imap {A} (g : nat → A → nat * A) (l : list A) :
  (∀ i x, (g i x).2 = x) → (imap g l).*2 = l.
Proof.
  revert g. induction l as [|x l IH]; intros g Hg; [done|].
  rewrite imap_cons. csimpl. rewrite Hg. f_equal. apply IH. intros i y. apply Hg.
Qed.

Lemma filter_imap_absent (g : nat → Z → nat * Z) (k : Z) (l : list Z) :
  (∀ i x, (g i x).2 = x) → k ∉ l → filter (λ p, p.2 = k) (imap g l) = [].
Proof.
  revert g. induction l as [|x l IH]; intros g Hg Hk; [done|].
  rewrite imap_cons, filter_cons_False.
  - apply IH; [intros i y; apply Hg|]. by apply not_elem_of_cons in Hk as [_ ?].
  - rewrite Hg. intros ->. apply Hk. left.
Qed.

Lemma filter_imap_NoDup (g : nat → Z → nat * Z) (k : Z) (l : list Z) :
  (∀ i x, (g i x).2 = x) → NoDup l →
  (length (filter (λ p, p.2 = k) (imap g l)) ≤ 1)%nat.
Proof.
  revert g. induction l as [|x l IH]; intros g Hg Hnd; [simpl; lia|].
  apply NoDup_cons in Hnd as [Hx Hnd]. rewrite imap_cons, filter_cons.
  destruct (decide ((g 0%nat x).2 = k)) as [E|E].
  - rewrite Hg in E. subst x.
    rewrite filter_imap_absent; [done| |done]. intros i y. apply Hg.
  - etrans; [apply IH; [intros i y; apply Hg|done]|done].
Qed.

(** A label occurs at most once in an index without duplicates. *)
Lemma positions_NoDup (k : Z) (labels : list Z) :
  NoDup labels → (length (positions k labels) ≤ 1)%nat.
Proof.
  intros Hnd. unfold positions. rewrite length_fmap.
  by apply filter_imap_NoDup.
Qed.

(** A left join on a right index without duplicates keeps the left rows,
    each once and in order. *)
Lemma indexer_fst (left right : list Z) :
  NoDup right → (indexer left right).*1 = left.
Proof.
  intros Hnd. unfold indexer.
  match goal with |- (flat_map ?f _).*1 = _ => set (h := f) end.
  transitivity ((imap pair left).*2); [|by apply snd_imap].
  generalize (imap pair left). intros ps.
  induction ps as [|p ps IH]; [done|].
  change (flat_map h (p :: ps)) with (h p ++ flat_map h ps).
  rewrite fmap_app, IH. unfold h at 1.
  pose proof (positions_NoDup p.2 right Hnd) as Hlen.
  destruct (positions p.2 right) as [|j [|j' js]]; simpl in *; [done|done|lia].
Qed.

(** The chain computes on the column names; its row numbers are those
    of the index [tAtm] that [reset_index] turned back into a column. *)
Ltac derive_shape :=
  lazymatch goal with
  | |- _ = Ok {| index_name := ?n;
                 index := seqZ 0 (Z.of_nat (length ?ix));
                 columns := ?cs |} =>
      transitivity
        (Ok {| index_name := n;
               index := seqZ 0 (Z.of_nat (length (seqZ 0 (Z.of_nat (length ix)))));
               columns := cs |});
      [reflexivity | by rewrite length_seqZ, Nat2Z.id]
  end.

Lemma derive_API (ixn : option string) (ix : list Z) (c1 c2 c3 : column) :
  Atmo.derive "pe" "precip"
    {| index_name := ixn; index := ix;
       columns := [("pe", c1); ("precip", c2); ("LAI_pred", c3)] |}
  = Ok {| index_name := None;
          index := seqZ 0 (Z.of_nat (length ix));
          columns :=
            [("tAtm", IntCol ((λ m, m + 1) <$> seqZ 0 (Z.of_nat (length ix))));
             ("Prec", mul_scalar c2 0.1);
             ("rSoil", mul_scalar (col_mul c1 (col_exp (scalar_mul (-0.463) c3))) 0.1);
             ("rRoot",
              mul_scalar
                (col_sub c1 (col_mul c1 (col_exp (scalar_mul (-0.463) c3)))) 0.1);
             ("hCritA", IntCol (replicate (length ix) 100000))] |}.
Proof. derive_shape. Qed.

Lemma derive_files (ixn : option string) (ix : list Z) (c1 c2 c3 c4 : column) :
  Atmo.derive "PE" "PRECIP"
    {| index_name := ixn; index := ix;
       columns := [("PE", c1); ("PRECIP", c2); ("prec_count", c3); ("LAI_pred", c4)] |}
  = Ok {| index_name := None;
          index := seqZ 0 (Z.of_nat (length ix));
          columns :=
            [("tAtm", IntCol ((λ m, m + 1) <$> seqZ 0 (Z.of_nat (length ix))));
             ("Prec", mul_scalar c2 0.1);
             ("prec_count", mul_scalar c3 0.1);
             ("rSoil", mul_scalar (col_mul c1 (col_exp (scalar_mul (-0.463) c4))) 0.1);
             ("rRoot",
              mul_scalar
                (col_sub c1 (col_mul c1 (col_exp (scalar_mul (-0.463) c4)))) 0.1);
             ("hCritA", IntCol (replicate (length ix) 100000))] |}.
Proof. derive_shape. Qed.

End frame_facts.

Section driving_facts.
Import Atmo.

(** The joined table of the API pathway has the three columns of
    [table_API]; its rows are the pairs of the two left joins. *)
Lemma driving_API_shape (pe precip MODIS_data : list (Z * float)) :
  ∃ c1 c2 c3,
    driving_API pe precip MODIS_data
    = Ok (table_API (indexer (indexer pe.*1 precip.*1).*1 MODIS_data.*1).*1 c1 c2 c3).
Proof. by eexists _, _, _. Qed.

Lemma driving_files_shape (PE_data : list (Z * float))
    (PREC_data : list (Z * (float * Z))) (MODIS_data : list (Z * float)) :
  ∃ c1 c2 c3 c4,
    driving_files PE_data PREC_data MODIS_data
    = Ok (table_files
            (indexer (indexer PE_data.*1 PREC_data.*1).*1 MODIS_data.*1).*1 c1 c2 c3 c4).
Proof. by eexists _, _, _, _. Qed.

Lemma lookup_succ_seqZ (n : nat) (k : nat) :
  (k < n)%nat → ((λ m, m + 1) <$> seqZ 0 (Z.of_nat n)) !! k = Some (Z.of_nat k + 1).
Proof. intros Hk. rewrite list_lookup_fmap, lookup_seqZ_lt by lia. done. Qed.

(** Row [k] of the columns that [derive] computes. *)
Lemma derived_cells (pe pr lai : list (option R)) (k : nat) (p r l : R) :
  pe !! k = Some (Some p) → pr !! k = Some (Some r) → lai !! k = Some (Some l) →
  as_float (mul_scalar (FloatCol pr) 0.1) !! k = Some (Some (r * 0.1)%R)
  ∧ as_float
      (mul_scalar
         (col_mul (FloatCol pe) (col_exp (scalar_mul (-0.463) (FloatCol lai)))) 0.1)
      !! k
    = Some (Some (p * exp (-0.463 * l) * 0.1)%R)
  ∧ as_float
      (mul_scalar
         (col_sub (FloatCol pe)
            (col_mul (FloatCol pe) (col_exp (scalar_mul (-0.463) (FloatCol lai))))) 0.1)
      !! k
    = Some (Some ((p - p * exp (-0.463 * l)) * 0.1)%R).
Proof.
  intros Hp Hr Hl. cbn [as_float mul_scalar col_mul col_sub col_exp scalar_mul].
  repeat (rewrite list_lookup_fmap || rewrite lookup_zip_with).
  rewrite Hp, Hr, Hl. done.
Qed.

End driving_facts.

(** Reads every [getitem] of a table with explicit column names. *)
Ltac read_columns :=
  repeat match goal with
    | |- context [getitem ?df ?c] =>
        let H := fresh in
        eassert (getitem df c = Ok _) as H by reflexivity;
        rewrite H; clear H
    end;
  cbn [as_float mul_scalar col_mul col_sub col_exp scalar_mul].

(** C4 - Atmosphere Writer.  In a driving table of either pathway, a row
    whose PE, precipitation and LAI_pred are defined is written as
    rSoil = PE * exp(-0.463 * LAI_pred) * 0.1,
    rRoot = (PE - PE * exp(-0.463 * LAI_pred)) * 0.1, Prec = precipitation * 0.1,
    hCritA = 100000 (added after the scaling), tAtm = row number counted
    from 1.  For PE = 5, precipitation = 10, LAI_pred = 0 the record is
    rSoil = 0.5, rRoot = 0, Prec = 1, hCritA = 100000. *)
Theorem atmosphere_record (ix : list Z) (pe pr lai : list (option R)) (count : column)
    (k : nat) (p r l : R) :
  (k < length ix)%nat →
  pe !! k = Some (Some p) → pr !! k = Some (Some r) → lai !! k = Some (Some l) →
  (∃ out, Atmo.derive "pe" "precip" (Atmo.table_API ix pe pr lai) = Ok out
          ∧ Atmo.record_at out k p r l)
  ∧ (∃ out, Atmo.derive "PE" "PRECIP" (Atmo.table_files ix pe pr count lai) = Ok out
            ∧ Atmo.record_at out k p r l)
  ∧ (p = 5%R → r = 10%R → l = 0%R →
     (p * exp (-0.463 * l) * 0.1 = 0.5
      ∧ (p - p * exp (-0.463 * l)) * 0.1 = 0
      ∧ r * 0.1 = 1)%R).
Proof.
  intros Hk Hp Hr Hl.
  destruct (derived_cells pe pr lai k p r l Hp Hr Hl) as (HPrec & HrSoil & HrRoot).
  cbn [as_float mul_scalar col_mul col_sub col_exp scalar_mul] in HPrec, HrSoil, HrRoot.
  split_and!.
  - eexists. split; [apply derive_API|].
    unfold Atmo.record_at, cell_at. read_columns.
    rewrite (lookup_succ_seqZ _ _ Hk), HPrec, HrSoil, HrRoot.
    rewrite lookup_replicate_2 by done. done.
  - eexists. split; [apply derive_files|].
    unfold Atmo.record_at, cell_at. read_columns.
    rewrite (lookup_succ_seqZ _ _ Hk), HPrec, HrSoil, HrRoot.
    rewrite lookup_replicate_2 by done. done.
  - intros -> -> ->. rewrite Rmult_0_r, exp_0. lra.
Qed.

(** One row of each input on 1 January 2018: PE 5, precipitation 10 (from 48
    readings), LAI_pred 0. *)
Lemma atmosphere_record_witness :
  (∃ out, Atmo.derive "pe" "precip"
            (Atmo.table_API [Timestamp 2018 1 1] [Some 5%R] [Some 10%R] [Some 0%R])
          = Ok out
          ∧ Atmo.record_at out 0 5 10 0)
  ∧ (∃ out, Atmo.derive "PE" "PRECIP"
              (Atmo.table_files [Timestamp 2018 1 1] [Some 5%R] [Some 10%R]
                 (IntCol [48]) [Some 0%R])
            = Ok out
            ∧ Atmo.record_at out 0 5 10 0)
  ∧ (5%R = 5%R → 10%R = 10%R → 0%R = 0%R →
     (5 * exp (-0.463 * 0) * 0.1 = 0.5
      ∧ (5 - 5 * exp (-0.463 * 0)) * 0.1 = 0
      ∧ 10 * 0.1 = 1)%R).
Proof.
  apply (atmosphere_record [Timestamp 2018 1 1] [Some 5%R] [Some 10%R] [Some 0%R]
           (IntCol [48]) 0 5 10 0); [simpl; lia|reflexivity..].
Defined.

(** C5 (as the code has it) - the columns of the two written tables.  The
    API table has the columns tAtm, Prec, rSoil, rRoot, hCritA; the archival
    table has one more, prec_count, which line 219 does not drop and line
    220 multiplies by 0.1 with the rest.  ([to_csv] writes the index, the row
    numbers from 0, in front of the columns of both.) *)
Theorem atmosphere_columns (pe precip MODIS_data PE_data : list (Z * float))
    (PREC_data : list (Z * (float * Z))) :
  (∃ out, Atmo.atmo_API pe precip MODIS_data = Ok out
          ∧ names out = ["tAtm"; "Prec"; "rSoil"; "rRoot"; "hCritA"])
  ∧ (∃ out, Atmo.atmo_files PE_data PREC_data MODIS_data = Ok out
            ∧ names out = ["tAtm"; "Prec"; "prec_count"; "rSoil"; "rRoot"; "hCritA"]).
Proof.
  split.
  - destruct (driving_API_shape pe precip MODIS_data) as (c1 & c2 & c3 & Hx).
    unfold Atmo.atmo_API. rewrite Hx. eexists. split; [apply derive_API|done].
  - destruct (driving_files_shape PE_data PREC_data MODIS_data) as (c1 & c2 & c3 & c4 & Hx).
    unfold Atmo.atmo_files. rewrite Hx. eexists. split; [apply derive_files|done].
Qed.

(** ** The precipitation aggregation *)

Section precipitation_facts.
Import Archive.

Lemma groupby_date_keys (sh : list SH.Row) :
  (groupby_date sh).*1
  = merge_sort Z.le (remove_dups ((λ r, dt_date (SH.DATE_TIME r)) <$> sh)).
Proof.
  unfold groupby_date. rewrite <- list_fmap_compose.
  rewrite <- (list_fmap_id (merge_sort _ _)) at 2. by apply list_fmap_ext.
Qed.

(** The date of an instant is the day whose 86400 seconds hold it. *)
Lemma dt_date_spec (t d : Z) :
  dt_date t = d ↔ d * 86400 ≤ t < (d + 1) * 86400.
Proof.
  unfold dt_date. split.
  - intros <-. pose proof (Z.div_mod t 86400 ltac:(lia)).
    pose proof (Z.mod_pos_bound t 86400 ltac:(lia)). lia.
  - intros [Hlo Hhi]. symmetry. apply (Z.div_unique t 86400 d (t - d * 86400)); lia.
Qed.

(** The rows of one group are the readings within the day. *)
Lemma group_day (sh : list SH.Row) (d : Z) :
  group sh d = filter (λ r, d * 86400 ≤ SH.DATE_TIME r < (d + 1) * 86400) sh.
Proof. unfold group. apply list_filter_iff. intros r. apply dt_date_spec. Qed.

Lemma length_omap_is_Some {A B} (f : A → option B) (l : list A) :
  length (omap f l) = length (filter (λ x, is_Some (f x)) l).
Proof.
  induction l as [|x l IH]; [done|]. csimpl. rewrite filter_cons.
  destruct (decide (is_Some (f x))) as [[y E]|Hn].
  - rewrite E. simpl. by rewrite IH.
  - destruct (f x) as [y|] eqn:E; [by destruct Hn; eauto|]. done.
Qed.

End precipitation_facts.

(** C6 - Precipitation Aggregator.  A reading made at second t (counted
    from midnight of day 0) belongs to the date d with
    d * 86400 <= t < (d + 1) * 86400.  For every sub-daily table (sentinel
    already read as an empty cell) the grouping of lines 145-146 has exactly
    one row per date on which the table has a reading, in increasing date
    order, and none for any other date; the row's sum adds the non-empty
    readings of that date and its count is their number.  Line 148 then keeps
    the rows of the requested years.  Readings 2.0, none, 1.0 on one day give
    sum 3 and count 2; readings of 3 January and 1 January, in any order,
    give a row for 1 January, then a row for 3 January, and none for
    2 January. *)
Theorem precipitation_daily_rows (sh : list SH.Row) :
  let out := Archive.groupby_date sh in
  NoDup out.*1
  ∧ Sorted Z.le out.*1
  ∧ (∀ d, d ∈ out.*1
          ↔ ∃ r, r ∈ sh ∧ d * 86400 ≤ SH.DATE_TIME r < (d + 1) * 86400)
  ∧ (∀ d s c, (d, (s, c)) ∈ out →
       let readings :=
         filter (λ r, d * 86400 ≤ SH.DATE_TIME r < (d + 1) * 86400) sh in
       s = Some (foldl Qcplus 0%Qc (omap SH.PRECIP readings))
       ∧ c = Z.of_nat (length (filter (λ r, is_Some (SH.PRECIP r)) readings)))
  ∧ (∀ years row,
       row ∈ Archive.get_PREC_data sh years ↔ row ∈ out ∧ year row.1 ∈ years)
  ∧ Archive.groupby_date one_day = [(Timestamp 2018 1 1, (of_int 3, 2))]
  ∧ Archive.groupby_date two_days
    = [(Timestamp 2018 1 1, (of_int 3, 2)); (Timestamp 2018 1 3, (of_int 4, 1))].
Proof.
  intros out. unfold out. rewrite groupby_date_keys. split_and!.
  - rewrite merge_sort_Permutation. apply NoDup_remove_dups.
  - apply (Sorted_merge_sort Z.le).
  - intros d. rewrite merge_sort_Permutation, elem_of_remove_dups, list_elem_of_fmap.
    split.
    + intros (r & -> & Hr). exists r. split; [done|]. by apply dt_date_spec.
    + intros (r & Hr & Hd). exists r. split; [|done]. symmetry.
      by apply dt_date_spec.
  - intros d s c Hin. apply list_elem_of_fmap in Hin as (k & [= -> -> ->] & _).
    cbv zeta. rewrite <- group_day.
    split; [done|]. unfold Archive.agg_count.
    by rewrite length_omap_is_Some.
  - intros years row. unfold Archive.get_PREC_data, Archive.isin_years.
    rewrite list_elem_of_filter. tauto.
  - vm_compute. repeat f_equal; by apply Qc_is_canon.
  - vm_compute. repeat f_equal; by apply Qc_is_canon.
Qed.

(** ** The rows of the written tables *)

Section pipeline_series_facts.

(** The precipitation table of a run has one row per date. *)
Lemma get_PREC_data_NoDup (sh : list SH.Row) (years : list Z) :
  NoDup (Archive.get_PREC_data sh years).*1.
Proof.
  unfold Archive.get_PREC_data, Archive.isin_years.
  eapply sublist_NoDup; [|apply fmap_sublist, sublist_filter].
  rewrite groupby_date_keys, merge_sort_Permutation. apply NoDup_remove_dups.
Qed.

(** The reconstructed LAI of a run has one row per date. *)
Lemma get_MODIS_data_NoDup (csv : list ModisRow) (site : string) (years : list Z) out :
  Modis.get_MODIS_data csv site years = Ok out → NoDup out.*1.
Proof.
  intros (lo & hi & first & final & _ & _ & _ & _ & _ & _ & -> & _)%get_MODIS_data_Ok.
  apply NoDup_seqZ.
Qed.

(** The two API series carry the same dates. *)
Lemma get_cosmos_api_single_index (api_data : Api.frame) (c1 c2 : string) s1 s2 :
  Api.get_cosmos_api_single api_data c1 = Ok s1 →
  Api.get_cosmos_api_single api_data c2 = Ok s2 →
  s1.*1 = s2.*1.
Proof.
  unfold Api.get_cosmos_api_single.
  destruct (list_find _ _) as [[i ?]|]; [|done].
  destruct (list_find _ _) as [[j ?]|]; [|done].
  intros [= <-] [= <-]. rewrite <- !list_fmap_compose. by apply list_fmap_ext.
Qed.

End pipeline_series_facts.

(** C10 - the rows follow the PE series.  When no date occurs twice in the
    precipitation table or in the reconstructed LAI, the joined table of each
    pathway carries exactly the dates of its PE series, in the order of that
    series, so a date of the precipitation or LAI data that PE lacks has no
    row; the written table has as many rows as the PE series, whatever the
    length of the calendar. *)
Theorem atmosphere_rows_follow_PE (pe precip MODIS_data PE_data : list (Z * float))
    (PREC_data : list (Z * (float * Z))) :
  NoDup precip.*1 → NoDup PREC_data.*1 → NoDup MODIS_data.*1 →
  (∃ x out,
      Atmo.driving_API pe precip MODIS_data = Ok x ∧ index x = pe.*1
      ∧ Atmo.atmo_API pe precip MODIS_data = Ok out
      ∧ index out = seqZ 0 (Z.of_nat (length pe)))
  ∧ (∃ x out,
        Atmo.driving_files PE_data PREC_data MODIS_data = Ok x ∧ index x = PE_data.*1
        ∧ Atmo.atmo_files PE_data PREC_data MODIS_data = Ok out
        ∧ index out = seqZ 0 (Z.of_nat (length PE_data))).
Proof.
  intros Hprecip HPREC HMODIS. split.
  - destruct (driving_API_shape pe precip MODIS_data) as (c1 & c2 & c3 & Hx).
    unfold Atmo.atmo_API. rewrite Hx. eexists _, _.
    split; [done|]. split; [|split; [apply derive_API|]].
    + cbn [index Atmo.table_API]. by rewrite !indexer_fst.
    + cbn [index]. by rewrite !indexer_fst, length_fmap.
  - destruct (driving_files_shape PE_data PREC_data MODIS_data) as (c1 & c2 & c3 & c4 & Hx).
    unfold Atmo.atmo_files. rewrite Hx. eexists _, _.
    split; [done|]. split; [|split; [apply derive_files|]].
    + cbn [index Atmo.table_files]. by rewrite !indexer_fst.
    + cbn [index]. by rewrite !indexer_fst, length_fmap.
Qed.

(** PE on 1 and 2 January 2018; precipitation and LAI on 1 and 3 January. *)
Lemma atmosphere_rows_follow_PE_witness :
  let pe := [(736695, of_int 5); (736696, of_int 6)] in
  let precip := [(736695, of_int 10); (736697, of_int 11)] in
  let MODIS_data := [(736695, of_int 0); (736697, of_int 0)] in
  let PREC_data := [(736695, (of_int 10, 48)); (736697, (of_int 11, 48))] in
  (∃ x out,
      Atmo.driving_API pe precip MODIS_data = Ok x ∧ index x = pe.*1
      ∧ Atmo.atmo_API pe precip MODIS_data = Ok out
      ∧ index out = seqZ 0 (Z.of_nat (length pe)))
  ∧ (∃ x out,
        Atmo.driving_files pe PREC_data MODIS_data = Ok x ∧ index x = pe.*1
        ∧ Atmo.atmo_files pe PREC_data MODIS_data = Ok out
        ∧ index out = seqZ 0 (Z.of_nat (length pe))).
Proof.
  apply (atmosphere_rows_follow_PE
           [(736695, of_int 5); (736696, of_int 6)]
           [(736695, of_int 10); (736697, of_int 11)]
           [(736695, of_int 0); (736697, of_int 0)]
           [(736695, of_int 5); (736696, of_int 6)]
           [(736695, (of_int 10, 48)); (736697, (of_int 11, 48))]);
    compute_done.
Defined.

(** ** The run *)

Section run_facts.
Import Run.

Lemma reads_only_ret {A} paths (a : A) : reads_only paths (ret a).
Proof. by split. Qed.

Lemma reads_only_lift {A} paths (r : result A) : reads_only paths (lift r).
Proof. by split. Qed.

Lemma reads_only_read_csv paths (p : string) :
  p ∈ paths → reads_only paths (read_csv p).
Proof.
  intros Hp. split.
  - intros w. unfold read_csv. by destruct (files w !! p).
  - intros w1 w2 Hagree. unfold read_csv. rewrite (Hagree p Hp).
    by destruct (files w2 !! p).
Qed.

Lemma reads_only_bind {A B} paths (m : M A) (k : A → M B) :
  reads_only paths m → (∀ a, reads_only paths (k a)) → reads_only paths (mbind m k).
Proof.
  intros [Hm1 Hm2] Hk. split.
  - intros w. unfold mbind. specialize (Hm1 w).
    destruct (m w) as [[a|e] w']; simpl in *; subst; [apply Hk|done].
  - intros w1 w2 Hagree. unfold mbind.
    pose proof (Hm1 w1) as E1. pose proof (Hm1 w2) as E2.
    pose proof (Hm2 w1 w2 Hagree) as E.
    destruct (m w1) as [r1 w1'], (m w2) as [r2 w2']. simpl in *. subst.
    destruct r2 as [a|e]; [by apply Hk|done].
Qed.

Lemma reads_only_read_daily site : reads_only (inputs site) (read_daily site).
Proof.
  apply reads_only_bind; [apply reads_only_read_csv; set_solver|].
  intros []; first [apply reads_only_ret | apply reads_only_lift].
Qed.

Lemma reads_only_get_MODIS_data site years :
  reads_only (inputs site) (get_MODIS_data site years).
Proof.
  apply reads_only_bind; [apply reads_only_read_csv; set_solver|].
  intros []; apply reads_only_lift.
Qed.

(** Lines 30-38 write nothing and depend on the three input files only. *)
Lemma reads_only_attributes (E : env) years site :
  reads_only (inputs site) (attributes E years site).
Proof.
  unfold attributes, get_cosmos_data, get_PE_data, get_PREC_data, get_LAI_data.
  repeat first
    [ apply reads_only_ret | apply reads_only_lift | apply reads_only_read_daily
    | apply reads_only_get_MODIS_data
    | apply reads_only_read_csv; set_solver
    | apply reads_only_bind; [|intros ?]
    | match goal with |- reads_only _ (match ?f with _ => _ end) => destruct f end ].
Qed.

(** [write_atmo_data], step by step, when every opened write goes through. *)
Lemma write_atmo_data_unfold (self : CosmosData) (w : world) :
  write_atmo_data reliable self w
  = match API_table self with
    | Raise e => (Raise e, w)
    | Ok t1 =>
        if decide ("data/atmosphere_API.csv" ∈ readonly w) then (Raise PermissionError, w)
        else
          match files_table self with
          | Raise e => (Raise e, put "data/atmosphere_API.csv" t1 w)
          | Ok t2 =>
              if decide ("data/atmosphere.csv" ∈ readonly w)
              then (Raise PermissionError, put "data/atmosphere_API.csv" t1 w)
              else (Ok t2, put "data/atmosphere.csv" t2
                             (put "data/atmosphere_API.csv" t1 w))
          end
    end.
Proof.
  unfold write_atmo_data, API_table, files_table, mbind, lift, to_csv, reliable,
    ret, bind.
  destruct (Api.get_cosmos_api_single (api_data self) "pe") as [pe|e];
    cbv beta iota; [|done].
  destruct (Api.get_cosmos_api_single (api_data self) "precip") as [precip|e];
    cbv beta iota; [|done].
  destruct (Atmo.atmo_API pe precip (MODIS_data self)) as [t1|e];
    cbv beta iota; [|done].
  destruct (decide ("data/atmosphere_API.csv" ∈ readonly w)); cbv beta iota; [done|].
  destruct (Atmo.atmo_files _ _ _) as [t2|e]; cbv beta iota; [|done].
  change (readonly (put "data/atmosphere_API.csv" t1 w)) with (readonly w).
  by destruct (decide ("data/atmosphere.csv" ∈ readonly w)).
Qed.

(** One [to_csv]: it returns with the table at the path, raises at the open
    with nothing changed, or raises during the write with the beginning of
    the table at the path. *)
Lemma to_csv_cases (D : disk) (path : string) (df : DataFrame) (w : world) :
  (to_csv D path df w = (Ok (), put path df w) ∧ path ∉ readonly w)
  ∨ (to_csv D path df w = (Raise PermissionError, w) ∧ path ∈ readonly w)
  ∨ (∃ k, to_csv D path df w = (Raise OSError, cut path df k w)
          ∧ (path ∉ readonly w) ∧ D path = Some k ∧ (k < lines df)%nat).
Proof.
  unfold to_csv.
  destruct (decide (path ∈ readonly w)); [by right; left|].
  destruct (D path) as [k|]; [|by left].
  destruct (decide (k < lines df)%nat); [|by left].
  right; right. by exists k.
Qed.

(** A [write_atmo_data] that raises: where it stopped, and what it left. *)
Lemma write_atmo_data_Raise (D : disk) (self : CosmosData) (w w' : world) (e : exn) :
  write_atmo_data D self w = (Raise e, w') →
  w' = w
  ∨ (∃ t1,
       API_table self = Ok t1
       ∧ ("data/atmosphere_API.csv" ∉ readonly w)
       ∧ ((∃ k, D "data/atmosphere_API.csv" = Some k ∧ (k < lines t1)%nat
                ∧ e = OSError
                ∧ w' = cut "data/atmosphere_API.csv" t1 k w)
          ∨ w' = put "data/atmosphere_API.csv" t1 w
          ∨ (∃ t2 k, files_table self = Ok t2
                ∧ D "data/atmosphere.csv" = Some k ∧ (k < lines t2)%nat
                ∧ e = OSError
                ∧ w' = cut "data/atmosphere.csv" t2 k
                         (put "data/atmosphere_API.csv" t1 w)))).
Proof.
  unfold write_atmo_data, API_table, files_table, mbind, lift, ret, bind.
  destruct (Api.get_cosmos_api_single (api_data self) "pe") as [pe|e0];
    cbv beta iota; [|intros [= _ <-]; by left].
  destruct (Api.get_cosmos_api_single (api_data self) "precip") as [precip|e0];
    cbv beta iota; [|intros [= _ <-]; by left].
  destruct (Atmo.atmo_API pe precip (MODIS_data self)) as [t1|e0];
    cbv beta iota; [|intros [= _ <-]; by left].
  destruct (to_csv_cases D "data/atmosphere_API.csv" t1 w)
    as [[-> Hw]|[[-> _]|(k & -> & Hw & HD & Hk)]]; cbv beta iota.
  - destruct (Atmo.atmo_files _ _ _) as [t2|e0]; cbv beta iota.
    + destruct (to_csv_cases D "data/atmosphere.csv" t2
                  (put "data/atmosphere_API.csv" t1 w))
        as [[-> _]|[[-> _]|(k & -> & _ & HD & Hk)]]; cbv beta iota; [done|..].
      * intros [= _ <-]. right. exists t1. split_and!; [done..|]. right. by left.
      * intros [= <- <-]. right. exists t1. split_and!; [done..|]. right. right.
        by exists t2, k.
    + intros [= _ <-]. right. exists t1. split_and!; [done..|]. right. by left.
  - intros [= _ <-]. by left.
  - intros [= <- <-]. right. exists t1. split_and!; [done..|]. left. by exists k.
Qed.

End run_facts.

(** C8 (as the code has it) - what a failed run leaves.  The two tables are
    written in place at their final paths, the API one first; a write can
    fail when the path is opened, or break off after any number of lines.
    A run that raises has changed nothing; or has stopped in the first
    write and left the beginning of the new API table at
    data/atmosphere_API.csv; or has put the whole API table there and
    stopped before data/atmosphere.csv was opened; or has put the whole API
    table there and left the beginning of the second table at
    data/atmosphere.csv.  Nothing else is changed. *)
Theorem failed_run_effect (D : Run.disk) (E : Run.env) (years : list Z)
    (site : string) (w w' : Run.world) (e : exn) :
  Run.run D E years site w = (Raise e, w') →
  w' = w
  ∨ (∃ self t1,
       (Run.attributes E years site w).1 = Ok self
       ∧ Run.API_table self = Ok t1
       ∧ ("data/atmosphere_API.csv" ∉ Run.readonly w)
       ∧ ((∃ k, D "data/atmosphere_API.csv" = Some k ∧ (k < Run.lines t1)%nat
                ∧ e = OSError
                ∧ w' = Run.cut "data/atmosphere_API.csv" t1 k w)
          ∨ w' = Run.put "data/atmosphere_API.csv" t1 w
          ∨ (∃ t2 k, Run.files_table self = Ok t2
                ∧ D "data/atmosphere.csv" = Some k ∧ (k < Run.lines t2)%nat
                ∧ e = OSError
                ∧ w' = Run.cut "data/atmosphere.csv" t2 k
                         (Run.put "data/atmosphere_API.csv" t1 w)))).
Proof.
  unfold Run.run, Run.mbind.
  destruct (reads_only_attributes E years site) as [Hsame _].
  specialize (Hsame w).
  destruct (Run.attributes E years site w) as [[self|e0] w0];
    simpl in Hsame; subst w0; [|intros [= _ <-]; by left].
  intros [->|(t1 & Ht1 & Hw & Hcases)]%write_atmo_data_Raise; [by left|].
  right. by exists self, t1.
Qed.

(** The write to data/atmosphere.csv breaks off after the header line. *)
Lemma failed_run_effect_witness :
  let w' := (Run.run breaks_2018 env_2018 [2018] "CHIMN" world_2018).2 in
  w' = world_2018
  ∨ (∃ self t1,
       (Run.attributes env_2018 [2018] "CHIMN" world_2018).1 = Ok self
       ∧ Run.API_table self = Ok t1
       ∧ ("data/atmosphere_API.csv" ∉ Run.readonly world_2018)
       ∧ ((∃ k, breaks_2018 "data/atmosphere_API.csv" = Some k
                ∧ (k < Run.lines t1)%nat
                ∧ OSError = OSError
                ∧ w' = Run.cut "data/atmosphere_API.csv" t1 k world_2018)
          ∨ w' = Run.put "data/atmosphere_API.csv" t1 world_2018
          ∨ (∃ t2 k, Run.files_table self = Ok t2
                ∧ breaks_2018 "data/atmosphere.csv" = Some k
                ∧ (k < Run.lines t2)%nat
                ∧ OSError = OSError
                ∧ w' = Run.cut "data/atmosphere.csv" t2 k
                         (Run.put "data/atmosphere_API.csv" t1 world_2018)))).
Proof.
  apply (failed_run_effect breaks_2018 env_2018 [2018] "CHIMN" world_2018 _ OSError).
  vm_compute. reflexivity.
Defined.

(** C8 (as the spec has it) fails, in each of its parts.  When
    data/atmosphere.csv cannot be opened for writing the run raises, and
    data/atmosphere_API.csv, which did not exist before, is there
    afterwards.  When the write to data/atmosphere.csv breaks off after the
    header line the run raises, and the path, which did not exist before,
    holds that one line of a table of two.  When the files of an earlier run are
    there and the write to data/atmosphere_API.csv breaks off, the run
    raises and the earlier file is replaced by the beginning of the new
    one. *)
Lemma failed_run_leaves_a_file :
  ((Run.init env_2018 [2018] "CHIMN" blocked_2018).1 = Raise PermissionError
   ∧ Run.files blocked_2018 !! "data/atmosphere_API.csv" = None
   ∧ is_Some (Run.files (Run.init env_2018 [2018] "CHIMN" blocked_2018).2
                !! "data/atmosphere_API.csv"))
  ∧ ((Run.run breaks_2018 env_2018 [2018] "CHIMN" world_2018).1 = Raise OSError
     ∧ Run.files world_2018 !! "data/atmosphere.csv" = None
     ∧ Run.files (Run.run breaks_2018 env_2018 [2018] "CHIMN" world_2018).2
         !! "data/atmosphere.csv" = Some (Run.Truncated table_2018 1)
     ∧ Run.lines table_2018 = 2%nat)
  ∧ ((Run.run breaks_first_2018 env_2018 [2018] "CHIMN" after_2018).1
       = Raise OSError
     ∧ Run.files after_2018 !! "data/atmosphere_API.csv"
       = Some (Run.AtmoCsv api_table_2018)
     ∧ Run.files (Run.run breaks_first_2018 env_2018 [2018] "CHIMN" after_2018).2
         !! "data/atmosphere_API.csv" = Some (Run.Truncated api_table_2018 0)).
Proof. vm_compute. split_and!; try reflexivity; try lia; eauto. Qed.

(** C9 - determinism.  Two runs in the same environment (the API answers
    the same), for the same years and site, on file systems that agree on
    the three input files and on what may be written, end alike: both raise
    the same exception or both return the same table, and after a run that
    returns, each of the two output files is the same in both, whatever
    else the two file systems held. *)
Theorem run_deterministic (E : Run.env) (years : list Z) (site : string)
    (w1 w2 : Run.world) :
  (∀ p, p ∈ Run.inputs site → Run.files w1 !! p = Run.files w2 !! p) →
  Run.readonly w1 = Run.readonly w2 →
  (Run.init E years site w1).1 = (Run.init E years site w2).1
  ∧ ∀ atmo,
      (Run.init E years site w1).1 = Ok atmo →
      ∀ p, p ∈ Run.outputs →
        Run.files (Run.init E years site w1).2 !! p
        = Run.files (Run.init E years site w2).2 !! p.
Proof.
  intros Hin Hro. unfold Run.init, Run.run, Run.mbind.
  destruct (reads_only_attributes E years site) as [Hsame Hdep].
  pose proof (Hsame w1) as Hw1. pose proof (Hsame w2) as Hw2.
  pose proof (Hdep w1 w2 Hin) as Hr.
  destruct (Run.attributes E years site w1) as [r1 w1'],
    (Run.attributes E years site w2) as [r2 w2'].
  simpl in Hr, Hw1, Hw2. subst r1 w1' w2'.
  destruct r2 as [self|e]; [|done].
  rewrite !write_atmo_data_unfold, <- Hro.
  destruct (Run.API_table self) as [t1|e1]; [|done].
  destruct (decide ("data/atmosphere_API.csv" ∈ Run.readonly w1)); [done|].
  destruct (Run.files_table self) as [t2|e2]; [|done].
  destruct (decide ("data/atmosphere.csv" ∈ Run.readonly w1)); [done|].
  split; [done|]. intros atmo _ p Hp. unfold Run.outputs in Hp.
  unfold Run.put. cbn [Run.files fst snd].
  apply elem_of_cons in Hp as [->|Hp].
  - by simplify_map_eq.
  - apply list_elem_of_singleton in Hp as ->. by simplify_map_eq.
Qed.

Lemma run_deterministic_witness :
  (Run.init env_2018 [2018] "CHIMN" world_2018).1
  = (Run.init env_2018 [2018] "CHIMN" used_2018).1
  ∧ ∀ atmo,
      (Run.init env_2018 [2018] "CHIMN" world_2018).1 = Ok atmo →
      ∀ p, p ∈ Run.outputs →
        Run.files (Run.init env_2018 [2018] "CHIMN" world_2018).2 !! p
        = Run.files (Run.init env_2018 [2018] "CHIMN" used_2018).2 !! p.
Proof.
  apply (run_deterministic env_2018 [2018] "CHIMN" world_2018 used_2018);
    [|reflexivity].
  intros p Hp. unfold Run.inputs in Hp.
  repeat (apply elem_of_cons in Hp as [->|Hp]); [vm_compute; reflexivity..|].
  by apply elem_of_nil in Hp.
Defined.

(** * Further properties *)

(** ** Filled columns *)

Section fill_facts.

Lemma ffill_from_cons {A} (last : option A) (c : option A) (col : list (option A)) :
  ffill_from last (c :: col)
  = from_option Some last c :: ffill_from (from_option Some last c) col.
Proof. by destruct c. Qed.

Lemma ffill_from_lookup_0 {A} (last : option A) (col : list (option A)) (c : option A) :
  col !! 0%nat = Some c → ffill_from last col !! 0%nat = Some (from_option Some last c).
Proof. destruct col as [|c' col]; [done|]. intros [= ->]. by rewrite ffill_from_cons. Qed.

(** A cell of a forward-filled column: its own value, or the filled cell
    above it. *)
Lemma ffill_from_lookup_S {A} (last : option A) (col : list (option A)) (j : nat)
    (c : option A) :
  col !! S j = Some c →
  ffill_from last col !! S j
  = Some (from_option Some (mjoin (ffill_from last col !! j)) c).
Proof.
  revert last j. induction col as [|c0 col IH]; intros last j Hc; [done|].
  rewrite ffill_from_cons. simpl in Hc. destruct j as [|j].
  - simpl. by apply ffill_from_lookup_0.
  - simpl. by apply IH.
Qed.

(** A cell of a backward-filled column: its own value, or the filled cell
    below it. *)
Lemma bfill_lookup {A} (col : list (option A)) (j : nat) (c : option A) :
  col !! j = Some c →
  bfill col !! j = Some (from_option Some (mjoin (bfill col !! S j)) c).
Proof.
  revert j. induction col as [|c0 col IH]; intros j Hc; [done|].
  destruct j as [|j].
  - injection Hc as ->. simpl. destruct c as [x|]; [done|].
    simpl. by destruct (bfill col).
  - simpl in Hc. apply IH in Hc. by destruct c0.
Qed.

Lemma ffill_is_Some {A} (col : list (option A)) (j : nat) :
  is_Some (mjoin (head col)) → (j < length col)%nat →
  is_Some (mjoin (ffill col !! j)).
Proof.
  intros Hhead Hj. induction j as [|j IH].
  - destruct col as [|[x|] col]; simpl in *; by try destruct Hhead.
  - destruct (lookup_lt_is_Some_2 col (S j) Hj) as [c Hc].
    unfold ffill in *. rewrite (ffill_from_lookup_S _ _ _ _ Hc).
    destruct c as [x|]; [by eexists|]. simpl. apply IH. lia.
Qed.

Lemma bfill_is_Some {A} (col : list (option A)) (j : nat) :
  is_Some (mjoin (last col)) → (j < length col)%nat →
  is_Some (mjoin (bfill col !! j)).
Proof.
  intros Hlast Hj.
  remember (length col - S j)%nat as n eqn:En. revert j Hj En.
  induction n as [|n IH]; intros j Hj En.
  - destruct (lookup_lt_is_Some_2 col j Hj) as [c Hc].
    rewrite (bfill_lookup _ _ _ Hc).
    rewrite last_lookup in Hlast. replace (pred (length col)) with j in Hlast by lia.
    rewrite Hc in Hlast. simpl in Hlast. destruct Hlast as [x ->]. by eexists.
  - destruct (lookup_lt_is_Some_2 col j Hj) as [c Hc].
    rewrite (bfill_lookup _ _ _ Hc).
    destruct c as [x|]; [by eexists|]. simpl. apply IH; lia.
Qed.

(** Below a value, as far as the cells are empty, [ffill] repeats it. *)
Lemma ffill_span {A} (col : list (option A)) (j1 j : nat) (x : A) :
  col !! j1 = Some (Some x) →
  (∀ k, (j1 < k ≤ j)%nat → col !! k = Some None) →
  (j1 ≤ j)%nat →
  ffill col !! j = Some (Some x).
Proof.
  intros H1 Hgap. induction j as [|j IH]; intros Hle.
  - assert (j1 = 0%nat) as -> by lia. unfold ffill.
    by rewrite (ffill_from_lookup_0 _ _ _ H1).
  - unfold ffill in *. destruct (decide (j1 = S j)) as [->|Hne].
    + by rewrite (ffill_from_lookup_S _ _ _ _ H1).
    + rewrite (ffill_from_lookup_S _ _ _ None) by (apply Hgap; lia).
      rewrite IH; [done| |lia]. intros k Hk. apply Hgap. lia.
Qed.

(** Above a value, as far as the cells are empty, [bfill] repeats it. *)
Lemma bfill_span {A} (col : list (option A)) (j j2 : nat) (x : A) :
  col !! j2 = Some (Some x) →
  (∀ k, (j ≤ k < j2)%nat → col !! k = Some None) →
  (j ≤ j2)%nat →
  bfill col !! j = Some (Some x).
Proof.
  intros H2. remember (j2 - j)%nat as n eqn:En. revert j En.
  induction n as [|n IH]; intros j En Hgap Hle.
  - assert (j = j2) as -> by lia. by rewrite (bfill_lookup _ _ _ H2).
  - rewrite (bfill_lookup _ _ None) by (apply Hgap; lia).
    rewrite (IH (S j)); [done|lia| |lia]. intros k Hk. apply Hgap. lia.
Qed.

Lemma get_loc_lookup (index : list Z) (d : Z) (i : nat) :
  NoDup index → index !! i = Some d → get_loc index d = Some i.
Proof.
  intros Hnd Hi. unfold get_loc.
  destruct (list_find _ index) as [[j y]|] eqn:E; simpl.
  - apply list_find_Some in E as (Hj & -> & _).
    f_equal. by apply (NoDup_lookup index j i d).
  - apply list_find_None in E. rewrite Forall_forall in E.
    destruct (E d); [by eapply list_elem_of_lookup_2|done].
Qed.

Lemma get_loc_None (index : list Z) (d : Z) :
  d ∉ index → get_loc index d = None.
Proof.
  intros Hd. unfold get_loc.
  destruct (list_find _ index) as [[j y]|] eqn:E; [|done].
  apply list_find_Some in E as (Hj & -> & _).
  destruct Hd. by eapply list_elem_of_lookup_2.
Qed.

Lemma lookup_reindex {A} (index : list Z) (col : list (option A)) (idx : list Z)
    (j : nat) (t : Z) :
  idx !! j = Some t →
  reindex index col idx !! j = Some (i ← get_loc index t; mjoin (col !! i)).
Proof. intros Ht. unfold reindex. by rewrite list_lookup_fmap, Ht. Qed.

Lemma astype_int_is_Some (col : list (option Z)) :
  Forall is_Some col → ∃ l, astype_int col = Ok l.
Proof.
  intros Hcol. unfold astype_int.
  destruct (mapM (λ c, c) col) as [l|] eqn:E; [eauto|].
  assert (is_Some (mapM (λ c : option Z, c) col)) as [l E'].
  { apply mapM_is_Some. by apply (Forall_impl _ _ _ Hcol). }
  congruence.
Qed.

Lemma days_between_is_Some (a b : list (option Z)) :
  Forall is_Some a → Forall is_Some b → Forall is_Some (days_between a b).
Proof.
  intros Ha Hb. unfold days_between. apply Forall_lookup. intros i c Hc.
  apply lookup_zip_with_Some in Hc as (x & y & -> & Hx & Hy).
  destruct (Forall_lookup_1 _ _ _ _ Ha Hx) as [x' ->].
  destruct (Forall_lookup_1 _ _ _ _ Hb Hy) as [y' ->]. by eexists.
Qed.

End fill_facts.

(** ** The outcomes of get_MODIS_data *)

Section method_error_facts.
Import Modis.

(** Lines 163-165: every cell of [Date0] is a date, the date of the sample
    before (of the sample itself in the first row). *)
Lemma Date0_lookup (MODIS : list ModisRow) :
  MODIS ≠ [] →
  ∃ date0,
    Date0 MODIS = Ok date0
    ∧ length date0 = length MODIS
    ∧ ∀ i before, (i < length MODIS)%nat → MODIS !! pred i = Some before →
        date0 !! i = Some (Some (Date before)).
Proof.
  intros Hne. destruct MODIS as [|r0 rest] eqn:E; [done|]. rewrite <- E.
  exists (<[0%nat := Some (Date r0)]> (shift (Some <$> (Date <$> MODIS)))).
  split_and!.
  - unfold Date0. by rewrite E.
  - by rewrite length_insert, length_shift, !length_fmap.
  - intros i before Hi Hb. destruct i as [|i].
    + rewrite list_lookup_insert_eq.
      * rewrite E in Hb. simpl in Hb. by injection Hb as ->.
      * rewrite length_shift, !length_fmap. lia.
    + rewrite list_lookup_insert_ne by done.
      rewrite lookup_shift_S by (rewrite !length_fmap; lia).
      simpl in Hb. by rewrite !list_lookup_fmap, Hb.
Qed.

Lemma CALC_Ok (MODIS : list ModisRow) :
  MODIS ≠ [] → ∃ calc, CALC MODIS = Ok calc.
Proof. destruct MODIS; [done|]. intros _. by eexists. Qed.

(** The three ways [pad] raises. *)
Lemma pad_Raise (MODIS : list ModisRow) calc date0 (idx : list Z) (e : exn) :
  pad MODIS calc date0 idx = Raise e →
  (e = ValueError ∧ ¬ NoDup (Date <$> MODIS))
  ∨ (e = IntCastingNaNError ∧ NoDup (Date <$> MODIS))
  ∨ (e = IndexError ∧ idx = []).
Proof.
  unfold pad. destruct (decide (NoDup (Date <$> MODIS))) as [Hnd|Hnd];
    [|intros [= <-]; by left].
  destruct (astype_int (days_between _ (Some <$> idx))) as [ahead|e1] eqn:Ha.
  2: { unfold astype_int in Ha. destruct (mapM _ _); [done|].
       injection Ha as <-. intros [= <-]. right; by left. }
  cbn [bind].
  destruct (astype_int (days_between _ (ffill _))) as [width|e1] eqn:Hw.
  2: { unfold astype_int in Hw. destruct (mapM _ _); [done|].
       injection Hw as <-. intros [= <-]. right; by left. }
  cbn [bind].
  destruct (reindex _ (LAI <$> MODIS) idx !! 0%nat) as [v|] eqn:Hv; [done|].
  cbn [bind set_first]. intros [= <-]. do 2 right. split; [done|].
  destruct idx; [done|]. by rewrite (lookup_reindex _ _ _ _ z) in Hv.
Qed.

(** [pad] returns when no date is repeated and both ends of the calendar
    are sample dates. *)
Lemma pad_returns (MODIS : list ModisRow) calc date0 (idx : list Z) (d1 dn : Z) :
  NoDup (Date <$> MODIS) →
  length date0 = length MODIS → Forall is_Some date0 →
  head idx = Some d1 → last idx = Some dn →
  d1 ∈ Date <$> MODIS → dn ∈ Date <$> MODIS →
  ∃ out, pad MODIS calc date0 idx = Ok out.
Proof.
  intros Hnd Hlen Hd0 Hhead Hlast H1 Hn. unfold pad.
  rewrite decide_True by done.
  assert (Forall is_Some
            (bfill (reindex (Date <$> MODIS) (Some <$> (Date <$> MODIS)) idx)))
    as HDate2.
  { apply Forall_lookup. intros j c Hc.
    assert (j < length (reindex (Date <$> MODIS) (Some <$> (Date <$> MODIS)) idx))%nat
      as Hj.
    { rewrite <- (length_bfill (reindex _ _ _)). by eapply lookup_lt_Some. }
    pose proof (bfill_is_Some
                  (reindex (Date <$> MODIS) (Some <$> (Date <$> MODIS)) idx) j) as Hs.
    rewrite Hc in Hs. apply Hs; [|done].
    unfold reindex. rewrite fmap_last, Hlast. simpl.
    apply list_elem_of_lookup in Hn as [i Hi].
    rewrite (get_loc_lookup _ _ _ Hnd Hi). simpl.
    rewrite list_lookup_fmap, Hi. by eexists. }
  assert (Forall is_Some (ffill (reindex (Date <$> MODIS) date0 idx))) as HDate0.
  { apply Forall_lookup. intros j c Hc.
    assert (j < length (reindex (Date <$> MODIS) date0 idx))%nat as Hj.
    { unfold ffill in Hc. rewrite <- (length_ffill_from None (reindex _ _ _)).
      by eapply lookup_lt_Some. }
    pose proof (ffill_is_Some (reindex (Date <$> MODIS) date0 idx) j) as Hs.
    rewrite Hc in Hs. apply Hs; [|done].
    unfold reindex. destruct idx as [|d idx']; [done|]. injection Hhead as ->. simpl.
    apply list_elem_of_lookup in H1 as [i Hi].
    rewrite (get_loc_lookup _ _ _ Hnd Hi). simpl.
    destruct (lookup_lt_is_Some_2 date0 i) as [c' Hc'].
    { rewrite Hlen. apply lookup_lt_Some in Hi. by rewrite length_fmap in Hi. }
    rewrite Hc'. simpl. by apply (Forall_lookup_1 _ _ _ _ Hd0 Hc'). }
  destruct (astype_int_is_Some
              (days_between
                 (bfill (reindex (Date <$> MODIS) (Some <$> (Date <$> MODIS)) idx))
                 (Some <$> idx))) as [ahead ->].
  { apply days_between_is_Some; [done|]. apply Forall_fmap, Forall_true. by eexists. }
  cbn [bind].
  destruct (astype_int_is_Some
              (days_between
                 (bfill (reindex (Date <$> MODIS) (Some <$> (Date <$> MODIS)) idx))
                 (ffill (reindex (Date <$> MODIS) date0 idx)))) as [width ->].
  { by apply days_between_is_Some. }
  cbn [bind].
  destruct idx as [|d idx']; [done|].
  rewrite (lookup_reindex _ _ _ _ d) by done. cbn [set_first bind]. by eexists.
Qed.

(** The years of a non-empty selection give a calendar. *)
Lemma select_calendar (csv : list ModisRow) (site : string) (years : list Z) :
  select csv site years ≠ [] →
  ∃ lo hi idx,
    py_min years = Ok lo ∧ py_max years = Ok hi ∧ calendar years = Ok idx
    ∧ idx = date_range (Timestamp lo 1 1) (Timestamp hi 12 31)
    ∧ head idx = Some (Timestamp lo 1 1) ∧ last idx = Some (Timestamp hi 12 31).
Proof.
  intros Hne.
  assert (years ≠ []) as Hy.
  { destruct (select csv site years) as [|r rest] eqn:E; [done|].
    assert (r ∈ select csv site years) as Hr by (rewrite E; left).
    apply elem_of_select in Hr as (_ & _ & Hr). intros ->. by apply elem_of_nil in Hr. }
  destruct (py_min_spec years Hy) as (lo & Hlo & _).
  destruct (py_max_spec years Hy) as (hi & Hhi & _).
  assert (calendar years = Ok (date_range (Timestamp lo 1 1) (Timestamp hi 12 31))) as Hcal.
  { unfold calendar. by rewrite Hlo, Hhi. }
  destruct (calendar_Ok _ _ Hcal) as (lo' & hi' & Hlo' & Hhi' & _ & _ & Hhead & Hlast).
  assert (lo' = lo) as -> by congruence. assert (hi' = hi) as -> by congruence.
  by exists lo, hi, (date_range (Timestamp lo 1 1) (Timestamp hi 12 31)).
Qed.

(** The outcome of [get_MODIS_data], case by case. *)
Lemma get_MODIS_data_cases (csv : list ModisRow) (site : string) (years : list Z) :
  let MODIS := select csv site years in
  (MODIS = [] ∧ get_MODIS_data csv site years = Raise KeyError)
  ∨ (MODIS ≠ [] ∧ ¬ NoDup (Date <$> MODIS)
     ∧ get_MODIS_data csv site years = Raise ValueError)
  ∨ (MODIS ≠ [] ∧ NoDup (Date <$> MODIS)
     ∧ ∃ lo hi, py_min years = Ok lo ∧ py_max years = Ok hi
       ∧ ((Timestamp lo 1 1 ∈ Date <$> MODIS ∧ Timestamp hi 12 31 ∈ Date <$> MODIS
           ∧ ∃ out, get_MODIS_data csv site years = Ok out)
          ∨ ((Timestamp lo 1 1 ∉ Date <$> MODIS ∨ Timestamp hi 12 31 ∉ Date <$> MODIS)
             ∧ get_MODIS_data csv site years = Raise IntCastingNaNError))).
Proof.
  intros MODIS.
  destruct (decide (MODIS = [])) as [E|Hne].
  { left. split; [done|]. unfold get_MODIS_data. fold MODIS. by rewrite E. }
  right.
  destruct (select_calendar csv site years Hne)
    as (lo & hi & idx & Hlo & Hhi & Hcal & Hidx & Hhead & Hlast).
  pose proof (get_MODIS_data_reconstruct csv site years idx Hcal) as Hget.
  fold MODIS in Hget.
  destruct (CALC_Ok MODIS Hne) as [calc Hcalc].
  destruct (Date0_lookup MODIS Hne) as (date0 & Hdate0 & Hlen & Hcells).
  assert (reconstruct MODIS idx = pad MODIS calc date0 idx) as Hrec.
  { unfold reconstruct. by rewrite Hcalc, Hdate0. }
  assert (idx ≠ []) as Hidx_ne by (by destruct idx).
  destruct (decide (NoDup (Date <$> MODIS))) as [Hnd|Hnd].
  2: { left. split_and!; [done..|]. rewrite Hget, Hrec. unfold pad.
       by rewrite decide_False. }
  right. split_and!; [done..|]. exists lo, hi. split_and!; [done..|].
  destruct (decide (Timestamp lo 1 1 ∈ Date <$> MODIS)) as [H1|H1];
    [destruct (decide (Timestamp hi 12 31 ∈ Date <$> MODIS)) as [Hn|Hn]|].
  - left. split_and!; [done..|]. rewrite Hget, Hrec.
    apply (pad_returns MODIS calc date0 idx (Timestamp lo 1 1) (Timestamp hi 12 31) Hnd Hlen);
      [|done..].
    apply Forall_lookup. intros i c Hc.
    assert (i < length MODIS)%nat as Hi by (rewrite <- Hlen; by eapply lookup_lt_Some).
    destruct (lookup_lt_is_Some_2 MODIS (pred i)) as [before Hb]; [lia|].
    rewrite (Hcells i before Hi Hb) in Hc. injection Hc as <-. by eexists.
  - right. split; [by right|].
    destruct (reconstruct_raises_outside MODIS idx _ (or_intror Hlast) Hn) as [e He].
    rewrite Hget, He. f_equal. rewrite Hrec in He.
    apply pad_Raise in He as [[_ ?]|[[-> _]|[_ ?]]]; done.
  - right. split; [by left|].
    destruct (reconstruct_raises_outside MODIS idx _ (or_introl Hhead) H1) as [e He].
    rewrite Hget, He. f_equal. rewrite Hrec in He.
    apply pad_Raise in He as [[_ ?]|[[-> _]|[_ ?]]]; done.
Qed.

End method_error_facts.

(** X1 - get_MODIS_data, no sample.  The method raises KeyError exactly when
    the file has no row of the site in a requested year (an unknown site, a
    year without samples, an empty list of years): line 161 reads row 0 of
    an empty selection, before the years are looked at for the calendar. *)
Theorem get_MODIS_data_KeyError (csv : list ModisRow) (site : string) (years : list Z) :
  Modis.get_MODIS_data csv site years = Raise KeyError
  ↔ ∀ r, r ∈ csv → SITE_ID r = site → year (Date r) ∉ years.
Proof.
  assert (Modis.select csv site years = []
          ↔ ∀ r, r ∈ csv → SITE_ID r = site → year (Date r) ∉ years) as <-.
  { split.
    - intros E r Hr Hs Hy.
      assert (r ∈ Modis.select csv site years) as Hin by (by apply elem_of_select).
      rewrite E in Hin. by apply elem_of_nil in Hin.
    - intros Hno. destruct (Modis.select csv site years) as [|r rest] eqn:E; [done|].
      assert (r ∈ Modis.select csv site years) as Hin by (rewrite E; left).
      apply elem_of_select in Hin as (Hr & Hs & Hy). by destruct (Hno r). }
  destruct (get_MODIS_data_cases csv site years)
    as [[E ->]|[(Hne & _ & ->)|(Hne & _ & lo & hi & _ & _ & [(_ & _ & out & ->)|[_ ->]])]];
    split; done.
Qed.

(** X2 - get_MODIS_data, a repeated date.  The method fails at [reindex]
    (line 170), with the ValueError for duplicate labels, exactly when two
    selected rows carry the same date.  In particular the [min] of line 168
    never raises: a non-empty selection has a requested year. *)
Theorem get_MODIS_data_ValueError (csv : list ModisRow) (site : string) (years : list Z) :
  Modis.get_MODIS_data csv site years = Raise ValueError
  ↔ ¬ NoDup (Date <$> Modis.select csv site years).
Proof.
  destruct (get_MODIS_data_cases csv site years)
    as [[E ->]|[(Hne & Hnd & ->)|(Hne & Hnd & lo & hi & _ & _ & [(_ & _ & out & ->)|[_ ->]])]];
    split; try done.
  intros []. rewrite E. constructor.
Qed.

(** X3 - get_MODIS_data, a calendar end without sample.  The method fails
    at an integer cast of lines 180-181 (pandas' IntCastingNaNError, a
    ValueError of its own message) exactly when the selection is not empty,
    has no repeated date, and lacks a sample on the first or on the last day
    of the calendar. *)
Theorem get_MODIS_data_IntCastingNaNError (csv : list ModisRow) (site : string)
    (years : list Z) :
  Modis.get_MODIS_data csv site years = Raise IntCastingNaNError
  ↔ Modis.select csv site years ≠ []
    ∧ NoDup (Date <$> Modis.select csv site years)
    ∧ ∃ lo hi,
        py_min years = Ok lo ∧ py_max years = Ok hi
        ∧ (Timestamp lo 1 1 ∉ Date <$> Modis.select csv site years
           ∨ Timestamp hi 12 31 ∉ Date <$> Modis.select csv site years).
Proof.
  destruct (get_MODIS_data_cases csv site years)
    as [[E HR]|[(Hne & Hnd & HR)
               |(Hne & Hnd & lo & hi & Hlo & Hhi & [(H1 & Hn & out & HR)|[Hout HR]])]];
    rewrite HR.
  - split; [done|]. by intros [? _].
  - split; [done|]. by intros (_ & ? & _).
  - split; [done|]. intros (_ & _ & lo' & hi' & Hlo' & Hhi' & Hout).
    assert (lo' = lo) as -> by congruence. assert (hi' = hi) as -> by congruence.
    by destruct Hout.
  - split; [|done]. intros _. split_and!; [done..|]. by exists lo, hi.
Qed.

(** X4 - get_MODIS_data returns exactly when the selected rows have
    pairwise different dates and include a sample on 1 January of the
    smallest requested year and one on 31 December of the largest. *)
Theorem get_MODIS_data_returns_iff (csv : list ModisRow) (site : string) (years : list Z) :
  (∃ out, Modis.get_MODIS_data csv site years = Ok out)
  ↔ ∃ lo hi,
      py_min years = Ok lo ∧ py_max years = Ok hi
      ∧ NoDup (Date <$> Modis.select csv site years)
      ∧ Timestamp lo 1 1 ∈ Date <$> Modis.select csv site years
      ∧ Timestamp hi 12 31 ∈ Date <$> Modis.select csv site years.
Proof.
  destruct (get_MODIS_data_cases csv site years)
    as [[E HR]|[(Hne & Hnd & HR)
               |(Hne & Hnd & lo & hi & Hlo & Hhi & [(H1 & Hn & out & HR)|[Hout HR]])]].
  - split; [intros [out' Hout']; congruence|].
    intros (lo & hi & _ & _ & _ & H1 & _). rewrite E in H1. by apply elem_of_nil in H1.
  - split; [intros [out' Hout']; congruence|]. by intros (lo & hi & _ & _ & ? & _).
  - split; [|by eauto]. intros _. by exists lo, hi.
  - split; [intros [out' Hout']; congruence|].
    intros (lo' & hi' & Hlo' & Hhi' & _ & H1 & Hn).
    assert (lo' = lo) as -> by congruence. assert (hi' = hi) as -> by congruence.
    by destruct Hout.
Qed.

(** ** The values of the reconstructed series *)

Section triangle_facts.
Import Modis.

Lemma of_int_nonzero (w : Z) : w ≠ 0 → Q2Qc (inject_Z w) ≠ 0%Qc.
Proof.
  intros Hw E. apply (f_equal this) in E. simpl in E.
  assert (inject_Z w == 0)%Q as Hq.
  { rewrite <- (Qred_correct (inject_Z w)), E. reflexivity. }
  unfold Qeq in Hq. simpl in Hq. lia.
Qed.

(** Line 160 on finite cells. *)
Lemma damped_value (a b : Qc) (n : Z) :
  n ≠ 0 →
  fadd (Some a) (fdiv (fsub (Some b) (Some a)) (of_int n))
  = Some (a + (b - a) / Q2Qc (inject_Z n))%Qc.
Proof.
  intros Hn. unfold fadd, fsub, fdiv, of_int, lift2.
  by rewrite decide_False by (by apply of_int_nonzero).
Qed.

(** Lines 180-181 on finite cells. *)
Lemma triangle_value (c1 c2 : Qc) (a w : Z) :
  w ≠ 0 →
  fadd (Some c2) (fdiv (fmul (fsub (Some c1) (Some c2)) (of_int a)) (of_int w))
  = Some (c2 + (c1 - c2) * Q2Qc (inject_Z a) / Q2Qc (inject_Z w))%Qc.
Proof.
  intros Hw. unfold fadd, fsub, fmul, fdiv, of_int, lift2.
  by rewrite decide_False by (by apply of_int_nonzero).
Qed.

Lemma StronglySorted_lookup_lt {A} (R : relation A) (l : list A) (i k : nat) (x y : A) :
  StronglySorted R l → (i < k)%nat → l !! i = Some x → l !! k = Some y → R x y.
Proof.
  intros Hl. revert i k. induction Hl as [|z l Hl IH Hz]; intros i k Hik Hx Hy; [done|].
  destruct k as [|k]; [lia|]. simpl in Hy. destruct i as [|i].
  - injection Hx as ->. rewrite Forall_forall in Hz. apply Hz.
    by eapply list_elem_of_lookup_2.
  - simpl in Hx. apply (IH i k); [lia|done..].
Qed.

(** In a selection without repeated dates, later rows have later dates. *)
Lemma select_lookup_lt (csv : list ModisRow) (site : string) (years : list Z)
    (i k : nat) (x y : ModisRow) :
  NoDup (Date <$> select csv site years) → (i < k)%nat →
  select csv site years !! i = Some x → select csv site years !! k = Some y →
  Date x < Date y.
Proof.
  intros Hnd Hik Hx Hy.
  pose proof (StronglySorted_lookup_lt by_Date _ i k x y (select_sorted csv site years)
                Hik Hx Hy) as Hle. unfold by_Date in Hle.
  assert (Date x ≠ Date y); [|lia]. intros E.
  assert (i = k); [|lia].
  apply (NoDup_lookup _ i k (Date x) Hnd); rewrite list_lookup_fmap.
  - by rewrite Hx.
  - by rewrite Hy, E.
Qed.

(** No sample lies between two rows that follow each other. *)
Lemma select_gap (csv : list ModisRow) (site : string) (years : list Z)
    (i : nat) (prev cur r : ModisRow) :
  NoDup (Date <$> select csv site years) →
  select csv site years !! i = Some prev → select csv site years !! S i = Some cur →
  r ∈ select csv site years →
  Date r ≤ Date prev ∨ Date cur ≤ Date r.
Proof.
  intros Hnd Hprev Hcur [k Hk]%list_elem_of_lookup.
  destruct (decide (k ≤ i)%nat) as [Hle|Hgt].
  - left. destruct (decide (k = i)) as [->|Hne]; [by simplify_eq|].
    pose proof (select_lookup_lt csv site years k i r prev Hnd ltac:(lia) Hk Hprev). lia.
  - right. destruct (decide (k = S i)) as [->|Hne]; [by simplify_eq|].
    pose proof (select_lookup_lt csv site years (S i) k cur r Hnd ltac:(lia) Hcur Hk). lia.
Qed.

Lemma lookup_date_range (A B t : Z) :
  A ≤ t ≤ B → date_range A B !! Z.to_nat (t - A) = Some t.
Proof.
  intros Ht. unfold date_range. rewrite lookup_seqZ_lt by lia. f_equal. lia.
Qed.

(** The cell of a sample date after [reindex]. *)
Lemma reindex_at_sample {X} (MODIS : list ModisRow) (col : list (option X))
    (A B : Z) (i : nat) (r : ModisRow) :
  NoDup (Date <$> MODIS) → MODIS !! i = Some r → A ≤ Date r ≤ B →
  reindex (Date <$> MODIS) col (date_range A B) !! Z.to_nat (Date r - A)
  = Some (mjoin (col !! i)).
Proof.
  intros Hnd Hr Hin.
  rewrite (lookup_reindex _ _ _ _ (Date r)) by (by apply lookup_date_range).
  rewrite (get_loc_lookup _ _ i Hnd); [done|]. by rewrite list_lookup_fmap, Hr.
Qed.

(** The cell of a date without sample after [reindex]. *)
Lemma reindex_off_sample {X} (MODIS : list ModisRow) (col : list (option X))
    (A B t : Z) :
  t ∉ Date <$> MODIS → A ≤ t ≤ B →
  reindex (Date <$> MODIS) col (date_range A B) !! Z.to_nat (t - A) = Some None.
Proof.
  intros Ht Hin.
  rewrite (lookup_reindex _ _ _ _ t) by (by apply lookup_date_range).
  by rewrite get_loc_None.
Qed.

(** From a sample on, up to the next one, [ffill] holds the sample's cell. *)
Lemma ffill_between {X} (MODIS : list ModisRow) (col : list (option X))
    (A B t : Z) (i : nat) (prev : ModisRow) (x : X) :
  NoDup (Date <$> MODIS) → MODIS !! i = Some prev → col !! i = Some (Some x) →
  (∀ r, r ∈ MODIS → Date r ≤ Date prev ∨ t < Date r) →
  A ≤ Date prev → Date prev ≤ t → t ≤ B →
  ffill (reindex (Date <$> MODIS) col (date_range A B)) !! Z.to_nat (t - A)
  = Some (Some x).
Proof.
  intros Hnd Hprev Hx Hgap HA Hle HB.
  apply (ffill_span _ (Z.to_nat (Date prev - A))); [| |lia].
  - rewrite (reindex_at_sample MODIS col A B i prev) by (done || lia). by rewrite Hx.
  - intros k Hk. replace k with (Z.to_nat ((A + Z.of_nat k) - A)) by lia.
    apply reindex_off_sample; [|lia].
    intros (r & Hd & Hr)%list_elem_of_fmap. destruct (Hgap r Hr); lia.
Qed.

(** Before a sample, back to the one before it, [bfill] holds the sample's
    cell. *)
Lemma bfill_between {X} (MODIS : list ModisRow) (col : list (option X))
    (A B t : Z) (i : nat) (cur : ModisRow) (x : X) :
  NoDup (Date <$> MODIS) → MODIS !! i = Some cur → col !! i = Some (Some x) →
  (∀ r, r ∈ MODIS → Date r < t ∨ Date cur ≤ Date r) →
  A ≤ t → t ≤ Date cur → Date cur ≤ B →
  bfill (reindex (Date <$> MODIS) col (date_range A B)) !! Z.to_nat (t - A)
  = Some (Some x).
Proof.
  intros Hnd Hcur Hx Hgap HA Hle HB.
  apply (bfill_span _ _ (Z.to_nat (Date cur - A))); [| |lia].
  - rewrite (reindex_at_sample MODIS col A B i cur) by (done || lia). by rewrite Hx.
  - intros k Hk. replace k with (Z.to_nat ((A + Z.of_nat k) - A)) by lia.
    apply reindex_off_sample; [|lia].
    intros (r & Hd & Hr)%list_elem_of_fmap. destruct (Hgap r Hr); lia.
Qed.

(** A row of a returning [pad] other than the first: lines 180-181 on the
    filled cells of that row. *)
Lemma pad_Ok_lookup (MODIS : list ModisRow) calc date0 (idx : list Z) out
    (j : nat) (t : Z) (c1 c2 : float) (d2 d0 : Z) :
  pad MODIS calc date0 idx = Ok out →
  (0 < j)%nat → idx !! j = Some t →
  ffill (reindex (Date <$> MODIS) calc idx) !! j = Some c1 →
  bfill (reindex (Date <$> MODIS) calc idx) !! j = Some c2 →
  bfill (reindex (Date <$> MODIS) (Some <$> (Date <$> MODIS)) idx) !! j = Some (Some d2) →
  ffill (reindex (Date <$> MODIS) date0 idx) !! j = Some (Some d0) →
  out !! j
  = Some (t, fadd c2 (fdiv (fmul (fsub c1 c2) (of_int (d2 - t))) (of_int (d2 - d0)))).
Proof.
  intros Hpad Hj Ht Hc1 Hc2 Hd2 Hd0. unfold pad in Hpad.
  destruct (decide (NoDup (Date <$> MODIS))) as [Hnd|]; [|done].
  destruct (astype_int (days_between _ (Some <$> idx))) as [ahead|] eqn:Ha; [|done].
  cbn [bind] in Hpad.
  destruct (astype_int (days_between _ (ffill _))) as [width|] eqn:Hw; [|done].
  cbn [bind] in Hpad.
  destruct (reindex _ (LAI <$> MODIS) idx !! 0%nat) as [v|] eqn:Hv; [|done].
  cbn [bind set_first] in Hpad. injection Hpad as <-.
  apply astype_int_Ok in Ha, Hw.
  apply (f_equal (λ l, l !! j)) in Ha, Hw. cbv beta in Ha, Hw.
  unfold days_between in Ha, Hw.
  rewrite lookup_zip_with, Hd2, !list_lookup_fmap in Ha.
  rewrite lookup_zip_with, Hd2, Hd0, !list_lookup_fmap in Hw.
  rewrite Ht in Ha. simpl in Ha, Hw.
  destruct (ahead !! j) as [a|] eqn:Ea; [|done]. injection Ha as <-.
  destruct (width !! j) as [w|] eqn:Ew; [|done]. injection Hw as <-.
  rewrite lookup_zip_with, Ht. simpl.
  rewrite list_lookup_insert_ne by lia.
  rewrite !lookup_zip_with, Hc1, Hc2, !list_lookup_fmap, Ea, Ew. done.
Qed.

End triangle_facts.

Section series_facts.
Import Modis.

(** What a returning [get_MODIS_data] has gone through. *)
Lemma get_MODIS_data_Ok_pad (csv : list ModisRow) (site : string) (years : list Z) out :
  get_MODIS_data csv site years = Ok out →
  let MODIS := select csv site years in
  ∃ lo hi calc date0,
    CALC MODIS = Ok calc ∧ Date0 MODIS = Ok date0
    ∧ pad MODIS calc date0 (date_range (Timestamp lo 1 1) (Timestamp hi 12 31)) = Ok out
    ∧ NoDup (Date <$> MODIS)
    ∧ (∀ r, r ∈ MODIS → Timestamp lo 1 1 ≤ Date r ≤ Timestamp hi 12 31)
    ∧ out.*1 = date_range (Timestamp lo 1 1) (Timestamp hi 12 31).
Proof.
  intros Hget MODIS. unfold get_MODIS_data in Hget. fold MODIS in Hget.
  destruct (CALC MODIS) as [calc|] eqn:Hcalc; [|done].
  destruct (Date0 MODIS) as [date0|] eqn:Hdate0; [|done]. cbn [bind] in Hget.
  destruct (calendar years) as [idx|] eqn:Hcal; [|done]. cbn [bind] in Hget.
  destruct (calendar_Ok years idx Hcal) as (lo & hi & _ & _ & Hyears & -> & _ & _).
  exists lo, hi, calc, date0. split_and!; [done..| | |].
  - by apply pad_Ok in Hget as (? & ? & ? & ? & ? & _).
  - intros r (_ & _ & Hy)%elem_of_select. apply year_between. by apply Hyears.
  - apply pad_Ok in Hget as (ahead & width & v & LAI_pred & _ & _ & _ & _ & Hlen & ->).
    apply fst_zip. rewrite length_insert. lia.
Qed.

(** Lines 160-161 below the first row. *)
Lemma CALC_lookup_S (MODIS : list ModisRow) calc (i : nat) (prev cur : ModisRow) :
  CALC MODIS = Ok calc → MODIS !! i = Some prev → MODIS !! S i = Some cur →
  calc !! S i
  = Some (fadd (LAI prev) (fdiv (fsub (LAI cur) (LAI prev)) (of_int (Confidence cur + 1)))).
Proof.
  intros Hcalc Hprev Hcur. unfold CALC in Hcalc.
  destruct ((LAI <$> MODIS) !! 0%nat) as [x|]; [|done]. injection Hcalc as <-.
  rewrite list_lookup_insert_ne by done. by apply lookup_CALC_shifted.
Qed.

Lemma CALC_length (MODIS : list ModisRow) calc :
  CALC MODIS = Ok calc → length calc = length MODIS.
Proof.
  unfold CALC. destruct ((LAI <$> MODIS) !! 0%nat) as [x|]; [|done]. intros [= <-].
  by rewrite length_insert, length_CALC_shifted.
Qed.

(** A date has one row in the series. *)
Lemma series_row_unique (out : list (Z * float)) (j : nat) (t : Z) (v v' : float) :
  NoDup out.*1 → out !! j = Some (t, v) → (t, v') ∈ out → v' = v.
Proof.
  intros Hnd Hj Hin.
  assert ((t, v') = (t, v)) as [= ->]; [|done].
  apply (NoDup_fmap_eq fst out); [done..| |done]. by eapply list_elem_of_lookup_2.
Qed.

(** The row of a date between two samples that follow each other, the
    later one included. *)
Lemma series_lookup (csv : list ModisRow) (site : string) (years : list Z) out calc
    (i : nat) (before prev cur : ModisRow) (c1 c2 : Qc) (t : Z) :
  get_MODIS_data csv site years = Ok out →
  CALC (select csv site years) = Ok calc →
  select csv site years !! pred i = Some before →
  select csv site years !! i = Some prev →
  select csv site years !! S i = Some cur →
  calc !! i = Some (Some c1) → calc !! S i = Some (Some c2) →
  Date prev < t < Date cur →
  ∃ j, out !! j
       = Some (t, Some (c2 + (c1 - c2) * Q2Qc (inject_Z (Date cur - t))
                             / Q2Qc (inject_Z (Date cur - Date before)))%Qc)
       ∧ NoDup out.*1.
Proof.
  intros Hget Hcalc Hbefore Hprev Hcur Hc1 Hc2 Ht.
  destruct (get_MODIS_data_Ok_pad csv site years out Hget)
    as (lo & hi & calc' & date0 & Hcalc' & Hdate0 & Hpad & Hnd & Hin & Hix).
  set (MODIS := select csv site years) in *.
  assert (calc' = calc) as -> by congruence.
  set (A := Timestamp lo 1 1) in *. set (B := Timestamp hi 12 31) in *.
  assert (prev ∈ MODIS) as Hprev_in by (by eapply list_elem_of_lookup_2).
  assert (cur ∈ MODIS) as Hcur_in by (by eapply list_elem_of_lookup_2).
  assert (before ∈ MODIS) as Hbefore_in by (by eapply list_elem_of_lookup_2).
  pose proof (Hin prev Hprev_in). pose proof (Hin cur Hcur_in).
  assert (Date before ≤ Date prev) as Hbp.
  { destruct i as [|i]; [simpl in Hbefore; by simplify_eq|]. simpl in Hbefore.
    pose proof (select_lookup_lt csv site years i (S i) before prev Hnd ltac:(lia)
                  Hbefore Hprev). lia. }
  assert (∀ r, r ∈ MODIS → Date r ≤ Date prev ∨ Date cur ≤ Date r) as Hgap.
  { intros r Hr. by apply (select_gap csv site years i prev cur r). }
  destruct (Date0_lookup MODIS) as (date0' & Hdate0' & Hlen0 & Hcells).
  { intros E. rewrite E in Hprev_in. by apply elem_of_nil in Hprev_in. }
  assert (date0' = date0) as -> by congruence.
  exists (Z.to_nat (t - A)). split; [|rewrite Hix; apply NoDup_seqZ].
  rewrite (pad_Ok_lookup MODIS calc date0 (date_range A B) out (Z.to_nat (t - A)) t
             (Some c1) (Some c2) (Date cur) (Date before) Hpad).
  - by rewrite triangle_value by lia.
  - lia.
  - apply lookup_date_range. lia.
  - apply (ffill_between MODIS calc A B t i prev c1); try done; try lia.
    intros r Hr. destruct (Hgap r Hr); lia.
  - apply (bfill_between MODIS calc A B t (S i) cur c2); try done; try lia.
    intros r Hr. destruct (Hgap r Hr); lia.
  - apply (bfill_between MODIS _ A B t (S i) cur (Date cur)); try done; try lia;
      [by rewrite !list_lookup_fmap, Hcur|].
    intros r Hr. destruct (Hgap r Hr); lia.
  - apply (ffill_between MODIS date0 A B t i prev (Date before)); try done; try lia;
      [apply Hcells; [by eapply lookup_lt_Some|done]|].
    intros r Hr. destruct (Hgap r Hr); lia.
Qed.

(** The row of a sample date other than the first. *)
Lemma series_lookup_sample (csv : list ModisRow) (site : string) (years : list Z) out
    calc (i : nat) (prev cur : ModisRow) (c : Qc) :
  get_MODIS_data csv site years = Ok out →
  CALC (select csv site years) = Ok calc →
  select csv site years !! i = Some prev →
  select csv site years !! S i = Some cur →
  calc !! S i = Some (Some c) →
  ∃ j, out !! j = Some (Date cur, Some c) ∧ NoDup out.*1.
Proof.
  intros Hget Hcalc Hprev Hcur Hc.
  destruct (get_MODIS_data_Ok_pad csv site years out Hget)
    as (lo & hi & calc' & date0 & Hcalc' & Hdate0 & Hpad & Hnd & Hin & Hix).
  set (MODIS := select csv site years) in *.
  assert (calc' = calc) as -> by congruence.
  set (A := Timestamp lo 1 1) in *. set (B := Timestamp hi 12 31) in *.
  assert (prev ∈ MODIS) as Hprev_in by (by eapply list_elem_of_lookup_2).
  assert (cur ∈ MODIS) as Hcur_in by (by eapply list_elem_of_lookup_2).
  pose proof (Hin prev Hprev_in). pose proof (Hin cur Hcur_in).
  pose proof (select_lookup_lt csv site years i (S i) prev cur Hnd ltac:(lia)
                Hprev Hcur) as Hlt.
  destruct (Date0_lookup MODIS) as (date0' & Hdate0' & Hlen0 & Hcells).
  { intros E. rewrite E in Hprev_in. by apply elem_of_nil in Hprev_in. }
  assert (date0' = date0) as -> by congruence.
  exists (Z.to_nat (Date cur - A)). split; [|rewrite Hix; apply NoDup_seqZ].
  rewrite (pad_Ok_lookup MODIS calc date0 (date_range A B) out (Z.to_nat (Date cur - A))
             (Date cur) (Some c) (Some c) (Date cur) (Date prev) Hpad).
  - rewrite triangle_value by lia. do 3 f_equal.
    replace (Date cur - Date cur) with 0 by lia.
    change (Q2Qc (inject_Z 0)) with 0%Qc. unfold Qcdiv. ring.
  - lia.
  - apply lookup_date_range. lia.
  - apply (ffill_between MODIS calc A B (Date cur) (S i) cur c); try done; lia.
  - apply (bfill_between MODIS calc A B (Date cur) (S i) cur c); try done; lia.
  - apply (bfill_between MODIS _ A B (Date cur) (S i) cur (Date cur)); try done; try lia.
    by rewrite !list_lookup_fmap, Hcur.
  - apply (ffill_between MODIS date0 A B (Date cur) (S i) cur (Date prev));
      try done; try lia.
    apply Hcells; [by eapply lookup_lt_Some|done].
Qed.

End series_facts.

(** X5 - the series on a sample date.  When get_MODIS_data returns, the row
    of each sample date after the first holds the damped value of line 160,
    LAI[i] + (LAI[i+1] - LAI[i]) / (Confidence[i+1] + 1): there the triangle
    rule of lines 180-181 adds nothing.  The date has no other row. *)
Theorem LAI_pred_at_sample (csv : list ModisRow) (site : string) (years : list Z) out
    (i : nat) (prev cur : ModisRow) (a b : Qc) :
  Modis.get_MODIS_data csv site years = Ok out →
  Modis.select csv site years !! i = Some prev →
  Modis.select csv site years !! S i = Some cur →
  LAI prev = Some a → LAI cur = Some b → Confidence cur ≠ -1 →
  let v := Some (a + (b - a) / Q2Qc (inject_Z (Confidence cur + 1)))%Qc in
  (Date cur, v) ∈ out ∧ ∀ v', (Date cur, v') ∈ out → v' = v.
Proof.
  intros Hget Hprev Hcur Ha Hb Hconf v.
  destruct (CALC_Ok (Modis.select csv site years)) as [calc Hcalc].
  { intros E. by rewrite E in Hprev. }
  pose proof (CALC_lookup_S _ calc i prev cur Hcalc Hprev Hcur) as Hc.
  rewrite Ha, Hb, damped_value in Hc by lia.
  destruct (series_lookup_sample csv site years out calc i prev cur _ Hget Hcalc
              Hprev Hcur Hc) as (j & Hj & Hnd).
  split; [by eapply list_elem_of_lookup_2|].
  intros v' Hv'. by eapply series_row_unique.
Qed.

Lemma LAI_pred_at_sample_witness :
  let v := Some (Q2Qc 1 + (Q2Qc 2 - Q2Qc 1) / Q2Qc (inject_Z (1 + 1)))%Qc in
  (Timestamp 2018 12 31, v) ∈ series_2018
  ∧ ∀ v', (Timestamp 2018 12 31, v') ∈ series_2018 → v' = v.
Proof.
  apply (LAI_pred_at_sample year_2018 "CHIMN" [2018] series_2018 0
           (sample (Timestamp 2018 1 1) 1 0) (sample (Timestamp 2018 12 31) 2 1)
           (Q2Qc 1) (Q2Qc 2));
    [vm_compute; reflexivity|reflexivity|reflexivity|reflexivity|reflexivity|done].
Defined.

(** X6 - the series between two samples.  When get_MODIS_data returns, a
    day [t] strictly between the samples [i] and [i+1] holds
    CALC[i+1] + (CALC[i] - CALC[i+1]) * (Date[i+1] - t) / (Date[i+1] - Date[i-1]):
    the divisor of line 181 runs from the sample before [i] (from [i] itself
    when [i] is the first sample), because [Date0] is the shifted date of
    line 164, filled forward by line 176. *)
Theorem LAI_pred_between_samples (csv : list ModisRow) (site : string) (years : list Z)
    out calc (i : nat) (before prev cur : ModisRow) (c1 c2 : Qc) (t : Z) :
  Modis.get_MODIS_data csv site years = Ok out →
  Modis.CALC (Modis.select csv site years) = Ok calc →
  Modis.select csv site years !! pred i = Some before →
  Modis.select csv site years !! i = Some prev →
  Modis.select csv site years !! S i = Some cur →
  calc !! i = Some (Some c1) → calc !! S i = Some (Some c2) →
  Date prev < t < Date cur →
  let v := Some (c2 + (c1 - c2) * Q2Qc (inject_Z (Date cur - t))
                      / Q2Qc (inject_Z (Date cur - Date before)))%Qc in
  (t, v) ∈ out ∧ ∀ v', (t, v') ∈ out → v' = v.
Proof.
  intros Hget Hcalc Hbefore Hprev Hcur Hc1 Hc2 Ht v.
  destruct (series_lookup csv site years out calc i before prev cur c1 c2 t Hget Hcalc
              Hbefore Hprev Hcur Hc1 Hc2 Ht) as (j & Hj & Hnd).
  split; [by eapply list_elem_of_lookup_2|].
  intros v' Hv'. by eapply series_row_unique.
Qed.

Lemma LAI_pred_between_samples_witness :
  let v := Some (Q2Qc (3 # 2) + (Q2Qc 1 - Q2Qc (3 # 2))
                   * Q2Qc (inject_Z (Timestamp 2018 12 31 - Timestamp 2018 7 1))
                   / Q2Qc (inject_Z (Timestamp 2018 12 31 - Timestamp 2018 1 1)))%Qc in
  (Timestamp 2018 7 1, v) ∈ series_2018
  ∧ ∀ v', (Timestamp 2018 7 1, v') ∈ series_2018 → v' = v.
Proof.
  apply (LAI_pred_between_samples year_2018 "CHIMN" [2018] series_2018
           [Some (Q2Qc 1); Some (Q2Qc (3 # 2))] 0
           (sample (Timestamp 2018 1 1) 1 0) (sample (Timestamp 2018 1 1) 1 0)
           (sample (Timestamp 2018 12 31) 2 1) (Q2Qc 1) (Q2Qc (3 # 2))
           (Timestamp 2018 7 1)).
  - vm_compute. reflexivity.
  - vm_compute. repeat f_equal; by apply Qc_is_canon.
  - reflexivity.
  - reflexivity.
  - reflexivity.
  - reflexivity.
  - reflexivity.
  - vm_compute. done.
Defined.

Section order_facts.
Import Modis.

Lemma select_Permutation (csv csv' : list ModisRow) (site : string) (years : list Z) :
  csv ≡ₚ csv' → select csv site years ≡ₚ select csv' site years.
Proof.
  intros Hp. unfold select. rewrite !merge_sort_Permutation. by rewrite Hp.
Qed.

Lemma get_MODIS_data_select (csv csv' : list ModisRow) (site : string) (years : list Z) :
  select csv site years = select csv' site years →
  get_MODIS_data csv site years = get_MODIS_data csv' site years.
Proof. intros E. unfold get_MODIS_data. by rewrite E. Qed.

End order_facts.

(** X7 - the order of the rows in the MODIS file does not matter: two files
    with the same rows give the same series, or raise the same exception. *)
Theorem get_MODIS_data_file_order (csv csv' : list ModisRow) (site : string)
    (years : list Z) :
  csv ≡ₚ csv' →
  Modis.get_MODIS_data csv site years = Modis.get_MODIS_data csv' site years.
Proof.
  intros Hp. pose proof (select_Permutation csv csv' site years Hp) as Hsel.
  destruct (decide (NoDup (Date <$> Modis.select csv site years))) as [Hnd|Hnd].
  - apply get_MODIS_data_select.
    apply (StronglySorted_unique_strong Modis.by_Date); [|apply select_sorted..|done].
    intros x1 x2 H1 H2 Hle1 Hle2. rewrite <- Hsel in H2.
    apply (NoDup_fmap_eq Date (Modis.select csv site years)); [done..|].
    unfold Modis.by_Date in *. lia.
  - assert (¬ NoDup (Date <$> Modis.select csv' site years)) as Hnd'.
    { by rewrite <- Hsel. }
    destruct (get_MODIS_data_cases csv site years)
      as [[E _]|[(_ & _ & ->)|(_ & ? & _)]]; [|clear Hnd|done].
    { destruct Hnd. rewrite E. constructor. }
    destruct (get_MODIS_data_cases csv' site years)
      as [[E _]|[(_ & _ & ->)|(_ & ? & _)]]; [|done|done].
    destruct Hnd'. rewrite E. constructor.
Qed.

Lemma get_MODIS_data_file_order_witness :
  Modis.get_MODIS_data year_2018 "CHIMN" [2018]
  = Modis.get_MODIS_data (reverse year_2018) "CHIMN" [2018].
Proof.
  apply (get_MODIS_data_file_order year_2018 (reverse year_2018)).
  symmetry. apply reverse_Permutation.
Defined.

(** X8 - the returned series.  When get_MODIS_data returns, the series has
    one row for every day from 1 January of the smallest requested year to
    31 December of the largest, in order, and its first row holds the raw
    LAI of the earliest selected sample (line 182). *)
Theorem LAI_pred_first_row (csv : list ModisRow) (site : string) (years : list Z) out :
  Modis.get_MODIS_data csv site years = Ok out →
  ∃ lo hi first,
    py_min years = Ok lo ∧ py_max years = Ok hi
    ∧ head (Modis.select csv site years) = Some first
    ∧ out.*1 = date_range (Timestamp lo 1 1) (Timestamp hi 12 31)
    ∧ head out = Some (Timestamp lo 1 1, LAI first).
Proof.
  intros (lo & hi & first & final & ? & ? & ? & _ & _ & _ & ? & ?)%get_MODIS_data_Ok.
  by exists lo, hi, first.
Qed.

Lemma LAI_pred_first_row_witness :
  ∃ lo hi first,
    py_min [2018] = Ok lo ∧ py_max [2018] = Ok hi
    ∧ head (Modis.select year_2018 "CHIMN" [2018]) = Some first
    ∧ series_2018.*1 = date_range (Timestamp lo 1 1) (Timestamp hi 12 31)
    ∧ head series_2018 = Some (Timestamp lo 1 1, LAI first).
Proof.
  apply (LAI_pred_first_row year_2018 "CHIMN" [2018] series_2018).
  vm_compute. reflexivity.
Defined.

(** ** Totals of the precipitation aggregation *)

Section aggregation_facts.
Import Archive.

(** A reading enters its own day's group and no other. *)
Lemma group_cons (r : SH.Row) (sh : list SH.Row) (d : Z) :
  group (r :: sh) d
  = if decide (dt_date (SH.DATE_TIME r) = d) then r :: group sh d else group sh d.
Proof. unfold group. by rewrite filter_cons. Qed.

(** What one more reading adds to the count of day [d]. *)
Lemma agg_count_cons (r : SH.Row) (sh : list SH.Row) (d : Z) :
  agg_count (group (r :: sh) d)
  = (if decide (dt_date (SH.DATE_TIME r) = d)
     then match SH.PRECIP r with Some _ => 1 | None => 0 end else 0)
    + agg_count (group sh d).
Proof.
  rewrite group_cons. unfold agg_count.
  destruct (decide (dt_date (SH.DATE_TIME r) = d)) as [E|E]; [|lia].
  csimpl. destruct (SH.PRECIP r) as [q|]; simpl; lia.
Qed.

(** A value placed at one key of a list without repeated keys is added once
    to the sum over the keys. *)
Lemma foldr_Zadd_at (k : Z) (v : Z) (f : Z → Z) (ks : list Z) :
  NoDup ks → k ∈ ks →
  foldr Z.add 0 ((λ d, (if decide (k = d) then v else 0) + f d) <$> ks)
  = v + foldr Z.add 0 (f <$> ks).
Proof.
  intros Hnd. induction Hnd as [|d ks Hd Hnd IH]; intros Hk.
  - by apply elem_of_nil in Hk.
  - rewrite !fmap_cons. simpl.
    destruct (decide (k = d)) as [->|Hne].
    + assert (foldr Z.add 0 ((λ d0, (if decide (d = d0) then v else 0) + f d0) <$> ks)
              = foldr Z.add 0 (f <$> ks)) as ->; [|lia].
      f_equal. apply list_fmap_ext. intros i d' Hd'.
      rewrite decide_False; [lia|]. intros ->. apply Hd. by eapply list_elem_of_lookup_2.
    + rewrite IH; [lia|]. apply elem_of_cons in Hk as [?|?]; done.
Qed.

(** Over keys that cover every reading once, the counts of the groups add
    up to the count of the whole table. *)
Lemma agg_count_over_keys (ks : list Z) (sh : list SH.Row) :
  NoDup ks → (∀ r, r ∈ sh → dt_date (SH.DATE_TIME r) ∈ ks) →
  foldr Z.add 0 ((λ d, agg_count (group sh d)) <$> ks)
  = Z.of_nat (length (omap SH.PRECIP sh)).
Proof.
  intros Hnd. induction sh as [|r sh IH]; intros Hcover.
  - clear Hnd Hcover. induction ks as [|k ks IHk]; [done|].
    rewrite fmap_cons. simpl. by rewrite IHk.
  - assert (dt_date (SH.DATE_TIME r) ∈ ks) as Hk by (apply Hcover; left).
    assert ((λ d, agg_count (group (r :: sh) d)) <$> ks
            = (λ d, (if decide (dt_date (SH.DATE_TIME r) = d)
                     then match SH.PRECIP r with Some _ => 1 | None => 0 end else 0)
                    + agg_count (group sh d)) <$> ks) as ->.
    { apply list_fmap_ext. intros i d _. apply agg_count_cons. }
    rewrite (foldr_Zadd_at _ _ (λ d, agg_count (group sh d))) by done.
    rewrite IH; [|intros r' Hr'; apply Hcover; by right].
    csimpl. destruct (SH.PRECIP r) as [q|]; simpl; lia.
Qed.

End aggregation_facts.

(** X10 - the aggregation counts every reading once.  Over the table of
    lines 145-146 the daily counts add up to the number of readings of the
    whole input that are not missing: no reading is counted twice, and none
    is left out. *)
Theorem precipitation_counts_conserved (sh : list SH.Row) :
  foldr Z.add 0 ((λ row : Z * (float * Z), row.2.2) <$> Archive.groupby_date sh)
  = Z.of_nat (length (omap SH.PRECIP sh)).
Proof.
  rewrite <- (agg_count_over_keys
                (merge_sort Z.le
                   (remove_dups ((λ r, Archive.dt_date (SH.DATE_TIME r)) <$> sh)))
                sh).
  - unfold Archive.groupby_date. f_equal. by rewrite <- list_fmap_compose.
  - rewrite merge_sort_Permutation. apply NoDup_remove_dups.
  - intros r Hr. rewrite merge_sort_Permutation, elem_of_remove_dups.
    apply list_elem_of_fmap. eauto.
Qed.

(** X11 - a day without a valid reading.  A date whose readings are all
    missing still has its row, with sum 0 and count 0: the sum of no value
    is 0, not NaN. *)
Theorem precipitation_all_missing_day (sh : list SH.Row) (d : Z) :
  (∃ r, r ∈ sh ∧ Archive.dt_date (SH.DATE_TIME r) = d) →
  (∀ r, r ∈ sh → Archive.dt_date (SH.DATE_TIME r) = d → SH.PRECIP r = None) →
  (d, (Some 0%Qc, 0)) ∈ Archive.groupby_date sh.
Proof.
  intros (r0 & Hr0 & Hd0) Hnone. unfold Archive.groupby_date.
  apply list_elem_of_fmap. exists d. split.
  - assert (omap SH.PRECIP (Archive.group sh d) = []) as E.
    { unfold Archive.group. clear r0 Hr0 Hd0.
      induction sh as [|r sh IH]; [done|]. rewrite filter_cons.
      destruct (decide (Archive.dt_date (SH.DATE_TIME r) = d)) as [E|E].
      - csimpl. rewrite (Hnone r); [|left|done]. simpl.
        apply IH. intros r' Hr'. apply Hnone. by right.
      - apply IH. intros r' Hr'. apply Hnone. by right. }
    unfold Archive.agg_sum, Archive.agg_count. by rewrite E.
  - rewrite merge_sort_Permutation, elem_of_remove_dups.
    apply list_elem_of_fmap. eauto.
Qed.

Lemma precipitation_all_missing_day_witness :
  (Timestamp 2018 1 1, (Some 0%Qc, 0))
  ∈ Archive.groupby_date
      [ {| SH.DATE_TIME := Timestamp 2018 1 1 * 86400; SH.PRECIP := None |};
        {| SH.DATE_TIME := Timestamp 2018 1 1 * 86400 + 1800; SH.PRECIP := None |} ].
Proof.
  apply (precipitation_all_missing_day
           [ {| SH.DATE_TIME := Timestamp 2018 1 1 * 86400; SH.PRECIP := None |};
             {| SH.DATE_TIME := Timestamp 2018 1 1 * 86400 + 1800; SH.PRECIP := None |} ]
           (Timestamp 2018 1 1)).
  - eexists. split; [left|]. reflexivity.
  - intros r Hr _. repeat (apply elem_of_cons in Hr as [->|Hr]); [reflexivity..|].
    by apply elem_of_nil in Hr.
Defined.

(** ** The readers *)

Section reader_facts.
Import Archive.

Lemma isin_years_fst {A B} (f : A → Z * B) (years : list Z) (l : list A) :
  (isin_years years (f <$> l)).*1 = filter (λ d, year d ∈ years) ((λ x, (f x).1) <$> l).
Proof.
  unfold isin_years. induction l as [|x l IH]; [done|].
  rewrite !fmap_cons, !filter_cons. simpl.
  destruct (decide (year (f x).1 ∈ years)); csimpl; by rewrite IH.
Qed.

Lemma na_values_sentinel (x : float) : na_values x ≠ of_int (-9999).
Proof.
  unfold na_values, of_int. destruct x as [q|]; [|done].
  destruct (decide (q = Q2Qc (inject_Z (-9999)))); [done|congruence].
Qed.

End reader_facts.

(** X12 - the daily readers.  get_cosmos_data and get_PE_data return the
    rows of the requested years in the order of the file (nothing is sorted,
    a repeated date stays repeated), both with the same dates, and no cell
    of either holds the sentinel -9999. *)
Theorem daily_series_aligned (rows : list Daily.Row) (years : list Z) :
  let daily := Archive.read_daily <$> rows in
  (Archive.get_cosmos_data daily years).*1
  = filter (λ d, year d ∈ years) (Daily.DATE_TIME <$> rows)
  ∧ (Archive.get_PE_data daily years).*1 = (Archive.get_cosmos_data daily years).*1
  ∧ (∀ d v, (d, v) ∈ Archive.get_cosmos_data daily years
            ∨ (d, v) ∈ Archive.get_PE_data daily years →
            year d ∈ years ∧ v ≠ of_int (-9999)).
Proof.
  intros daily. unfold Archive.get_cosmos_data, Archive.get_PE_data, daily.
  rewrite <- !list_fmap_compose. rewrite !isin_years_fst. split_and!; [done..|].
  intros d v [Hin|Hin]; unfold Archive.isin_years in Hin;
    apply list_elem_of_filter in Hin as [Hy Hin];
    apply list_elem_of_fmap in Hin as (r & [= -> ->] & _);
    (split; [done|apply na_values_sentinel]).
Qed.

(** ** Rows of the joined tables *)

Section join_facts.

Lemma elem_of_positions (k : Z) (labels : list Z) (j : nat) :
  j ∈ positions k labels ↔ labels !! j = Some k.
Proof.
  unfold positions. rewrite list_elem_of_fmap. split.
  - intros ([j' x] & -> & Hin). apply list_elem_of_filter in Hin as [Hk Hin].
    apply elem_of_lookup_imap in Hin as (i & y & [= -> ->] & Hy). simpl in *. by subst.
  - intros Hj. exists (j, k). split; [done|]. apply list_elem_of_filter. split; [done|].
    apply elem_of_lookup_imap. by exists j, k.
Qed.

(** In an index without repeated labels a label has the one position that
    [get_loc] finds, or none. *)
Lemma positions_get_loc (k : Z) (labels : list Z) :
  NoDup labels →
  positions k labels = match get_loc labels k with Some j => [j] | None => [] end.
Proof.
  intros Hnd. pose proof (positions_NoDup k labels Hnd) as Hlen.
  destruct (decide (k ∈ labels)) as [Hk|Hk].
  - apply list_elem_of_lookup in Hk as [j Hj].
    rewrite (get_loc_lookup labels k j Hnd Hj).
    apply elem_of_positions in Hj.
    destruct (positions k labels) as [|j' [|j'' js]]; simpl in Hlen; [|..|lia].
    + by apply elem_of_nil in Hj.
    + by apply list_elem_of_singleton in Hj as ->.
  - rewrite (get_loc_None labels k Hk).
    destruct (positions k labels) as [|j js] eqn:E; [done|].
    assert (j ∈ positions k labels) as Hj by (rewrite E; left).
    apply elem_of_positions in Hj. destruct Hk. by eapply list_elem_of_lookup_2.
Qed.

(** Row [k] of a left join on a right index without repeated labels: the
    left row [k] beside the right row of the same label, if there is one. *)
Lemma lookup_indexer (left right : list Z) (k : nat) (d : Z) :
  NoDup right → left !! k = Some d →
  indexer left right !! k = Some (d, (k, get_loc right d)).
Proof.
  intros Hnd Hk. unfold indexer.
  assert (∀ (g : nat → nat) (l : list Z),
            flat_map
              (λ p : nat * Z,
                 match positions p.2 right with
                 | [] => [(p.2, (p.1, None))]
                 | js => (λ j, (p.2, (p.1, Some j))) <$> js
                 end)
              (imap (λ i x, (g i, x)) l)
            = imap (λ i x, (x, (g i, get_loc right x))) l) as Hflat.
  { intros g l. revert g. induction l as [|x l IH]; intros g; [done|].
    rewrite !imap_cons. cbn [flat_map].
    change (imap ((λ (i : nat) (x : Z), (g i, x)) ∘ S) l)
      with (imap (λ (i : nat) (x : Z), ((g ∘ S) i, x)) l).
    rewrite (IH (g ∘ S)). simpl.
    rewrite (positions_get_loc x right Hnd). by destruct (get_loc right x). }
  transitivity (imap (λ i x, (x, (i, get_loc right x))) left !! k);
    [f_equal; apply (Hflat (λ i, i) left)|].
  by rewrite list_lookup_imap, Hk.
Qed.

Lemma lookup_take_rows (js : list (option nat)) (l : list (option R)) (k : nat)
    (j : option nat) :
  js !! k = Some j →
  as_float (take_rows js (FloatCol l)) !! k = Some (i ← j; mjoin (l !! i)).
Proof. intros Hj. simpl. by rewrite list_lookup_fmap, Hj. Qed.

End join_facts.

Section joined_facts.
Import Atmo.

(** The cell that a left join finds for the date [d] in a series. *)
Lemma lookup_joined {A} (f : Z * A → option R) (right : list (Z * A)) (d : Z) (x : A) :
  NoDup right.*1 → (d, x) ∈ right →
  (j ← get_loc right.*1 d; mjoin ((f <$> right) !! j)) = f (d, x).
Proof.
  intros Hnd [j Hj]%list_elem_of_lookup.
  rewrite (get_loc_lookup right.*1 d j Hnd) by (by rewrite list_lookup_fmap, Hj).
  simpl. by rewrite list_lookup_fmap, Hj.
Qed.

Lemma lookup_not_joined {A} (l : list (option R)) (right : list (Z * A)) (d : Z) :
  d ∉ right.*1 → (j ← get_loc right.*1 d; mjoin (l !! j)) = None.
Proof. intros Hd. by rewrite get_loc_None. Qed.

(** Row [k] of the joined table of the archival pathway. *)
Lemma driving_files_cells (PE_data : list (Z * float)) (PREC_data : list (Z * (float * Z)))
    (MODIS_data : list (Z * float)) (k : nat) (d : Z) (p : float) :
  NoDup PREC_data.*1 → NoDup MODIS_data.*1 → PE_data !! k = Some (d, p) →
  ∃ ix c1 c2 c3 c4,
    driving_files PE_data PREC_data MODIS_data = Ok (table_files ix c1 c2 c3 c4)
    ∧ length ix = length PE_data
    ∧ c1 !! k = Some (to_R p)
    ∧ c2 !! k
      = Some (j ← get_loc PREC_data.*1 d;
              mjoin (((λ x : Z * (float * Z), to_R x.2.1) <$> PREC_data) !! j))
    ∧ c4 !! k
      = Some (j ← get_loc MODIS_data.*1 d;
              mjoin (((λ x : Z * float, to_R x.2) <$> MODIS_data) !! j)).
Proof.
  intros HPREC HMODIS Hk.
  assert (PE_data.*1 !! k = Some d) as Hd by (by rewrite list_lookup_fmap, Hk).
  pose proof (lookup_indexer PE_data.*1 PREC_data.*1 k d HPREC Hd) as H1.
  assert ((indexer PE_data.*1 PREC_data.*1).*1 !! k = Some d) as Hd'.
  { by rewrite indexer_fst. }
  pose proof (lookup_indexer _ MODIS_data.*1 k d HMODIS Hd') as H2.
  eexists _, _, _, _, _. split; [reflexivity|].
  cbn [index of_series PREC_frame MODIS_frame]. split_and!.
  - by rewrite !indexer_fst, length_fmap.
  - rewrite !list_lookup_fmap, H2. simpl. rewrite !list_lookup_fmap, H1. simpl.
    by rewrite list_lookup_fmap, Hk.
  - rewrite !list_lookup_fmap, H2. simpl. by rewrite !list_lookup_fmap, H1.
  - by rewrite !list_lookup_fmap, H2.
Qed.

(** Row [k] of the joined table of the API pathway. *)
Lemma driving_API_cells (pe precip MODIS_data : list (Z * float)) (k : nat) (d : Z)
    (p : float) :
  NoDup precip.*1 → NoDup MODIS_data.*1 → pe !! k = Some (d, p) →
  ∃ ix c1 c2 c3,
    driving_API pe precip MODIS_data = Ok (table_API ix c1 c2 c3)
    ∧ length ix = length pe
    ∧ c1 !! k = Some (to_R p)
    ∧ c2 !! k
      = Some (j ← get_loc precip.*1 d;
              mjoin (((λ x : Z * float, to_R x.2) <$> precip) !! j))
    ∧ c3 !! k
      = Some (j ← get_loc MODIS_data.*1 d;
              mjoin (((λ x : Z * float, to_R x.2) <$> MODIS_data) !! j)).
Proof.
  intros Hprecip HMODIS Hk.
  assert (pe.*1 !! k = Some d) as Hd by (by rewrite list_lookup_fmap, Hk).
  pose proof (lookup_indexer pe.*1 precip.*1 k d Hprecip Hd) as H1.
  assert ((indexer pe.*1 precip.*1).*1 !! k = Some d) as Hd'.
  { by rewrite indexer_fst. }
  pose proof (lookup_indexer _ MODIS_data.*1 k d HMODIS Hd') as H2.
  eexists _, _, _, _. split; [reflexivity|].
  cbn [index of_series MODIS_frame]. split_and!.
  - by rewrite !indexer_fst, length_fmap.
  - rewrite !list_lookup_fmap, H2. simpl. rewrite !list_lookup_fmap, H1. simpl.
    by rewrite list_lookup_fmap, Hk.
  - rewrite !list_lookup_fmap, H2. simpl. by rewrite !list_lookup_fmap, H1.
  - by rewrite !list_lookup_fmap, H2.
Qed.

(** Row [k] of the columns that [derive] computes, whatever the cells hold. *)
Lemma derived_cells_any (pe pr lai : list (option R)) (k : nat) (p r l : option R) :
  pe !! k = Some p → pr !! k = Some r → lai !! k = Some l →
  as_float (mul_scalar (FloatCol pr) 0.1) !! k = Some (option_map (λ x, x * 0.1)%R r)
  ∧ as_float
      (mul_scalar
         (col_mul (FloatCol pe) (col_exp (scalar_mul (-0.463) (FloatCol lai)))) 0.1)
      !! k
    = Some (option_map (λ x, x * 0.1)%R
              (rlift2 Rmult p (option_map exp (option_map (Rmult (-0.463)) l))))
  ∧ as_float
      (mul_scalar
         (col_sub (FloatCol pe)
            (col_mul (FloatCol pe) (col_exp (scalar_mul (-0.463) (FloatCol lai))))) 0.1)
      !! k
    = Some (option_map (λ x, x * 0.1)%R
              (rlift2 Rminus p
                 (rlift2 Rmult p (option_map exp (option_map (Rmult (-0.463)) l))))).
Proof.
  intros Hp Hr Hl. cbn [as_float mul_scalar col_mul col_sub col_exp scalar_mul].
  repeat (rewrite list_lookup_fmap || rewrite lookup_zip_with).
  rewrite Hp, Hr, Hl. done.
Qed.

(** The written cells of row [k], read off the columns of a driving table. *)
Lemma derive_files_cells (ix : list Z) (pe pr lai : list (option R)) (count : column)
    (k : nat) (p r l : option R) :
  (k < length ix)%nat →
  pe !! k = Some p → pr !! k = Some r → lai !! k = Some l →
  ∃ out,
    derive "PE" "PRECIP" (table_files ix pe pr count lai) = Ok out
    ∧ len out = Z.of_nat (length ix)
    ∧ cell_at out k "tAtm" = Some (Int (Z.of_nat k + 1))
    ∧ cell_at out k "Prec" = Some (Float (option_map (λ x, x * 0.1)%R r))
    ∧ cell_at out k "rSoil"
      = Some (Float (option_map (λ x, x * 0.1)%R
                       (rlift2 Rmult p (option_map exp (option_map (Rmult (-0.463)) l)))))
    ∧ cell_at out k "rRoot"
      = Some (Float (option_map (λ x, x * 0.1)%R
                       (rlift2 Rminus p
                          (rlift2 Rmult p
                             (option_map exp (option_map (Rmult (-0.463)) l))))))
    ∧ cell_at out k "hCritA" = Some (Int 100000).
Proof.
  intros Hk Hp Hr Hl.
  destruct (derived_cells_any pe pr lai k p r l Hp Hr Hl) as (HPrec & HrSoil & HrRoot).
  cbn [as_float mul_scalar col_mul col_sub col_exp scalar_mul] in HPrec, HrSoil, HrRoot.
  eexists. split; [apply derive_files|]. split.
  { unfold len. cbn [index]. by rewrite length_seqZ, Nat2Z.id. }
  unfold cell_at. read_columns.
  rewrite (lookup_succ_seqZ _ _ Hk), HPrec, HrSoil, HrRoot.
  rewrite lookup_replicate_2 by done. done.
Qed.

Lemma derive_API_cells (ix : list Z) (pe pr lai : list (option R))
    (k : nat) (p r l : option R) :
  (k < length ix)%nat →
  pe !! k = Some p → pr !! k = Some r → lai !! k = Some l →
  ∃ out,
    derive "pe" "precip" (table_API ix pe pr lai) = Ok out
    ∧ len out = Z.of_nat (length ix)
    ∧ cell_at out k "tAtm" = Some (Int (Z.of_nat k + 1))
    ∧ cell_at out k "Prec" = Some (Float (option_map (λ x, x * 0.1)%R r))
    ∧ cell_at out k "rSoil"
      = Some (Float (option_map (λ x, x * 0.1)%R
                       (rlift2 Rmult p (option_map exp (option_map (Rmult (-0.463)) l)))))
    ∧ cell_at out k "rRoot"
      = Some (Float (option_map (λ x, x * 0.1)%R
                       (rlift2 Rminus p
                          (rlift2 Rmult p
                             (option_map exp (option_map (Rmult (-0.463)) l))))))
    ∧ cell_at out k "hCritA" = Some (Int 100000).
Proof.
  intros Hk Hp Hr Hl.
  destruct (derived_cells_any pe pr lai k p r l Hp Hr Hl) as (HPrec & HrSoil & HrRoot).
  cbn [as_float mul_scalar col_mul col_sub col_exp scalar_mul] in HPrec, HrSoil, HrRoot.
  eexists. split; [apply derive_API|]. split.
  { unfold len. cbn [index]. by rewrite length_seqZ, Nat2Z.id. }
  unfold cell_at. read_columns.
  rewrite (lookup_succ_seqZ _ _ Hk), HPrec, HrSoil, HrRoot.
  rewrite lookup_replicate_2 by done. done.
Qed.

End joined_facts.

Section extinction_facts.

(** The share [exp(-0.463 * LAI)] of a non-negative LAI lies in (0, 1]. *)
Lemma extinction_bounds (l : R) : (0 <= l → 0 < exp (-0.463 * l) <= 1)%R.
Proof.
  intros Hl. split; [apply exp_pos|].
  destruct (Req_dec l 0) as [->|Hne].
  - rewrite Rmult_0_r, exp_0. lra.
  - rewrite <- exp_0. left. apply exp_increasing. lra.
Qed.

End extinction_facts.

(** X14 - the bounds of the two evaporation columns.  In a row whose PE
    and LAI_pred are defined and not negative, whatever the precipitation
    cell holds, the written rSoil and rRoot both lie between 0 and
    0.1 * PE, in both tables; where LAI_pred is 0 rSoil is 0.1 * PE and
    rRoot is 0. *)
Theorem evaporation_bounds (ix : list Z) (pe pr lai : list (option R)) (count : column)
    (k : nat) (p l : R) (r : option R) :
  (k < length ix)%nat →
  pe !! k = Some (Some p) → pr !! k = Some r → lai !! k = Some (Some l) →
  (0 <= p)%R → (0 <= l)%R →
  (∃ out rSoil rRoot,
     Atmo.derive "pe" "precip" (Atmo.table_API ix pe pr lai) = Ok out
     ∧ cell_at out k "rSoil" = Some (Float (Some rSoil))
     ∧ cell_at out k "rRoot" = Some (Float (Some rRoot))
     ∧ (0 <= rSoil <= p * 0.1)%R ∧ (0 <= rRoot <= p * 0.1)%R
     ∧ (l = 0%R → rSoil = (p * 0.1)%R ∧ rRoot = 0%R))
  ∧ (∃ out rSoil rRoot,
       Atmo.derive "PE" "PRECIP" (Atmo.table_files ix pe pr count lai) = Ok out
       ∧ cell_at out k "rSoil" = Some (Float (Some rSoil))
       ∧ cell_at out k "rRoot" = Some (Float (Some rRoot))
       ∧ (0 <= rSoil <= p * 0.1)%R ∧ (0 <= rRoot <= p * 0.1)%R
       ∧ (l = 0%R → rSoil = (p * 0.1)%R ∧ rRoot = 0%R)).
Proof.
  intros Hk Hp Hr Hl H0p H0l.
  pose proof (extinction_bounds l H0l) as He.
  assert (l = 0%R → exp (-0.463 * l) = 1%R) as He0.
  { intros ->. by rewrite Rmult_0_r, exp_0. }
  split.
  - destruct (derive_API_cells ix pe pr lai k _ _ _ Hk Hp Hr Hl)
      as (out & Hout & _ & _ & _ & HS & HR & _).
    eexists out, _, _. split_and!; [exact Hout|exact HS|exact HR|nra..|].
    intros E. rewrite (He0 E). lra.
  - destruct (derive_files_cells ix pe pr lai count k _ _ _ Hk Hp Hr Hl)
      as (out & Hout & _ & _ & _ & HS & HR & _).
    eexists out, _, _. split_and!; [exact Hout|exact HS|exact HR|nra..|].
    intros E. rewrite (He0 E). lra.
Qed.

Lemma evaporation_bounds_witness :
  (∃ out rSoil rRoot,
     Atmo.derive "pe" "precip"
       (Atmo.table_API [Timestamp 2018 1 1] [Some 5%R] [None] [Some 2%R]) = Ok out
     ∧ cell_at out 0 "rSoil" = Some (Float (Some rSoil))
     ∧ cell_at out 0 "rRoot" = Some (Float (Some rRoot))
     ∧ (0 <= rSoil <= 5 * 0.1)%R ∧ (0 <= rRoot <= 5 * 0.1)%R
     ∧ (2%R = 0%R → rSoil = (5 * 0.1)%R ∧ rRoot = 0%R))
  ∧ (∃ out rSoil rRoot,
       Atmo.derive "PE" "PRECIP"
         (Atmo.table_files [Timestamp 2018 1 1] [Some 5%R] [None] (IntCol [0])
            [Some 2%R]) = Ok out
       ∧ cell_at out 0 "rSoil" = Some (Float (Some rSoil))
       ∧ cell_at out 0 "rRoot" = Some (Float (Some rRoot))
       ∧ (0 <= rSoil <= 5 * 0.1)%R ∧ (0 <= rRoot <= 5 * 0.1)%R
       ∧ (2%R = 0%R → rSoil = (5 * 0.1)%R ∧ rRoot = 0%R)).
Proof.
  apply (evaporation_bounds [Timestamp 2018 1 1] [Some 5%R] [None] [Some 2%R]
           (IntCol [0]) 0 5 2 None); [simpl; lia|reflexivity..|lra|lra].
Defined.

(** X15 - rows are joined by date.  When no date occurs twice in the
    precipitation table or in the LAI series, row [k] of each written table
    is the record of the [k]-th PE value with the precipitation and the LAI
    of the same date, wherever those stand in their own tables. *)
Theorem atmosphere_row_by_date (PE_data pe precip MODIS_data : list (Z * float))
    (PREC_data : list (Z * (float * Z))) (k : nat) (d c : Z) (p r l : Qc) :
  NoDup PREC_data.*1 → NoDup precip.*1 → NoDup MODIS_data.*1 →
  (d, Some l) ∈ MODIS_data →
  (PE_data !! k = Some (d, Some p) → (d, (Some r, c)) ∈ PREC_data →
   ∃ out, Atmo.atmo_files PE_data PREC_data MODIS_data = Ok out
          ∧ Atmo.record_at out k (Q2R p) (Q2R r) (Q2R l))
  ∧ (pe !! k = Some (d, Some p) → (d, Some r) ∈ precip →
     ∃ out, Atmo.atmo_API pe precip MODIS_data = Ok out
            ∧ Atmo.record_at out k (Q2R p) (Q2R r) (Q2R l)).
Proof.
  intros HPREC Hprecip HMODIS Hl. split.
  - intros Hk Hr.
    destruct (driving_files_cells PE_data PREC_data MODIS_data k d (Some p) HPREC HMODIS Hk)
      as (ix & c1 & c2 & c3 & c4 & Hx & Hlen & H1 & H2 & H4).
    rewrite (lookup_joined (λ x : Z * (float * Z), to_R x.2.1) PREC_data d (Some r, c))
      in H2 by done.
    rewrite (lookup_joined (λ x : Z * float, to_R x.2) MODIS_data d (Some l)) in H4 by done.
    destruct (derive_files_cells ix c1 c2 c4 c3 k _ _ _
                ltac:(rewrite Hlen; by eapply lookup_lt_Some) H1 H2 H4)
      as (out & Hout & _ & ? & ? & ? & ? & ?).
    exists out. split; [|done]. unfold Atmo.atmo_files. by rewrite Hx.
  - intros Hk Hr.
    destruct (driving_API_cells pe precip MODIS_data k d (Some p) Hprecip HMODIS Hk)
      as (ix & c1 & c2 & c3 & Hx & Hlen & H1 & H2 & H3).
    rewrite (lookup_joined (λ x : Z * float, to_R x.2) precip d (Some r)) in H2 by done.
    rewrite (lookup_joined (λ x : Z * float, to_R x.2) MODIS_data d (Some l)) in H3 by done.
    destruct (derive_API_cells ix c1 c2 c3 k _ _ _
                ltac:(rewrite Hlen; by eapply lookup_lt_Some) H1 H2 H3)
      as (out & Hout & _ & ? & ? & ? & ? & ?).
    exists out. split; [|done]. unfold Atmo.atmo_API. by rewrite Hx.
Qed.

(** X16 - a PE date without partner.  The row of a PE date is written in
    any case, with its number; a date that the precipitation table lacks
    gives Prec = NaN (not 0), a date that the LAI series lacks, or a missing
    PE value, gives rSoil = rRoot = NaN. *)
Theorem atmosphere_row_missing_partner (PE_data pe precip MODIS_data : list (Z * float))
    (PREC_data : list (Z * (float * Z))) (k : nat) (d : Z) (p : float) :
  NoDup PREC_data.*1 → NoDup precip.*1 → NoDup MODIS_data.*1 →
  (PE_data !! k = Some (d, p) →
   ∃ out, Atmo.atmo_files PE_data PREC_data MODIS_data = Ok out
          ∧ len out = Z.of_nat (length PE_data)
          ∧ cell_at out k "tAtm" = Some (Int (Z.of_nat k + 1))
          ∧ (d ∉ PREC_data.*1 → cell_at out k "Prec" = Some (Float None))
          ∧ (d ∉ MODIS_data.*1 ∨ p = None →
             cell_at out k "rSoil" = Some (Float None)
             ∧ cell_at out k "rRoot" = Some (Float None)))
  ∧ (pe !! k = Some (d, p) →
     ∃ out, Atmo.atmo_API pe precip MODIS_data = Ok out
            ∧ len out = Z.of_nat (length pe)
            ∧ cell_at out k "tAtm" = Some (Int (Z.of_nat k + 1))
            ∧ (d ∉ precip.*1 → cell_at out k "Prec" = Some (Float None))
            ∧ (d ∉ MODIS_data.*1 ∨ p = None →
               cell_at out k "rSoil" = Some (Float None)
               ∧ cell_at out k "rRoot" = Some (Float None))).
Proof.
  intros HPREC Hprecip HMODIS. split.
  - intros Hk.
    destruct (driving_files_cells PE_data PREC_data MODIS_data k d p HPREC HMODIS Hk)
      as (ix & c1 & c2 & c3 & c4 & Hx & Hlen & H1 & H2 & H4).
    destruct (derive_files_cells ix c1 c2 c4 c3 k _ _ _
                ltac:(rewrite Hlen; by eapply lookup_lt_Some) H1 H2 H4)
      as (out & Hout & Hrows & HtAtm & HPrec & HrSoil & HrRoot & _).
    exists out. split_and!.
    + unfold Atmo.atmo_files. by rewrite Hx.
    + by rewrite Hrows, Hlen.
    + done.
    + intros Hd. by rewrite HPrec, lookup_not_joined.
    + intros [Hd| ->].
      * rewrite HrSoil, HrRoot, lookup_not_joined by done. by destruct (to_R p).
      * by rewrite HrSoil, HrRoot.
  - intros Hk.
    destruct (driving_API_cells pe precip MODIS_data k d p Hprecip HMODIS Hk)
      as (ix & c1 & c2 & c3 & Hx & Hlen & H1 & H2 & H3).
    destruct (derive_API_cells ix c1 c2 c3 k _ _ _
                ltac:(rewrite Hlen; by eapply lookup_lt_Some) H1 H2 H3)
      as (out & Hout & Hrows & HtAtm & HPrec & HrSoil & HrRoot & _).
    exists out. split_and!.
    + unfold Atmo.atmo_API. by rewrite Hx.
    + by rewrite Hrows, Hlen.
    + done.
    + intros Hd. by rewrite HPrec, lookup_not_joined.
    + intros [Hd| ->].
      * rewrite HrSoil, HrRoot, lookup_not_joined by done. by destruct (to_R p).
      * by rewrite HrSoil, HrRoot.
Qed.

(** PE on 1 and 2 January 2018; precipitation and LAI on 2 and 1 January. *)
Lemma atmosphere_row_by_date_witness :
  let PE_data := [(Timestamp 2018 1 1, of_int 4); (Timestamp 2018 1 2, of_int 5)] in
  let precip := [(Timestamp 2018 1 2, of_int 10); (Timestamp 2018 1 1, of_int 9)] in
  let PREC_data :=
    [(Timestamp 2018 1 2, (of_int 10, 48)); (Timestamp 2018 1 1, (of_int 9, 48))] in
  let MODIS_data := [(Timestamp 2018 1 2, of_int 0); (Timestamp 2018 1 1, of_int 1)] in
  let p := Q2Qc (inject_Z 5) in
  let r := Q2Qc (inject_Z 10) in
  let l := Q2Qc (inject_Z 0) in
  (PE_data !! 1%nat = Some (Timestamp 2018 1 2, Some p) →
   (Timestamp 2018 1 2, (Some r, 48)) ∈ PREC_data →
   ∃ out, Atmo.atmo_files PE_data PREC_data MODIS_data = Ok out
          ∧ Atmo.record_at out 1 (Q2R p) (Q2R r) (Q2R l))
  ∧ (PE_data !! 1%nat = Some (Timestamp 2018 1 2, Some p) →
     (Timestamp 2018 1 2, Some r) ∈ precip →
     ∃ out, Atmo.atmo_API PE_data precip MODIS_data = Ok out
            ∧ Atmo.record_at out 1 (Q2R p) (Q2R r) (Q2R l)).
Proof.
  apply (atmosphere_row_by_date
           [(Timestamp 2018 1 1, of_int 4); (Timestamp 2018 1 2, of_int 5)]
           [(Timestamp 2018 1 1, of_int 4); (Timestamp 2018 1 2, of_int 5)]
           [(Timestamp 2018 1 2, of_int 10); (Timestamp 2018 1 1, of_int 9)]
           [(Timestamp 2018 1 2, of_int 0); (Timestamp 2018 1 1, of_int 1)]
           [(Timestamp 2018 1 2, (of_int 10, 48)); (Timestamp 2018 1 1, (of_int 9, 48))]
           1 (Timestamp 2018 1 2) 48 (Q2Qc (inject_Z 5)) (Q2Qc (inject_Z 10))
           (Q2Qc (inject_Z 0)));
    [compute_done..|left].
Defined.

(** PE on 1 and 2 January 2018; precipitation and LAI on 1 January only. *)
Lemma atmosphere_row_missing_partner_witness :
  let PE_data := [(Timestamp 2018 1 1, of_int 4); (Timestamp 2018 1 2, of_int 5)] in
  let precip := [(Timestamp 2018 1 1, of_int 9)] in
  let PREC_data := [(Timestamp 2018 1 1, (of_int 9, 48))] in
  let MODIS_data := [(Timestamp 2018 1 1, of_int 1)] in
  let d := Timestamp 2018 1 2 in
  (PE_data !! 1%nat = Some (d, of_int 5) →
   ∃ out, Atmo.atmo_files PE_data PREC_data MODIS_data = Ok out
          ∧ len out = Z.of_nat (length PE_data)
          ∧ cell_at out 1 "tAtm" = Some (Int (Z.of_nat 1 + 1))
          ∧ (d ∉ PREC_data.*1 → cell_at out 1 "Prec" = Some (Float None))
          ∧ (d ∉ MODIS_data.*1 ∨ of_int 5 = None →
             cell_at out 1 "rSoil" = Some (Float None)
             ∧ cell_at out 1 "rRoot" = Some (Float None)))
  ∧ (PE_data !! 1%nat = Some (d, of_int 5) →
     ∃ out, Atmo.atmo_API PE_data precip MODIS_data = Ok out
            ∧ len out = Z.of_nat (length PE_data)
            ∧ cell_at out 1 "tAtm" = Some (Int (Z.of_nat 1 + 1))
            ∧ (d ∉ precip.*1 → cell_at out 1 "Prec" = Some (Float None))
            ∧ (d ∉ MODIS_data.*1 ∨ of_int 5 = None →
               cell_at out 1 "rSoil" = Some (Float None)
               ∧ cell_at out 1 "rRoot" = Some (Float None))).
Proof.
  apply (atmosphere_row_missing_partner
           [(Timestamp 2018 1 1, of_int 4); (Timestamp 2018 1 2, of_int 5)]
           [(Timestamp 2018 1 1, of_int 4); (Timestamp 2018 1 2, of_int 5)]
           [(Timestamp 2018 1 1, of_int 9)]
           [(Timestamp 2018 1 1, of_int 1)]
           [(Timestamp 2018 1 1, (of_int 9, 48))]
           1 (Timestamp 2018 1 2) (of_int 5));
    compute_done.
Defined.

(** ** Outcomes of a run

    The statements of this part are about [Run.init], the run on a device
    that completes every write it opens. *)

Section run_more_facts.
Import Run.

(** The joins and the chain of [write_atmo_data] never raise. *)
Lemma atmo_tables_Ok (pe precip MODIS_data PE_data : list (Z * float))
    (PREC_data : list (Z * (float * Z))) :
  (∃ t1, Atmo.atmo_API pe precip MODIS_data = Ok t1)
  ∧ (∃ t2, Atmo.atmo_files PE_data PREC_data MODIS_data = Ok t2).
Proof.
  split.
  - destruct (driving_API_shape pe precip MODIS_data) as (c1 & c2 & c3 & Hx).
    unfold Atmo.atmo_API. rewrite Hx. eexists. apply derive_API.
  - destruct (driving_files_shape PE_data PREC_data MODIS_data) as (c1 & c2 & c3 & c4 & Hx).
    unfold Atmo.atmo_files. rewrite Hx. eexists. apply derive_files.
Qed.

Lemma mbind_Ok {A B} (m : M A) (k : A → M B) (w w' : world) (b : B) :
  mbind m k w = (Ok b, w') → ∃ a w1, m w = (Ok a, w1) ∧ k a w1 = (Ok b, w').
Proof. unfold mbind. destruct (m w) as [[a|e] w1]; [eauto|done]. Qed.

(** Line 38 has read the two API columns before [write_atmo_data] does. *)
Lemma attributes_Ok (E : env) (years : list Z) (site : string) (w w0 : world)
    (self : CosmosData) :
  attributes E years site w = (Ok self, w0) →
  ∃ pe precip,
    Api.get_cosmos_api_single (api_data self) "pe" = Ok pe
    ∧ Api.get_cosmos_api_single (api_data self) "precip" = Ok precip.
Proof.
  unfold attributes. intros H.
  do 7 (apply mbind_Ok in H as (? & ? & _ & H)).
  apply mbind_Ok in H as (pe & ? & Hpe & H).
  apply mbind_Ok in H as (precip & ? & Hprecip & H).
  apply mbind_Ok in H as (? & ? & _ & H).
  unfold ret in H. injection H as <- <-. cbn [api_data].
  unfold lift in Hpe, Hprecip. injection Hpe as Hpe _. injection Hprecip as Hprecip _.
  eauto.
Qed.

(** The two tables of a run whose attributes are built. *)
Lemma attributes_tables (E : env) (years : list Z) (site : string) (w w0 : world)
    (self : CosmosData) :
  attributes E years site w = (Ok self, w0) →
  ∃ t1 t2, API_table self = Ok t1 ∧ files_table self = Ok t2.
Proof.
  intros (pe & precip & Hpe & Hprecip)%attributes_Ok.
  destruct (atmo_tables_Ok pe precip (MODIS_data self) (PE_data self) (PREC_data self))
    as [[t1 H1] [t2 H2]].
  exists t1, t2. unfold API_table, files_table. by rewrite Hpe, Hprecip.
Qed.

(** The outcome of a run, case by case. *)
Lemma init_cases (E : env) (years : list Z) (site : string) (w : world) :
  (∃ e, (attributes E years site w).1 = Raise e ∧ init E years site w = (Raise e, w))
  ∨ ∃ self t1 t2,
      (attributes E years site w).1 = Ok self
      ∧ API_table self = Ok t1 ∧ files_table self = Ok t2
      ∧ ((("data/atmosphere_API.csv" ∈ readonly w)
          ∧ init E years site w = (Raise PermissionError, w))
         ∨ (("data/atmosphere_API.csv" ∉ readonly w)
            ∧ ("data/atmosphere.csv" ∈ readonly w)
            ∧ init E years site w
              = (Raise PermissionError, put "data/atmosphere_API.csv" t1 w))
         ∨ (("data/atmosphere_API.csv" ∉ readonly w)
            ∧ ("data/atmosphere.csv" ∉ readonly w)
            ∧ init E years site w
              = (Ok t2, put "data/atmosphere.csv" t2
                          (put "data/atmosphere_API.csv" t1 w)))).
Proof.
  unfold init, run, mbind.
  destruct (reads_only_attributes E years site) as [Hsame _]. specialize (Hsame w).
  destruct (attributes E years site w) as [[self|e] w0] eqn:Hattr;
    simpl in Hsame; subst w0; [|left; by exists e].
  right. destruct (attributes_tables E years site w w self Hattr) as (t1 & t2 & H1 & H2).
  exists self, t1, t2. split_and!; [done..|].
  rewrite write_atmo_data_unfold, H1, H2.
  destruct (decide ("data/atmosphere_API.csv" ∈ readonly w)); [by left|].
  destruct (decide ("data/atmosphere.csv" ∈ readonly w)); right; [by left|by right].
Qed.

Lemma inputs_not_outputs (site p : string) : p ∈ inputs site → p ∉ outputs.
Proof.
  unfold inputs, outputs, daily_path, sh_path, modis_path.
  intros Hin Hout.
  repeat (apply elem_of_cons in Hin as [->|Hin]);
    repeat (apply elem_of_cons in Hout as [Hout|Hout]);
    try (by apply elem_of_nil in Hin); try (by apply elem_of_nil in Hout);
    simpl in Hout; discriminate.
Qed.

Lemma not_elem_of_outputs (p : string) :
  p ∉ outputs → p ≠ "data/atmosphere_API.csv" ∧ p ≠ "data/atmosphere.csv".
Proof.
  unfold outputs. intros Hp.
  apply not_elem_of_cons in Hp as [H1 Hp]. by apply not_elem_of_cons in Hp as [H2 _].
Qed.

Lemma put_lookup_ne (path p : string) (df : DataFrame) (w : world) :
  p ≠ path → files (put path df w) !! p = files w !! p.
Proof. intros Hne. unfold put. cbn [files]. by rewrite lookup_insert_ne. Qed.

(** Writing the same two tables again changes nothing. *)
Lemma put_put_again (t1 t2 : DataFrame) (w : world) :
  let w' := put "data/atmosphere.csv" t2 (put "data/atmosphere_API.csv" t1 w) in
  put "data/atmosphere.csv" t2 (put "data/atmosphere_API.csv" t1 w') = w'.
Proof.
  intros w'. unfold w', put. cbn [files readonly]. f_equal.
  apply map_eq. intros p.
  destruct (decide (p = "data/atmosphere.csv")) as [->|H1]; [by simplify_map_eq|].
  destruct (decide (p = "data/atmosphere_API.csv")) as [->|H2]; by simplify_map_eq.
Qed.

End run_more_facts.


(** X18 - what a successful run leaves.  When [CosmosData(years, site)]
    returns, both outputs were writable, data/atmosphere_API.csv holds the
    API table, data/atmosphere.csv holds the archival table, and the table
    kept as [atmo_data] is the archival one (line 229 returns the second
    [atmo]). *)
Theorem successful_run_effect (E : Run.env) (years : list Z) (site : string)
    (w w' : Run.world) (atmo : DataFrame) :
  Run.init E years site w = (Ok atmo, w') →
  ∃ self t1,
    (Run.attributes E years site w).1 = Ok self
    ∧ Run.API_table self = Ok t1
    ∧ Run.files_table self = Ok atmo
    ∧ ("data/atmosphere_API.csv" ∉ Run.readonly w)
    ∧ ("data/atmosphere.csv" ∉ Run.readonly w)
    ∧ w' = Run.put "data/atmosphere.csv" atmo (Run.put "data/atmosphere_API.csv" t1 w).
Proof.
  intros Hinit.
  destruct (init_cases E years site w)
    as [(e & _ & H)|(self & t1 & t2 & Hattr & H1 & H2
                     & [[_ H]|[(_ & _ & H)|(Hw1 & Hw2 & H)]])];
    rewrite H in Hinit; try done.
  injection Hinit as <- <-. by exists self, t1.
Qed.

(** X19 - where a run can fail.  A run that raises has failed while the
    attributes were built (lines 30-38), with nothing written, or at one of
    the two [to_csv] calls on a path that cannot be written: the joins and
    the chain of lines 202-210 and 216-224 never raise, and line 38 has
    already read the two API columns that line 202 reads again. *)
Theorem run_fails_before_output_or_on_write (E : Run.env) (years : list Z)
    (site : string) (w w' : Run.world) (e : exn) :
  Run.init E years site w = (Raise e, w') →
  ((Run.attributes E years site w).1 = Raise e ∧ w' = w)
  ∨ (e = PermissionError ∧ ∃ p, p ∈ Run.outputs ∧ p ∈ Run.readonly w).
Proof.
  intros Hinit.
  destruct (init_cases E years site w)
    as [(e' & Hattr & H)|(self & t1 & t2 & Hattr & H1 & H2
                          & [[Hw H]|[(_ & Hw & H)|(_ & _ & H)]])];
    rewrite H in Hinit; try done.
  - injection Hinit as <- <-. by left.
  - injection Hinit as <- <-. right. split; [done|].
    exists "data/atmosphere_API.csv". split; [left|done].
  - injection Hinit as <- <-. right. split; [done|].
    exists "data/atmosphere.csv". split; [right; left|done].
Qed.

(** The run on [blocked_2018], where data/atmosphere.csv cannot be written. *)
Lemma run_fails_before_output_or_on_write_witness :
  ((Run.attributes env_2018 [2018] "CHIMN" blocked_2018).1 = Raise PermissionError
   ∧ (Run.init env_2018 [2018] "CHIMN" blocked_2018).2 = blocked_2018)
  ∨ (PermissionError = PermissionError
     ∧ ∃ p, p ∈ Run.outputs ∧ p ∈ Run.readonly blocked_2018).
Proof.
  apply (run_fails_before_output_or_on_write env_2018 [2018] "CHIMN" blocked_2018
           (Run.init env_2018 [2018] "CHIMN" blocked_2018).2 PermissionError).
  vm_compute. reflexivity.
Defined.

Lemma successful_run_effect_witness :
  ∃ self t1,
    (Run.attributes env_2018 [2018] "CHIMN" world_2018).1 = Ok self
    ∧ Run.API_table self = Ok t1
    ∧ Run.files_table self = Ok table_2018
    ∧ ("data/atmosphere_API.csv" ∉ Run.readonly world_2018)
    ∧ ("data/atmosphere.csv" ∉ Run.readonly world_2018)
    ∧ after_2018
      = Run.put "data/atmosphere.csv" table_2018
          (Run.put "data/atmosphere_API.csv" t1 world_2018).
Proof.
  apply (successful_run_effect env_2018 [2018] "CHIMN" world_2018 after_2018 table_2018).
  vm_compute. reflexivity.
Defined.

(** X20 - running twice.  After a run that returned, a second run for the
    same years and site, in the same environment, on the file system the
    first one left, returns the same table and leaves that file system as
    it is: the outputs are not among the inputs. *)
Theorem run_idempotent (E : Run.env) (years : list Z) (site : string)
    (w w' : Run.world) (atmo : DataFrame) :
  Run.init E years site w = (Ok atmo, w') →
  Run.init E years site w' = (Ok atmo, w').
Proof.
  intros Hinit.
  destruct (init_cases E years site w)
    as [(e & _ & H)|(self & t1 & t2 & Hattr & H1 & H2
                     & [[_ H]|[(_ & _ & H)|(Hw1 & Hw2 & H)]])];
    rewrite H in Hinit; try done.
  injection Hinit as <- <-.
  set (w' := Run.put "data/atmosphere.csv" t2 (Run.put "data/atmosphere_API.csv" t1 w)).
  destruct (reads_only_attributes E years site) as [_ Hdep].
  assert ((Run.attributes E years site w').1 = Ok self) as Hattr'.
  { rewrite <- Hattr. apply Hdep. intros p Hp.
    destruct (not_elem_of_outputs p (inputs_not_outputs site p Hp)) as [Ho1 Ho2].
    unfold w'. by rewrite !put_lookup_ne. }
  destruct (init_cases E years site w')
    as [(e & He & _)|(self' & t1' & t2' & Hattr'' & H1' & H2'
                      & [[Hw _]|[(_ & Hw & _)|(_ & _ & H')]])];
    [congruence|done..|].
  assert (self' = self) as -> by congruence.
  assert (t1' = t1) as -> by congruence. assert (t2' = t2) as -> by congruence.
  rewrite H'. f_equal. apply put_put_again.
Qed.

Lemma run_idempotent_witness :
  Run.init env_2018 [2018] "CHIMN" after_2018 = (Ok table_2018, after_2018).
Proof.
  apply (run_idempotent env_2018 [2018] "CHIMN" world_2018 after_2018 table_2018).
  vm_compute. reflexivity.
Defined.

(** X21 - a missing input.  When one of the three input files does not
    exist, and the daily and the sub-daily file, where they exist, are
    tables of their layout, the run raises FileNotFoundError, whatever the
    API would answer, and writes nothing. *)
Theorem run_missing_input (E : Run.env) (years : list Z) (site : string)
    (w : Run.world) (p : string) :
  p ∈ Run.inputs site → Run.files w !! p = None →
  (∀ f, Run.files w !! Run.daily_path site = Some f → ∃ rows, f = Run.DailyCsv rows) →
  (∀ f, Run.files w !! Run.sh_path site = Some f → ∃ rows, f = Run.SHCsv rows) →
  Run.init E years site w = (Raise FileNotFoundError, w).
Proof.
  intros Hp Hnone Hdaily Hsh.
  unfold Run.init, Run.run, Run.attributes, Run.get_cosmos_data, Run.get_PE_data,
    Run.get_PREC_data, Run.get_LAI_data, Run.get_MODIS_data, Run.read_daily,
    Run.mbind, Run.read_csv, Run.lift, Run.ret.
  unfold Run.inputs in Hp.
  repeat (apply elem_of_cons in Hp as [->|Hp]); [..|by apply elem_of_nil in Hp];
    repeat (cbv beta iota;
            match goal with
            | H : Run.files w !! ?q = _ |- context [Run.files w !! ?q] => rewrite H
            | |- context [Run.files w !! ?q] =>
                let H := fresh "Hfile" in
                destruct (Run.files w !! q) as [f|] eqn:H;
                [first [ destruct (Hsh _ eq_refl) as [? ->]
                       | destruct (Hdaily _ eq_refl) as [? ->] ]|]
            end);
    cbv beta iota; done.
Qed.

(** No file at all. *)
Lemma run_missing_input_witness :
  Run.init env_2018 [2018] "CHIMN" no_files = (Raise FileNotFoundError, no_files).
Proof.
  apply (run_missing_input env_2018 [2018] "CHIMN" no_files Run.modis_path).
  - unfold Run.inputs. right; right; left.
  - reflexivity.
  - intros f Hf. unfold no_files in Hf. cbn [Run.files] in Hf.
    by rewrite lookup_empty in Hf.
  - intros f Hf. unfold no_files in Hf. cbn [Run.files] in Hf.
    by rewrite lookup_empty in Hf.
Defined.

Section run_series_facts.
Import Run.

(** Where the three archival attributes of a run come from. *)
Lemma attributes_Ok_series (E : env) (years : list Z) (site : string) (w w0 : world)
    (self : CosmosData) :
  attributes E years site w = (Ok self, w0) →
  ∃ daily sh csv,
    PE_data self = Archive.get_PE_data daily years
    ∧ PREC_data self = Archive.get_PREC_data sh years
    ∧ Modis.get_MODIS_data csv site years = Ok (MODIS_data self).
Proof.
  unfold attributes. intros H.
  apply mbind_Ok in H as (? & ? & _ & H).
  apply mbind_Ok in H as (PE & ? & HPE & H).
  apply mbind_Ok in H as (PREC & ? & HPREC & H).
  apply mbind_Ok in H as (MODIS & ? & HMODIS & H).
  do 6 (apply mbind_Ok in H as (? & ? & _ & H)).
  unfold ret in H. injection H as <- <-. cbn [PE_data PREC_data MODIS_data].
  unfold get_PE_data in HPE. apply mbind_Ok in HPE as (daily & ? & _ & HPE).
  unfold ret in HPE. injection HPE as <- _.
  unfold get_PREC_data in HPREC. apply mbind_Ok in HPREC as (f & ? & _ & HPREC).
  destruct f as [|sh| | |]; try done. unfold ret in HPREC. injection HPREC as <- _.
  unfold get_MODIS_data in HMODIS. apply mbind_Ok in HMODIS as (f & ? & _ & HMODIS).
  destruct f as [| |csv| |]; try done. unfold lift in HMODIS. injection HMODIS as HMODIS _.
  by eexists _, _, _.
Qed.

End run_series_facts.

(** X22 - in a run the LAI series covers the PE series.  When the
    attributes are built, the precipitation table and the reconstructed LAI
    have one row per date, and every date of the PE series has its row in
    the LAI series: the PE rows lie in requested years, the calendar runs
    from the first day of the smallest to the last day of the largest. *)
Theorem run_LAI_covers_PE (E : Run.env) (years : list Z) (site : string)
    (w w0 : Run.world) (self : Run.CosmosData) :
  Run.attributes E years site w = (Ok self, w0) →
  NoDup (Run.PREC_data self).*1
  ∧ NoDup (Run.MODIS_data self).*1
  ∧ ∀ d p, (d, p) ∈ Run.PE_data self → ∃ l, (d, l) ∈ Run.MODIS_data self.
Proof.
  intros (daily & sh & csv & -> & -> & HMODIS)%attributes_Ok_series.
  split_and!.
  - apply get_PREC_data_NoDup.
  - by eapply get_MODIS_data_NoDup.
  - intros d p Hin.
    apply get_MODIS_data_Ok in HMODIS
      as (lo & hi & first & final & Hlo & Hhi & _ & _ & _ & _ & Hix & _).
    unfold Archive.get_PE_data, Archive.isin_years in Hin.
    apply list_elem_of_filter in Hin as [Hy _]. simpl in Hy.
    assert (calendar years = Ok (date_range (Timestamp lo 1 1) (Timestamp hi 12 31))) as Hcal.
    { unfold calendar. by rewrite Hlo, Hhi. }
    apply calendar_Ok in Hcal as (lo' & hi' & Hlo' & Hhi' & Hyears & _).
    assert (lo' = lo) as -> by congruence. assert (hi' = hi) as -> by congruence.
    pose proof (year_between lo hi d (Hyears _ Hy)) as Hd.
    assert (d ∈ (Run.MODIS_data self).*1) as Hd'.
    { rewrite Hix. unfold date_range. apply elem_of_seqZ. lia. }
    apply list_elem_of_fmap in Hd' as ([d' l] & -> & Hl). by exists l.
Qed.

Lemma run_LAI_covers_PE_witness :
  NoDup (Run.PREC_data self_2018).*1
  ∧ NoDup (Run.MODIS_data self_2018).*1
  ∧ ∀ d p, (d, p) ∈ Run.PE_data self_2018 → ∃ l, (d, l) ∈ Run.MODIS_data self_2018.
Proof.
  apply (run_LAI_covers_PE env_2018 [2018] "CHIMN" world_2018 world_2018 self_2018).
  vm_compute. reflexivity.
Defined.
